(** * dpdispatcher/submission.py: Submission, Task, Job and Resources

    A shallow embedding of the module [dpdispatcher/submission.py] and the
    properties of its submission state machine.

    Layout of the development:
    - Python values, exceptions and a state monad in which the state
      survives a raised exception (a Python object mutated before a
      [raise] stays mutated);
    - the Python standard library functions the module calls
      ([hashlib.sha1], [str], [json], [random]) as a class [PyStd];
    - the [Batch]/[Context] capability surface as a class [World];
    - the four classes of the module, method by method
      ([Submission.submission_from_json], which reads a local file and is
      called by nothing in the module, is left out);
    - the theorems. *)

From Stdlib Require Import List String Ascii ZArith Lia Bool Arith Permutation.
From Stdlib Require Import DecimalString.
Import ListNotations.
Local Open Scope string_scope.
Local Open Scope list_scope.

(** ** Python values *)

(** Modelled from the spec: [dpdispatcher/JobStatus.py] is imported by the
    module but is not part of it.  The glossary lists the members of the
    enumeration: unsubmitted, waiting, running, completing, finished,
    terminated, unknown.  A member is equal to itself only. *)
Inductive JobStatus : Type :=
| unsubmitted
| waiting
| running
| terminated
| finished
| completing
| unknown.

Definition JobStatus_eqb (a b : JobStatus) : bool :=
  match a, b with
  | unsubmitted, unsubmitted
  | waiting, waiting
  | running, running
  | terminated, terminated
  | finished, finished
  | completing, completing
  | unknown, unknown => true
  | _, _ => false
  end.

Definition JobStatus_name (st : JobStatus) : string :=
  match st with
  | unsubmitted => "unsubmitted"
  | waiting => "waiting"
  | running => "running"
  | terminated => "terminated"
  | finished => "finished"
  | completing => "completing"
  | unknown => "unknown"
  end.

(** The values that flow through [serialize]/[deserialize]: what [json]
    reads and writes, plus the members of [JobStatus], which [serialize]
    stores as they are.  A dict is an association list in insertion order:
    [str(dict)] is hashed, so the order of the keys is part of the value.
    A float is carried as its literal. *)
#[local] Unset Elimination Schemes.
Inductive pyval : Type :=
| PNone
| PBool (b : bool)
| PInt (z : Z)
| PFloat (literal : string)
| PStr (s : string)
| PList (items : list pyval)
| PDict (entries : list (string * pyval))
| PStatus (st : JobStatus).
#[local] Set Elimination Schemes.

(** [==] on the values above.  The two sides of every comparison made by
    the module are built by the same [serialize] method, so their keys come
    in the same order and the leaves that hold typed attributes have the
    same Python types; on such values Python's [==] is the structural
    comparison below.  The one leaf of any type is [task_need_resources]:
    there the comparison below is finer than Python's, which takes [1],
    [1.0] and [True] for equal.  Values that are equal here are equal in
    Python. *)
Fixpoint pyval_eqb (a b : pyval) {struct a} : bool :=
  match a, b with
  | PNone, PNone => true
  | PBool x, PBool y => Bool.eqb x y
  | PInt x, PInt y => Z.eqb x y
  | PFloat x, PFloat y => String.eqb x y
  | PStr x, PStr y => String.eqb x y
  | PStatus x, PStatus y => JobStatus_eqb x y
  | PList l, PList m =>
      (fix items_eqb (l m : list pyval) {struct l} : bool :=
         match l, m with
         | [], [] => true
         | x :: l', y :: m' => pyval_eqb x y && items_eqb l' m'
         | _, _ => false
         end) l m
  | PDict l, PDict m =>
      (fix entries_eqb (l m : list (string * pyval)) {struct l} : bool :=
         match l, m with
         | [], [] => true
         | (k, x) :: l', (k', y) :: m' =>
             String.eqb k k' && pyval_eqb x y && entries_eqb l' m'
         | _, _ => false
         end) l m
  | _, _ => false
  end.

(** [d[key]] on the entries of a dict. *)
Fixpoint dict_get (key : string) (d : list (string * pyval)) : option pyval :=
  match d with
  | [] => None
  | (k, v) :: rest => if String.eqb k key then Some v else dict_get key rest
  end.

Definition dict_keys (d : list (string * pyval)) : list string := map fst d.

(** ** Exceptions *)

(** The exception classes that occur.  [Unmodelled] is not a Python
    exception: it marks an execution that leaves the fragment embedded here
    (a [SlurmResources] object, whose class lives in another module, or a
    snapshot holding a value outside the documented type of an attribute). *)
Inductive exn : Type :=
| RuntimeError (msg : string)
| KeyError (key : string)
| TypeError (msg : string)
| AttributeError (msg : string)
| IndexError (msg : string)
| OtherException (cls msg : string)
| KeyboardInterrupt
| SystemExit (code : Z)
| OtherBaseException (cls : string)
| Unmodelled (what : string).

(** The three [except] clauses of [run_submission] select on the class. *)
Inductive exn_class : Type :=
| ClsKeyboardInterrupt
| ClsSystemExit
| ClsException
| ClsOther.

Definition class_of (e : exn) : exn_class :=
  match e with
  | KeyboardInterrupt => ClsKeyboardInterrupt
  | SystemExit _ => ClsSystemExit
  | OtherBaseException _ => ClsOther
  | Unmodelled _ => ClsOther
  | _ => ClsException
  end.

(** [str(e)]. *)
Definition exn_str (e : exn) : string :=
  match e with
  | RuntimeError m => m
  | KeyError k => "'" ++ k ++ "'"
  | TypeError m => m
  | AttributeError m => m
  | IndexError m => m
  | OtherException _ m => m
  | KeyboardInterrupt => ""
  | SystemExit _ => ""
  | OtherBaseException _ => ""
  | Unmodelled w => w
  end.

Inductive Res (A : Type) : Type :=
| Ok (a : A)
| Raise (e : exn).
Arguments Ok {A} a.
Arguments Raise {A} e.

(** ** The effect monad

    A computation over a state [S] returns a result or an exception, and in
    both cases the state it reached. *)
Definition M (S A : Type) : Type := S -> Res A * S.

Definition ret {S A : Type} (a : A) : M S A := fun s => (Ok a, s).

Definition bind {S A C : Type} (m : M S A) (k : A -> M S C) : M S C :=
  fun s =>
    match m s with
    | (Ok a, s') => k a s'
    | (Raise e, s') => (Raise e, s')
    end.

Definition raise {S A : Type} (e : exn) : M S A := fun s => (Raise e, s).

Definition get {S : Type} : M S S := fun s => (Ok s, s).

Definition put {S : Type} (s : S) : M S unit := fun _ => (Ok tt, s).

(** A pure computation that may fail, run inside [M]. *)
Definition lift_res {S A : Type} (r : Res A) : M S A := fun s => (r, s).

Declare Scope py_scope.
Delimit Scope py_scope with py.
Notation "x <- m ;; k" := (bind m (fun x => k))
  (at level 61, m at next level, right associativity) : py_scope.
Notation "m ;; k" := (bind m (fun _ => k))
  (at level 61, right associativity) : py_scope.
Local Open Scope py_scope.

(** The pure fragment: [Res] as an error monad. *)
Definition rbind {A C : Type} (r : Res A) (k : A -> Res C) : Res C :=
  match r with
  | Ok a => k a
  | Raise e => Raise e
  end.

Notation "x <-- r ;;; k" := (rbind r (fun x => k))
  (at level 61, r at next level, right associativity) : py_scope.

Fixpoint rmap {A C : Type} (f : A -> Res C) (l : list A) : Res (list C) :=
  match l with
  | [] => Ok []
  | x :: rest =>
      y <-- f x ;;;
      ys <-- rmap f rest ;;;
      Ok (y :: ys)
  end.

(** ** The Python standard library *)

(** What the module takes from the standard library: [hashlib.sha1] of the
    UTF-8 encoding of a string as a hex digest, [str] of a value,
    [json.dumps(_, indent=2, default=str)], [json.loads], and the
    module-level generator of [random].  [random.seed(n)] puts the generator
    in a state that depends on [n] alone; [random.shuffle] permutes a
    list. *)
Class PyStd (G : Type) : Type := {
  sha1_hexdigest : string -> string;
  py_str : pyval -> string;
  json_dumps : pyval -> string;
  json_loads : string -> Res pyval;
  random_seed : Z -> G;
  random_shuffle : list nat -> G -> list nat * G;
  random_shuffle_perm :
    forall (l : list nat) (g : G), Permutation (fst (random_shuffle l g)) l
}.

(** ** Reading a value the way the module does *)

(** [v[key]]: a dict is looked up, anything else is not subscriptable by a
    string. *)
Definition py_getitem (v : pyval) (key : string) : Res pyval :=
  match v with
  | PDict d =>
      match dict_get key d with
      | Some x => Ok x
      | None => Raise (KeyError key)
      end
  | _ => Raise (TypeError "object is not subscriptable by str")
  end.

(** [for x in v]: a list yields its items, a dict its keys, a string its
    characters; nothing else is iterable. *)
Definition py_iter (v : pyval) : Res (list pyval) :=
  match v with
  | PList l => Ok l
  | PDict d => Ok (map PStr (dict_keys d))
  | PStr s => Ok (map (fun c => PStr (String c EmptyString)) (list_ascii_of_string s))
  | _ => Raise (TypeError "object is not iterable")
  end.

(** A constructor called with [**d]: the keyword names it accepts.  A key outside
    [names] or the absence of a name in [required] is a [TypeError]. *)
Definition kwargs (names required : list string) (v : pyval)
  : Res (list (string * pyval)) :=
  match v with
  | PDict d =>
      if negb (forallb (fun k => existsb (String.eqb k) names) (dict_keys d))
      then Raise (TypeError "got an unexpected keyword argument")
      else if negb (forallb (fun k => existsb (String.eqb k) (dict_keys d)) required)
      then Raise (TypeError "missing required positional argument")
      else Ok d
  | _ => Raise (TypeError "argument after ** must be a mapping")
  end.

Definition kwarg (d : list (string * pyval)) (name : string) (default : pyval)
  : pyval :=
  match dict_get name d with
  | Some v => v
  | None => default
  end.

(** The attributes have the types their docstrings give; a snapshot that
    holds another kind of value there leaves the embedding. *)
Definition as_int (v : pyval) : Res Z :=
  match v with
  | PInt z => Ok z
  | _ => Raise (Unmodelled "attribute documented as int")
  end.

Definition as_bool (v : pyval) : Res bool :=
  match v with
  | PBool b => Ok b
  | _ => Raise (Unmodelled "attribute documented as bool")
  end.

Definition as_str (v : pyval) : Res string :=
  match v with
  | PStr s => Ok s
  | _ => Raise (Unmodelled "attribute documented as str")
  end.

Definition as_str_list (v : pyval) : Res (list string) :=
  match v with
  | PList l => rmap as_str l
  | _ => Raise (Unmodelled "attribute documented as list of str")
  end.

Definition PStrs (l : list string) : pyval := PList (map PStr l).

(** ** class Resources *)

Module Resources.

Record t : Type := mk {
  number_node : Z;
  cpu_per_node : Z;
  gpu_per_node : Z;
  queue_name : string;
  group_size : Z;
  if_cuda_multi_devices : bool;
  in_use : Z
}.

(** [Resources.__init__] *)
Definition init (number_node cpu_per_node gpu_per_node : Z)
    (queue_name : string) (group_size : Z) (if_cuda_multi_devices : bool)
  : Res t :=
  let self := mk number_node cpu_per_node gpu_per_node queue_name
                 group_size if_cuda_multi_devices 0 in
  if if_cuda_multi_devices then
    if (gpu_per_node <? 1)%Z then
      Raise (RuntimeError
        "gpu_per_node can not be smaller than 1 when if_cuda_multi_devices is True")
    else if negb (number_node =? 1)%Z then
      Raise (RuntimeError
        "number_node must be 1 when if_cuda_multi_devices is True")
    else Ok self
  else Ok self.

(** [Resources.serialize] *)
Definition serialize (self : t) : pyval :=
  PDict [ ("number_node", PInt (number_node self));
          ("cpu_per_node", PInt (cpu_per_node self));
          ("gpu_per_node", PInt (gpu_per_node self));
          ("queue_name", PStr (queue_name self));
          ("group_size", PInt (group_size self));
          ("if_cuda_multi_devices", PBool (if_cuda_multi_devices self)) ].

(** [Resources.__eq__] *)
Definition eq (self other : t) : bool :=
  pyval_eqb (serialize self) (serialize other).

(** [Resources.deserialize].  A dict with the key [slurm_sbatch_dict]
    becomes a [SlurmResources], a class of [dpdispatcher/slurm.py]. *)
Definition deserialize (resources_dict : pyval) : Res t :=
  match resources_dict with
  | PDict d =>
      if existsb (String.eqb "slurm_sbatch_dict") (dict_keys d) then
        Raise (Unmodelled "SlurmResources")
      else
        kw <-- kwargs [ "number_node"; "cpu_per_node"; "gpu_per_node";
                        "queue_name"; "group_size"; "if_cuda_multi_devices" ]
                      [ "number_node"; "cpu_per_node"; "gpu_per_node";
                        "queue_name" ] resources_dict ;;;
        nn <-- as_int (kwarg kw "number_node" PNone) ;;;
        cpn <-- as_int (kwarg kw "cpu_per_node" PNone) ;;;
        gpn <-- as_int (kwarg kw "gpu_per_node" PNone) ;;;
        qn <-- as_str (kwarg kw "queue_name" PNone) ;;;
        gs <-- as_int (kwarg kw "group_size" (PInt 1)) ;;;
        cuda <-- as_bool (kwarg kw "if_cuda_multi_devices" (PBool false)) ;;;
        init nn cpn gpn qn gs cuda
  | _ => Raise (TypeError "resources_dict is not a dict")
  end.

End Resources.

(** ** class Task *)

Module Task.

Record t : Type := mk {
  command : string;
  task_work_path : string;
  forward_files : list string;
  backward_files : list string;
  outlog : string;
  errlog : string;
  task_need_resources : pyval;
  task_hash : string
}.

(** [Task.serialize] *)
Definition serialize (self : t) : pyval :=
  PDict [ ("command", PStr (command self));
          ("task_work_path", PStr (task_work_path self));
          ("forward_files", PStrs (forward_files self));
          ("backward_files", PStrs (backward_files self));
          ("outlog", PStr (outlog self));
          ("errlog", PStr (errlog self));
          ("task_need_resources", task_need_resources self) ].

(** [Task.__eq__] *)
Definition eq (self other : t) : bool :=
  pyval_eqb (serialize self) (serialize other).

Section WithStd.
Context {G : Type} {std : PyStd G}.

(** [Task.get_hash] *)
Definition get_hash (self : t) : string :=
  sha1_hexdigest (py_str (serialize self)).

(** [Task.__init__]: [task_hash] is computed last, from the attributes
    set before it. *)
Definition init (command task_work_path : string)
    (forward_files backward_files : list string) (outlog errlog : string)
    (task_need_resources : pyval) : t :=
  let self := mk command task_work_path forward_files backward_files
                 outlog errlog task_need_resources "" in
  mk command task_work_path forward_files backward_files
     outlog errlog task_need_resources (get_hash self).

(** [Task.deserialize]: the constructor called with [**task_dict],
    with the defaults of [__init__]. *)
Definition deserialize (task_dict : pyval) : Res t :=
  kw <-- kwargs [ "command"; "task_work_path"; "forward_files";
                  "backward_files"; "outlog"; "errlog";
                  "task_need_resources" ]
                [ "command"; "task_work_path" ] task_dict ;;;
  c <-- as_str (kwarg kw "command" PNone) ;;;
  p <-- as_str (kwarg kw "task_work_path" PNone) ;;;
  ff <-- as_str_list (kwarg kw "forward_files" (PList [])) ;;;
  bf <-- as_str_list (kwarg kw "backward_files" (PList [])) ;;;
  ol <-- as_str (kwarg kw "outlog" (PStr "log")) ;;;
  el <-- as_str (kwarg kw "errlog" (PStr "err")) ;;;
  Ok (init c p ff bf ol el (kwarg kw "task_need_resources" (PInt 1))).

End WithStd.

End Task.

(** ** class Job *)

(** A [Batch] object, by identity. *)
Definition BatchRef : Type := nat.

Module Job.

Record t : Type := mk {
  job_task_list : list Task.t;
  resources : Resources.t;
  batch : option BatchRef;
  job_state : pyval;
  job_id : string;
  fail_count : Z;
  job_hash : string;
  script_file_name : string
}.

Definition set_batch (b : option BatchRef) (self : t) : t :=
  mk (job_task_list self) (resources self) b (job_state self)
     (job_id self) (fail_count self) (job_hash self) (script_file_name self).

Definition set_job_state (v : pyval) (self : t) : t :=
  mk (job_task_list self) (resources self) (batch self) v
     (job_id self) (fail_count self) (job_hash self) (script_file_name self).

Definition set_job_id (v : string) (self : t) : t :=
  mk (job_task_list self) (resources self) (batch self) (job_state self)
     v (fail_count self) (job_hash self) (script_file_name self).

Definition set_fail_count (v : Z) (self : t) : t :=
  mk (job_task_list self) (resources self) (batch self) (job_state self)
     (job_id self) v (job_hash self) (script_file_name self).

Section WithStd.
Context {G : Type} {std : PyStd G}.

(** [job_content_dict] before the runtime triple is added. *)
Definition content (self : t) : list (string * pyval) :=
  [ ("job_task_list", PList (map Task.serialize (job_task_list self)));
    ("resources", Resources.serialize (resources self)) ].

(** [Job.serialize]: the hash is taken before the runtime triple is
    added to the dict. *)
Definition serialize (if_static : bool) (self : t) : pyval :=
  let job_content_dict := content self in
  let job_hash := sha1_hexdigest (py_str (PDict job_content_dict)) in
  let job_content_dict :=
    if negb if_static then
      job_content_dict ++
      [ ("job_state", job_state self);
        ("job_id", PStr (job_id self));
        ("fail_count", PInt (fail_count self)) ]
    else job_content_dict in
  PDict [ (job_hash, PDict job_content_dict) ].

(** [Job.get_hash]: the first key of the static serialization. *)
Definition get_hash (self : t) : string :=
  match serialize true self with
  | PDict ((k, _) :: _) => k
  | _ => ""
  end.

(** [Job.__repr__] *)
Definition repr (self : t) : string := py_str (serialize false self).

(** [Job.__eq__] *)
Definition eq (self other : t) : bool :=
  pyval_eqb (serialize true self) (serialize true other).

(** [Job.__init__] *)
Definition init (job_task_list : list Task.t) (resources : Resources.t)
    (batch : option BatchRef) : t :=
  let self := mk job_task_list resources batch PNone "" 0 "" "" in
  let job_hash := get_hash self in
  mk job_task_list resources batch PNone "" 0 job_hash (job_hash ++ ".sub").

(** [Job.deserialize] *)
Definition deserialize (batch : option BatchRef) (job_dict : pyval)
  : Res t :=
  match job_dict with
  | PDict d =>
      match dict_keys d with
      | [ job_hash ] =>
          inner <-- py_getitem job_dict job_hash ;;;
          tl <-- py_getitem inner "job_task_list" ;;;
          task_dicts <-- py_iter tl ;;;
          job_task_list <-- rmap Task.deserialize task_dicts ;;;
          rd <-- py_getitem inner "resources" ;;;
          resources <-- Resources.deserialize rd ;;;
          let job := init job_task_list resources batch in
          job_state <-- py_getitem inner "job_state" ;;;
          let job := set_job_state job_state job in
          jid <-- py_getitem inner "job_id" ;;;
          job_id <-- as_str jid ;;;
          let job := set_job_id job_id job in
          fc <-- py_getitem inner "fail_count" ;;;
          fail_count <-- as_int fc ;;;
          Ok (set_fail_count fail_count job)
      | _ =>
          Raise (RuntimeError
            ("json file may be broken, len(job_dict.keys()) must be 1. "
             ++ py_str job_dict))
      end
  | _ => Raise (AttributeError "object has no attribute 'keys'")
  end.

End WithStd.

End Job.

(** ** class Submission: attributes and the methods without side effect *)

Module Submission.

Record t : Type := mk {
  work_base : string;
  resources : Resources.t;
  forward_common_files : list string;
  backward_common_files : list string;
  submission_hash : string;
  belonging_tasks : list Task.t;
  belonging_jobs : list Job.t;
  batch : option BatchRef
}.

Definition set_submission_hash (h : string) (self : t) : t :=
  mk (work_base self) (resources self) (forward_common_files self)
     (backward_common_files self) h (belonging_tasks self)
     (belonging_jobs self) (batch self).

Definition set_belonging_tasks (ts : list Task.t) (self : t) : t :=
  mk (work_base self) (resources self) (forward_common_files self)
     (backward_common_files self) (submission_hash self) ts
     (belonging_jobs self) (batch self).

Definition set_belonging_jobs (js : list Job.t) (self : t) : t :=
  mk (work_base self) (resources self) (forward_common_files self)
     (backward_common_files self) (submission_hash self)
     (belonging_tasks self) js (batch self).

Definition set_batch (b : option BatchRef) (self : t) : t :=
  mk (work_base self) (resources self) (forward_common_files self)
     (backward_common_files self) (submission_hash self)
     (belonging_tasks self) (belonging_jobs self) b.

Section WithStd.
Context {G : Type} {std : PyStd G}.

(** [Submission.serialize] *)
Definition serialize (if_static : bool) (self : t) : pyval :=
  PDict [ ("work_base", PStr (work_base self));
          ("resources", Resources.serialize (resources self));
          ("forward_common_files", PStrs (forward_common_files self));
          ("backward_common_files", PStrs (backward_common_files self));
          ("belonging_jobs",
           PList (map (Job.serialize if_static) (belonging_jobs self))) ].

(** [Submission.__eq__] *)
Definition eq (self other : t) : bool :=
  pyval_eqb (serialize true self) (serialize true other).

(** [Submission.get_hash] *)
Definition get_hash (self : t) : string :=
  sha1_hexdigest (py_str (serialize true self)).

(** [Submission.__repr__] *)
Definition repr (self : t) : string := py_str (serialize false self).

(** [bind_batch(None)]: with no batch there is no context to call; the
    hash is recomputed and the back-references are cleared. *)
Definition bind_no_batch (self : t) : t :=
  let self := set_submission_hash (get_hash self) self in
  let self := set_batch None self in
  set_belonging_jobs (map (Job.set_batch None) (belonging_jobs self)) self.

(** [Submission.__init__] with [batch=None]. *)
Definition init_unbound (work_base : string) (resources : Resources.t)
    (forward_common_files backward_common_files : list string) : t :=
  bind_no_batch
    (mk work_base resources forward_common_files backward_common_files
        "" [] [] None).

(** [Submission.deserialize] with [batch=None], the only way the module
    calls it. *)
Definition deserialize (submission_dict : pyval) : Res t :=
  wb <-- py_getitem submission_dict "work_base" ;;;
  work_base <-- as_str wb ;;;
  rd <-- py_getitem submission_dict "resources" ;;;
  resources <-- Resources.deserialize rd ;;;
  ff <-- py_getitem submission_dict "forward_common_files" ;;;
  forward_common_files <-- as_str_list ff ;;;
  bf <-- py_getitem submission_dict "backward_common_files" ;;;
  backward_common_files <-- as_str_list bf ;;;
  let submission :=
    init_unbound work_base resources forward_common_files
                 backward_common_files in
  bj <-- py_getitem submission_dict "belonging_jobs" ;;;
  job_dicts <-- py_iter bj ;;;
  belonging_jobs <-- rmap (Job.deserialize None) job_dicts ;;;
  let submission := set_belonging_jobs belonging_jobs submission in
  let submission :=
    set_submission_hash (get_hash submission) submission in
  Ok (bind_no_batch submission).

End WithStd.

End Submission.

(** ** The world outside the module *)

(** What the module does to the outside, in the order it does it. *)
Inductive Event : Type :=
| EvCheckStatus (b : BatchRef) (job_hash : string)
| EvSubmit (b : BatchRef) (job_hash : string)
| EvBindSubmission (b : BatchRef) (submission_hash : string)
| EvUpload (b : BatchRef) (submission_hash : string)
| EvDownload (b : BatchRef) (submission_hash : string)
| EvCheckFileExists (b : BatchRef) (name : string)
| EvReadFile (b : BatchRef) (name : string)
| EvWriteFile (b : BatchRef) (name content : string)
| EvSleep (seconds : Z)
| EvPrint (text : string).

(** The capability surface of a [Batch] and of its [context], and
    [time.sleep], over a state [W] of the outside world.  [sleep] returns the
    exception that interrupted it, if one did.  The calls of the batch and
    of the context return: a failing transport or scheduler is outside the
    embedding. *)
Class World (W : Type) : Type := {
  do_submit : BatchRef -> Job.t -> W -> string * W;
  check_status : BatchRef -> Job.t -> W -> JobStatus * W;
  bind_submission : BatchRef -> Submission.t -> W -> W;
  upload : BatchRef -> Submission.t -> W -> W;
  download : BatchRef -> Submission.t -> W -> W;
  check_file_exists : BatchRef -> string -> W -> bool * W;
  read_file : BatchRef -> string -> W -> string * W;
  write_file : BatchRef -> string -> string -> W -> W;
  sleep : Z -> W -> option exn * W
}.

(** The state around the objects: the outside world, the generator of the
    [random] module, and the trace of what was done so far. *)
Record Env (W G : Type) : Type := mkEnv {
  world : W;
  rng : G;
  trace : list Event
}.
Arguments mkEnv {W G} world rng trace.
Arguments world {W G} e.
Arguments rng {W G} e.
Arguments trace {W G} e.

(** ** The methods with side effects *)

Section Methods.
Context {G W : Type} {std : PyStd G} {wld : World W}.

(** A method runs on its object [self] and on the environment. *)
Definition Meth (O A : Type) : Type := M (O * Env W G) A.

Definition self {O : Type} : Meth O O := fun st => (Ok (fst st), st).

Definition set_self {O : Type} (o : O) : Meth O unit :=
  fun st => (Ok tt, (o, snd st)).

(** A call into the outside world, recorded in the trace. *)
Definition call {O A : Type} (ev : Event) (f : W -> A * W) : Meth O A :=
  fun st =>
    let env := snd st in
    let (a, w) := f (world env) in
    (Ok a, (fst st, mkEnv w (rng env) (trace env ++ [ev]))).

Definition call_ {O : Type} (ev : Event) (f : W -> W) : Meth O unit :=
  call ev (fun w => (tt, f w)).

(** [print(a, b, ...)]: the arguments, already as strings, separated by
    a space. *)
Definition print {O : Type} (args : list string) : Meth O unit :=
  call_ (EvPrint (String.concat " " args)) (fun w => w).

(** [exit(code)] *)
Definition py_exit {O A : Type} (code : Z) : Meth O A :=
  raise (SystemExit code).

(** An attribute of [self.batch]: there is none when no batch is bound. *)
Definition the_batch {O : Type} (b : option BatchRef) : Meth O BatchRef :=
  match b with
  | Some r => ret r
  | None => raise (AttributeError "'NoneType' object has no attribute")
  end.

Definition when {O : Type} (c : bool) (m : Meth O unit) : Meth O unit :=
  if c then m else ret tt.

(** [if l:] on a list: true when the list is not empty. *)
Definition truthy {A : Type} (l : list A) : bool :=
  match l with
  | [] => false
  | _ :: _ => true
  end.

(** [for x in l: body(x)] *)
Fixpoint for_in {O A : Type} (l : list A) (body : A -> Meth O unit)
  : Meth O unit :=
  match l with
  | [] => ret tt
  | x :: rest => body x ;; for_in rest body
  end.

(** *** Job *)

(** [Job.get_job_state] *)
Definition get_job_state : Meth Job.t unit :=
  job <- self ;;
  b <- the_batch (Job.batch job) ;;
  job_state <- call (EvCheckStatus b (Job.job_hash job)) (check_status b job) ;;
  job <- self ;;
  set_self (Job.set_job_state (PStatus job_state) job).

(** [Job.register_job_id] *)
Definition register_job_id (job_id : string) : Meth Job.t unit :=
  job <- self ;;
  set_self (Job.set_job_id job_id job).

(** [Job.submit_job] *)
Definition submit_job : Meth Job.t unit :=
  job <- self ;;
  b <- the_batch (Job.batch job) ;;
  job_id <- call (EvSubmit b (Job.job_hash job)) (do_submit b job) ;;
  register_job_id job_id.

(** [self.fail_count += 1] *)
Definition incr_fail_count : Meth Job.t unit :=
  job <- self ;;
  set_self (Job.set_fail_count (Job.fail_count job + 1) job).

(** [if self.fail_count > 5: raise RuntimeError(...)] *)
Definition check_fail_count : Meth Job.t unit :=
  job <- self ;;
  when (Job.fail_count job >? 5)%Z
    (raise (RuntimeError ("job:job " ++ Job.repr job ++ " failed 5 times"))).

(** [Job.handle_unexpected_job_state].  [job_state] is read once, at the
    top; the three tests are made on that value. *)
Definition handle_unexpected_job_state : Meth Job.t unit :=
  job <- self ;;
  let job_state := Job.job_state job in
  when (pyval_eqb job_state (PStatus unknown))
    (raise (RuntimeError
       ("job_state for job " ++ Job.repr job ++ " is unknown"))) ;;
  when (pyval_eqb job_state (PStatus terminated))
    (print [ ("job: " ++ Job.job_hash job
              ++ " terminated; restarting job")%string ] ;;
     check_fail_count ;;
     incr_fail_count ;;
     submit_job ;;
     get_job_state) ;;
  when (pyval_eqb job_state (PStatus unsubmitted))
    (check_fail_count ;;
     incr_fail_count ;;
     submit_job ;;
     job <- self ;;
     print [ ("job: " ++ Job.job_hash job ++ " submit; job_id is "
              ++ Job.job_id job)%string ] ;;
     get_job_state).

(** [Job.job_to_json] *)
Definition job_to_json : Meth Job.t unit :=
  job <- self ;;
  let write_str := json_dumps (Job.serialize false job) in
  b <- the_batch (Job.batch job) ;;
  let name := (Job.job_hash job ++ "_job.json")%string in
  call_ (EvWriteFile b name write_str) (write_file b name write_str).

(** *** Submission *)

(** [for job in self.belonging_jobs: body] on the jobs from [js] on.  Each
    job is an object of its own: what [body] did to it stays done when a
    later statement raises. *)
Fixpoint run_jobs (body : Meth Job.t unit) (js : list Job.t) (env : Env W G)
  : Res unit * (list Job.t * Env W G) :=
  match js with
  | [] => (Ok tt, ([], env))
  | job :: rest =>
      match body (job, env) with
      | (Ok _, (job', env')) =>
          let '(r, (rest', env'')) := run_jobs body rest env' in
          (r, (job' :: rest', env''))
      | (Raise e, (job', env')) => (Raise e, (job' :: rest, env'))
      end
  end.

Definition for_each_job (body : Meth Job.t unit) : Meth Submission.t unit :=
  fun st =>
    let '(r, (js, env)) :=
      run_jobs body (Submission.belonging_jobs (fst st)) (snd st) in
    (r, (Submission.set_belonging_jobs js (fst st), env)).

(** [Submission.register_task].  The message of the [RuntimeError] is
    built first, by [str.format] called with [self] as a positional
    argument on a template whose field is named [self]; that lookup fails
    with [KeyError], which is what the caller receives. *)
Definition register_task (task : Task.t) : Meth Submission.t unit :=
  s <- self ;;
  when (truthy (Submission.belonging_jobs s))
    (raise (KeyError "self")) ;;
  s <- self ;;
  set_self (Submission.set_belonging_tasks
              (Submission.belonging_tasks s ++ [ task ]) s).

(** [Submission.register_task_list] *)
Definition register_task_list (task_list : list Task.t)
  : Meth Submission.t unit :=
  s <- self ;;
  when (truthy (Submission.belonging_jobs s))
    (raise (KeyError "self")) ;;
  s <- self ;;
  set_self (Submission.set_belonging_tasks
              (Submission.belonging_tasks s ++ task_list) s).

(** [Submission.bind_batch] *)
Definition bind_batch (batch : option BatchRef) : Meth Submission.t unit :=
  s <- self ;;
  set_self (Submission.set_submission_hash (Submission.get_hash s) s) ;;
  s <- self ;;
  set_self (Submission.set_batch batch s) ;;
  for_each_job (job <- self ;; set_self (Job.set_batch batch job)) ;;
  match batch with
  | Some b =>
      s <- self ;;
      call_ (EvBindSubmission b (Submission.submission_hash s))
            (bind_submission b s)
  | None => ret tt
  end.

(** [Submission.__init__] *)
Definition Submission_init (work_base : string) (resources : Resources.t)
    (forward_common_files backward_common_files : list string)
    (batch : option BatchRef) (env : Env W G)
  : Res unit * (Submission.t * Env W G) :=
  bind_batch batch
    (Submission.mk work_base resources forward_common_files
                   backward_common_files "" [] [] None, env).

(** The body of the loop of [get_submission_state]. *)
Definition refresh_job : Meth Job.t unit :=
  get_job_state ;;
  job <- self ;;
  print [ "debug: job: "; Job.job_hash job; Job.job_id job;
          py_str (Job.job_state job) ].

(** [Submission.get_submission_state] *)
Definition get_submission_state : Meth Submission.t unit :=
  for_each_job refresh_job.

(** [Submission.handle_unexpected_submission_state] *)
Definition handle_unexpected_submission_state : Meth Submission.t unit :=
  for_each_job handle_unexpected_job_state.

(** [Submission.submit_submission] *)
Definition submit_submission : Meth Submission.t unit :=
  for_each_job submit_job ;;
  get_submission_state.

(** [Submission.submission_to_json] *)
Definition submission_to_json : Meth Submission.t unit :=
  get_submission_state ;;
  s <- self ;;
  let write_str := json_dumps (Submission.serialize false s) in
  let submission_file_name :=
    (Submission.submission_hash s ++ ".json")%string in
  b <- the_batch (Submission.batch s) ;;
  call_ (EvWriteFile b submission_file_name write_str)
        (write_file b submission_file_name write_str).

(** [job.job_state in [...]] *)
Definition state_in (states : list JobStatus) (job : Job.t) : bool :=
  existsb (fun st => pyval_eqb (Job.job_state job) (PStatus st)) states.

(** [Submission.check_all_finished] *)
Definition check_all_finished : Meth Submission.t bool :=
  get_submission_state ;;
  s <- self ;;
  when (existsb (state_in [ terminated; unknown ])
                (Submission.belonging_jobs s))
    submission_to_json ;;
  s <- self ;;
  if existsb (state_in [ running; waiting; unsubmitted; completing;
                         terminated; unknown ])
             (Submission.belonging_jobs s)
  then ret false
  else ret true.

(** [l[i:j]] *)
Definition py_slice {A : Type} (l : list A) (i j : nat) : list A :=
  firstn (j - i) (skipn i l).

(** [range(start, stop, step)] for a positive [step]; [fuel] bounds the
    number of items, and [stop] is always enough. *)
Fixpoint py_range (fuel start stop step : nat) : list nat :=
  match fuel with
  | O => []
  | S fuel' =>
      if Nat.ltb start stop
      then start :: py_range fuel' (start + step) stop step
      else []
  end.

(** [l[i]] *)
Definition py_index {O A : Type} (l : list A) (i : nat) : Meth O A :=
  match nth_error l i with
  | Some x => ret x
  | None => raise (IndexError "list index out of range")
  end.

(** [[f(x) for x in l]] *)
Fixpoint collect {O A C : Type} (l : list A) (f : A -> Meth O C)
  : Meth O (list C) :=
  match l with
  | [] => ret []
  | x :: rest =>
      y <- f x ;;
      ys <- collect rest f ;;
      ret (y :: ys)
  end.

(** [random.seed(n)] *)
Definition seed_random {O : Type} (n : Z) : Meth O unit :=
  fun st =>
    let env := snd st in
    (Ok tt, (fst st, mkEnv (world env) (random_seed n) (trace env))).

(** [random.shuffle(l)] *)
Definition shuffle {O : Type} (l : list nat) : Meth O (list nat) :=
  fun st =>
    let env := snd st in
    let (l', g) := random_shuffle l (rng env) in
    (Ok l', (fst st, mkEnv (world env) g (trace env))).

(** The body of the loop of [generate_jobs].  [copy.deepcopy] of the
    resources: a value of the embedding is never shared, so the copy is
    the value itself. *)
Definition append_job (ii : list nat) : Meth Submission.t unit :=
  s <- self ;;
  job_task_list <-
    collect ii (fun jj => py_index (Submission.belonging_tasks s) jj) ;;
  s <- self ;;
  let job := Job.init job_task_list (Submission.resources s)
                      (Submission.batch s) in
  set_self (Submission.set_belonging_jobs
              (Submission.belonging_jobs s ++ [ job ]) s).

(** [Submission.generate_jobs].  [group_size] is an [int] by its type, so
    the test [type(group_size) is not int] is false. *)
Definition generate_jobs : Meth Submission.t unit :=
  s <- self ;;
  let group_size := Resources.group_size (Submission.resources s) in
  when (group_size <? 1)%Z
    (raise (RuntimeError "group_size must be a positive number")) ;;
  let task_num := List.length (Submission.belonging_tasks s) in
  when (Nat.eqb task_num 0)
    (raise (RuntimeError "submission must have at least 1 task")) ;;
  seed_random 42 ;;
  random_task_index <- shuffle (seq 0 task_num) ;;
  let step := Z.to_nat group_size in
  let random_task_index_ll :=
    map (fun ii => py_slice random_task_index ii (ii + step))
        (py_range task_num 0 task_num step) in
  for_in random_task_index_ll append_job ;;
  s <- self ;;
  set_self (Submission.set_submission_hash (Submission.get_hash s) s).

(** [Submission.upload_jobs] *)
Definition upload_jobs : Meth Submission.t unit :=
  s <- self ;;
  b <- the_batch (Submission.batch s) ;;
  call_ (EvUpload b (Submission.submission_hash s)) (upload b s).

(** [Submission.download_jobs] *)
Definition download_jobs : Meth Submission.t unit :=
  s <- self ;;
  b <- the_batch (Submission.batch s) ;;
  call_ (EvDownload b (Submission.submission_hash s)) (download b s).

(** A method called on another object than [self]; the environment is
    shared, [self] is left as it is. *)
Definition on_object {O A : Type} (o : O) (m : Meth O A) : Meth O A :=
  fun st =>
    let '(r, (_, env)) := m (o, snd st) in
    (r, (fst st, env)).

(** [Submission.try_recover_from_json].  After
    [self.belonging_jobs = submission.belonging_jobs] the two objects hold
    the same list of the same Job objects; the last statement rebinds the
    local name [self] only, and its call of [bind_batch] runs on
    [submission], whose jobs are by then the jobs of [self]. *)
Definition try_recover_from_json : Meth Submission.t unit :=
  s <- self ;;
  let submission_file_name :=
    (Submission.submission_hash s ++ ".json")%string in
  b <- the_batch (Submission.batch s) ;;
  if_recover <- call (EvCheckFileExists b submission_file_name)
                     (check_file_exists b submission_file_name) ;;
  if if_recover : bool then
    submission_dict_str <- call (EvReadFile b submission_file_name)
                                (read_file b submission_file_name) ;;
    submission_dict <- lift_res (json_loads submission_dict_str) ;;
    submission <- lift_res (Submission.deserialize submission_dict) ;;
    s <- self ;;
    if Submission.eq s submission then
      set_self (Submission.set_belonging_jobs
                  (Submission.belonging_jobs submission) s) ;;
      s <- self ;;
      bind_batch (Submission.batch s) ;;
      s <- self ;;
      on_object
        (Submission.set_belonging_jobs (Submission.belonging_jobs s)
                                       submission)
        (bind_batch (Submission.batch s))
    else
      print [ Submission.repr s ] ;;
      print [ Submission.repr submission ] ;;
      raise (RuntimeError "Recover failed.")
  else ret tt.

(** [time.sleep(seconds)] *)
Definition time_sleep {O : Type} (seconds : Z) : Meth O (option exn) :=
  call (EvSleep seconds) (sleep seconds).

(** The body shared by the three [except] clauses of [run_submission];
    they differ by the label they print and by the exit code. *)
Definition interrupted (label : string) (code : Z)
  : Meth Submission.t unit :=
  submission_to_json ;;
  print [ ("<<<<<<dpdispatcher<<<<<<" ++ label ++ "<<<<<<exit<<<<<<")%string ] ;;
  s <- self ;;
  print [ "submission: "; Submission.submission_hash s ] ;;
  s <- self ;;
  print [ Submission.repr s ] ;;
  print [ (">>>>>>dpdispatcher>>>>>>" ++ label ++ ">>>>>>exit>>>>>>")%string ] ;;
  py_exit code.

(** The body of the [while] loop of [run_submission]: the [try] block
    holds [time.sleep(10)] alone; [handle_unexpected_submission_state]
    stands in the [else] clause, outside the reach of the [except]
    clauses. *)
Definition poll_iteration : Meth Submission.t unit :=
  interruption <- time_sleep 10 ;;
  match interruption with
  | None => handle_unexpected_submission_state
  | Some e =>
      match class_of e with
      | ClsKeyboardInterrupt => interrupted "KeyboardInterrupt" 1
      | ClsSystemExit => interrupted "SystemExit" 2
      | ClsException => interrupted (exn_str e) 3
      | ClsOther => raise e
      end
  end.

(** [while not self.check_all_finished(): ...], for at most [fuel]
    evaluations of the condition.  The result is [true] when the loop
    was left, [false] when the fuel ran out first. *)
Fixpoint polling_loop (fuel : nat) : Meth Submission.t bool :=
  match fuel with
  | O => ret false
  | S fuel' =>
      finished <- check_all_finished ;;
      if finished : bool then ret true
      else poll_iteration ;; polling_loop fuel'
  end.

(** [run_submission] up to the [while] loop.  The last statement of the
    [else] branch is the expression [self.submission_to_json], a
    reference to the bound method: it is evaluated and dropped, nothing
    is called. *)
Definition run_submission_prologue : Meth Submission.t unit :=
  try_recover_from_json ;;
  finished <- check_all_finished ;;
  if finished : bool then ret tt
  else
    upload_jobs ;;
    handle_unexpected_submission_state ;;
    ret tt.

(** [Submission.run_submission]; [None] when the fuel ran out in the
    loop. *)
Definition run_submission (fuel : nat) : Meth Submission.t (option bool) :=
  run_submission_prologue ;;
  left_loop <- polling_loop fuel ;;
  if left_loop : bool then
    handle_unexpected_submission_state ;;
    submission_to_json ;;
    download_jobs ;;
    ret (Some true)
  else ret None.

End Methods.

(** ** Vocabulary of the statements *)

Definition is_write (ev : Event) : bool :=
  match ev with
  | EvWriteFile _ _ _ => true
  | _ => false
  end.

Definition is_submit (ev : Event) : bool :=
  match ev with
  | EvSubmit _ _ => true
  | _ => false
  end.

Definition is_check (ev : Event) : bool :=
  match ev with
  | EvCheckStatus _ _ => true
  | _ => false
  end.

(** The files written, the jobs submitted and the jobs inspected in a
    trace, in order. *)
Definition writes (tr : list Event) : list Event := filter is_write tr.
Definition submits (tr : list Event) : list Event := filter is_submit tr.
Definition checks (tr : list Event) : list Event := filter is_check tr.

(** The inspections that refreshing the jobs [js] makes, one per job. *)
Definition status_checks (js : list Job.t) : list Event :=
  flat_map (fun j =>
              match Job.batch j with
              | Some b => [ EvCheckStatus b (Job.job_hash j) ]
              | None => []
              end) js.

(** A job that has a batch to talk to. *)
Definition bound (j : Job.t) : Prop := Job.batch j <> None.

(** [j'] is [j] after its state was refreshed. *)
Definition refreshed (j j' : Job.t) : Prop :=
  exists st, j' = Job.set_job_state (PStatus st) j.

(** [tl] is the list of the tasks found in [tasks] at the indices [ii]. *)
Definition tasks_at (tasks : list Task.t) (ii : list nat) (tl : list Task.t)
  : Prop :=
  Forall2 (fun jj t => nth_error tasks jj = Some t) ii tl.

(** The runtime triple of a job. *)
Definition runtime (j : Job.t) : pyval * string * Z :=
  (Job.job_state j, Job.job_id j, Job.fail_count j).

(** What [serialize(if_static=True)] reads of a job. *)
Definition same_static_job (j1 j2 : Job.t) : Prop :=
  Job.job_task_list j1 = Job.job_task_list j2 /\
  Job.resources j1 = Job.resources j2.

(** The exit code and the label of the diagnostic of each [except] clause
    of [run_submission]. *)
Definition exit_code_of (c : exn_class) : option Z :=
  match c with
  | ClsKeyboardInterrupt => Some 1%Z
  | ClsSystemExit => Some 2%Z
  | ClsException => Some 3%Z
  | ClsOther => None
  end.

Definition label_of (e : exn) : string :=
  match class_of e with
  | ClsKeyboardInterrupt => "KeyboardInterrupt"
  | ClsSystemExit => "SystemExit"
  | _ => exn_str e
  end.

Section Vocabulary.
Context {G W : Type} {std : PyStd G} {wld : World W}.

(** [handle_unexpected_job_state] called [n] times in a row, as the
    driver does on one job, until a call raises. *)
Fixpoint repeat_handle (n : nat) : Meth (G := G) (W := W) Job.t unit :=
  match n with
  | O => ret tt
  | S n' => handle_unexpected_job_state ;; repeat_handle n'
  end.

(** The job after a handling that resubmits it: [fail_count] incremented,
    then the id the batch returned, then the state the batch reported. *)
Definition resubmitted (b : BatchRef) (j : Job.t) (w : W) : Job.t * W :=
  let j1 := Job.set_fail_count (Job.fail_count j + 1) j in
  let (id, w1) := do_submit b j1 w in
  let j2 := Job.set_job_id id j1 in
  let (st, w2) := check_status b j2 w1 in
  (Job.set_job_state (PStatus st) j2, w2).

(** The attribute [submission_hash] holds the hash of the object, as
    [__init__], [bind_batch], [generate_jobs] and [deserialize] leave
    it. *)
Definition hash_current (s : Submission.t) : Prop :=
  Submission.submission_hash s = Submission.get_hash s.

(** What the batch answers when the jobs [js] are asked for their state
    one after the other, from the world [w] on: every job with the answer
    it got as its [job_state], and the world after the last answer.  The
    question goes to the batch of the job; a job without batch cannot be
    asked, and the asking stops there. *)
Fixpoint asked (js : list Job.t) (w : W) : list Job.t * W :=
  match js with
  | [] => ([], w)
  | j :: rest =>
      match Job.batch j with
      | Some b =>
          let (st, w1) := check_status b j w in
          let (rest', w2) := asked rest w1 in
          (Job.set_job_state (PStatus st) j :: rest', w2)
      | None => (j :: rest, w)
      end
  end.

End Vocabulary.

(** ** A small concrete world

    Instances of [PyStd] and [World] on which the methods compute. *)

Module Mock.
Local Open Scope string_scope.

(** A stand-in for [str]. *)
Fixpoint toy_str (v : pyval) : string :=
  match v with
  | PNone => "None"
  | PBool true => "True"
  | PBool false => "False"
  | PInt z => NilZero.string_of_int (Z.to_int z)
  | PFloat l => l
  | PStr s => "'" ++ s ++ "'"
  | PList l =>
      "[" ++
      (fix items (l : list pyval) : string :=
         match l with
         | [] => ""
         | x :: [] => toy_str x
         | x :: rest => toy_str x ++ ", " ++ items rest
         end) l ++ "]"
  | PDict d =>
      "{" ++
      (fix entries (d : list (string * pyval)) : string :=
         match d with
         | [] => ""
         | (k, x) :: [] => "'" ++ k ++ "': " ++ toy_str x
         | (k, x) :: rest => "'" ++ k ++ "': " ++ toy_str x ++ ", " ++ entries rest
         end) d ++ "}"
  | PStatus st => "JobStatus." ++ JobStatus_name st
  end.

(** A stand-in for the SHA-1 hex digest: a checksum in decimal. *)
Definition toy_sha1 (s : string) : string :=
  NilZero.string_of_uint
    (N.to_uint
       (fold_left (fun acc c => ((acc * 31 + N_of_ascii c) mod 1000003)%N)
                  (list_ascii_of_string s) 7%N)).

(** A stand-in for [json.loads]: it recognizes the documents of [table]
    as [toy_str] prints them. *)
Definition toy_loads (table : list pyval) (s : string) : Res pyval :=
  match find (fun d => String.eqb (toy_str d) s) table with
  | Some d => Ok d
  | None => Raise (OtherException "JSONDecodeError" "Expecting value")
  end.

(** The generator has one state; shuffling reverses the list. *)
Definition std (table : list pyval) : PyStd unit := {|
  sha1_hexdigest := toy_sha1;
  py_str := toy_str;
  json_dumps := toy_str;
  json_loads := toy_loads table;
  random_seed := fun _ => tt;
  random_shuffle := fun l g => (rev l, g);
  random_shuffle_perm := fun l _ => Permutation_sym (Permutation_rev l)
|}.

(** What the scheduler answers: always the same state, or [unsubmitted]
    for a job without id and [after] for a job that has one. *)
Inductive scheduler : Type :=
| Always (st : JobStatus)
| Tracking (after : JobStatus).

(** The remote files, and what the coming calls of [time.sleep] do. *)
Record world : Type := mk {
  files : list (string * string);
  sleeps : list (option exn)
}.

Fixpoint lookup_file (name : string) (fs : list (string * string))
  : option string :=
  match fs with
  | [] => None
  | (n, c) :: rest => if String.eqb n name then Some c else lookup_file name rest
  end.

Definition wld (sc : scheduler) : World world := {|
  do_submit := fun _ job w => (("id-" ++ Job.job_hash job)%string, w);
  check_status := fun _ job w =>
    (match sc with
     | Always st => st
     | Tracking after =>
         if String.eqb (Job.job_id job) "" then unsubmitted else after
     end, w);
  bind_submission := fun _ _ w => w;
  upload := fun _ _ w => w;
  download := fun _ _ w => w;
  check_file_exists := fun _ name w =>
    (match lookup_file name (files w) with Some _ => true | None => false end, w);
  read_file := fun _ name w =>
    (match lookup_file name (files w) with Some c => c | None => "" end, w);
  write_file := fun _ name content w => mk ((name, content) :: files w) (sleeps w);
  sleep := fun _ w =>
    match sleeps w with
    | [] => (None, w)
    | r :: rest => (r, mk (files w) rest)
    end
|}.

Definition env (fs : list (string * string)) (sl : list (option exn))
  : Env world unit :=
  mkEnv (mk fs sl) tt [].

Definition res : Resources.t := Resources.mk 1 4 0 "normal" 2 false 0.

Definition task (n : string) : Task.t :=
  Task.init (std := std []) ("echo " ++ n) n [] [] "log" "err" (PInt 1).

Definition tasks3 : list Task.t := [ task "a"; task "b"; task "c" ].

(** A submission bound to the batch [7], as its constructor leaves it. *)
Definition fresh : Submission.t :=
  fst (snd (Submission_init (std := std []) (wld := wld (Tracking running))
              "work" res [] [] (Some 7) (env [] []))).

(** The same with three tasks registered. *)
Definition registered : Submission.t :=
  fst (snd (register_task_list tasks3 (fresh, env [] []))).

(** The same after [generate_jobs]: two jobs. *)
Definition generated : Submission.t :=
  fst (snd (generate_jobs (std := std []) (registered, env [] []))).

(** The same after the first part of [run_submission], with a scheduler
    that reports the submitted jobs as [running]. *)
Definition submitted : Submission.t :=
  fst (snd (run_submission_prologue
              (std := std []) (wld := wld (Tracking running))
              (generated, env [] []))).




(** A job reported [terminated] that was never resubmitted, and one whose
    budget is spent. *)
Definition job_killed : Job.t :=
  Job.set_job_state (PStatus terminated)
    (Job.init (std := std []) [ task "a" ] res (Some 7)).

Definition job_spent : Job.t := Job.set_fail_count 6 job_killed.

(** [generated] with every job reported [terminated] and resubmitted six
    times: where the driver stands after six rounds with a scheduler that
    always answers [terminated]. *)
Definition spent : Submission.t :=
  Submission.set_belonging_jobs
    (map (fun j => Job.set_fail_count 6
                     (Job.set_job_id ("id-" ++ Job.job_hash j)
                        (Job.set_job_state (PStatus terminated) j)))
         (Submission.belonging_jobs generated))
    generated.

End Mock.

(** ** Vocabulary of the further properties *)

(** A [Resources] object as its constructor leaves it: [in_use] is 0, and
    with [if_cuda_multi_devices] there is a GPU and one node. *)
Definition constructed (r : Resources.t) : Prop :=
  Resources.in_use r = 0%Z /\
  (Resources.if_cuda_multi_devices r = true ->
   (1 <= Resources.gpu_per_node r)%Z /\ Resources.number_node r = 1%Z).

Section FurtherVocabulary.
Context {G W : Type} {std : PyStd G} {wld : World W}.

(** A task whose attribute [task_hash] is the hash of the task, as the
    constructor leaves it. *)
Definition task_current (t : Task.t) : Prop :=
  Task.task_hash t = Task.get_hash t.

(** A job as [Job.__init__] and the methods of the module leave it: tasks
    and resources as their constructors leave them, [job_hash] the hash of
    the job, and the script named after it. *)
Definition job_wf (j : Job.t) : Prop :=
  Forall task_current (Job.job_task_list j) /\
  constructed (Job.resources j) /\
  Job.job_hash j = Job.get_hash j /\
  Job.script_file_name j = (Job.job_hash j ++ ".sub")%string.

(** What the batch returns when the jobs [js] are submitted one after
    the other, from the world [w] on: every job with the id it was given,
    and the world after the last submission.  A job without batch cannot
    be submitted, and the submitting stops there. *)
Fixpoint handed_in (js : list Job.t) (w : W) : list Job.t * W :=
  match js with
  | [] => ([], w)
  | j :: rest =>
      match Job.batch j with
      | Some b =>
          let (job_id, w1) := do_submit b j w in
          let (rest', w2) := handed_in rest w1 in
          (Job.set_job_id job_id j :: rest', w2)
      | None => (j :: rest, w)
      end
  end.

End FurtherVocabulary.

(** *** What a method leaves as it is *)

(** Events that are no write, no submission; writes that go to the
    snapshot file of the hash [h] and nowhere else; events that only look
    or print. *)
Definition no_write (ev : Event) : Prop := is_write ev = false.

Definition no_submit (ev : Event) : Prop := is_submit ev = false.

Definition snapshot_only (h : string) (ev : Event) : Prop :=
  match ev with
  | EvWriteFile _ name _ => name = (h ++ ".json")%string
  | _ => True
  end.

Definition quiet (ev : Event) : Prop :=
  match ev with
  | EvCheckStatus _ _ => True
  | EvPrint _ => True
  | _ => False
  end.

(** What an observer does to the outside: it looks, prints, or writes
    the snapshot file of the hash [h]. *)
Definition observing (h : string) (ev : Event) : Prop :=
  match ev with
  | EvCheckStatus _ _ => True
  | EvPrint _ => True
  | EvWriteFile _ name _ => name = (h ++ ".json")%string
  | _ => False
  end.

(** What a job method does to the outside: it looks, prints or
    submits. *)
Definition job_event (ev : Event) : Prop :=
  match ev with
  | EvCheckStatus _ _ => True
  | EvPrint _ => True
  | EvSubmit _ _ => True
  | _ => False
  end.

(** [j'] is [j] up to the runtime triple. *)
Definition job_frame (j j' : Job.t) : Prop :=
  Job.job_task_list j' = Job.job_task_list j /\
  Job.resources j' = Job.resources j /\
  Job.batch j' = Job.batch j /\
  Job.job_hash j' = Job.job_hash j /\
  Job.script_file_name j' = Job.script_file_name j.

(** [j'] is [j] up to [job_state]. *)
Definition job_observed (j j' : Job.t) : Prop :=
  job_frame j j' /\
  Job.job_id j' = Job.job_id j /\
  Job.fail_count j' = Job.fail_count j.

(** [s'] is [s] up to the runtime triples of its jobs, and up to their
    states alone. *)
Definition sub_frame (s s' : Submission.t) : Prop :=
  Submission.work_base s' = Submission.work_base s /\
  Submission.resources s' = Submission.resources s /\
  Submission.forward_common_files s' = Submission.forward_common_files s /\
  Submission.backward_common_files s' = Submission.backward_common_files s /\
  Submission.submission_hash s' = Submission.submission_hash s /\
  Submission.belonging_tasks s' = Submission.belonging_tasks s /\
  Submission.batch s' = Submission.batch s /\
  Forall2 job_frame (Submission.belonging_jobs s)
                    (Submission.belonging_jobs s').

Definition sub_observed (s s' : Submission.t) : Prop :=
  sub_frame s s' /\
  Forall2 job_observed (Submission.belonging_jobs s)
                       (Submission.belonging_jobs s').

(** A state read from the batch is a [JobStatus]. *)
Definition has_status (j : Job.t) : Prop :=
  exists st, Job.job_state j = PStatus st.

(** The jobs submitted by a loop over [js], one event per bound job. *)
Definition job_submissions (js : list Job.t) : list Event :=
  flat_map (fun j =>
              match Job.batch j with
              | Some b => [ EvSubmit b (Job.job_hash j) ]
              | None => []
              end) js.

Section Frames.
Context {G W : Type} {std : PyStd G}.

(** [s'] has the identity of [s]: the same static serialization and
    tasks, and the same [submission_hash] if that of [s] was current. *)
Definition sub_identity (s s' : Submission.t) : Prop :=
  Submission.serialize true s' = Submission.serialize true s /\
  Submission.belonging_tasks s' = Submission.belonging_tasks s /\
  (hash_current s ->
   Submission.submission_hash s' = Submission.submission_hash s).

(** The attribute [submission_hash] is current and is [h]. *)
Definition hash_is (h : string) (s : Submission.t) : Prop :=
  hash_current s /\ Submission.submission_hash s = h.

(** A step from the state [st] to the state [st']: the object moves along
    [K], and the trace grows by events that satisfy [Q], provided the
    object satisfied [C] at the start. *)
Definition moves {O : Type} (K : O -> O -> Prop) (C : O -> Prop)
    (Q : Event -> Prop) (st st' : O * Env W G) : Prop :=
  K (fst st) (fst st') /\
  exists evs,
    trace (snd st') = trace (snd st) ++ evs /\
    (C (fst st) -> Forall Q evs).

End Frames.

(** ** Further concrete objects *)

Module Sample.

(** A job that the batch has lost sight of. *)
Definition job_lost : Job.t :=
  Job.set_job_state (PStatus unknown) Mock.job_killed.

(** A job that the batch reports as not yet submitted. *)
Definition job_new : Job.t :=
  Job.set_job_state (PStatus unsubmitted) Mock.job_killed.

(** A submission with a job to submit, then the lost job, then a
    killed one. *)
Definition mixed : Submission.t :=
  Submission.set_belonging_jobs [ job_new; job_lost; Mock.job_killed ]
                                Mock.generated.

End Sample.

(** * Properties *)

(** ** Equality of values *)

Lemma JobStatus_eqb_eq (a b : JobStatus) : JobStatus_eqb a b = true <-> a = b.
Proof.
  split.
  - destruct a, b; simpl; intro H; try reflexivity; discriminate H.
  - intros ->. destruct b; reflexivity.
Qed.

(** Induction on values, with the hypothesis for every item of a list and
    for every value of a dict. *)
Section PyvalInduction.
Variable P : pyval -> Prop.
Hypothesis HNone : P PNone.
Hypothesis HBool : forall b, P (PBool b).
Hypothesis HInt : forall z, P (PInt z).
Hypothesis HFloat : forall l, P (PFloat l).
Hypothesis HStr : forall s, P (PStr s).
Hypothesis HList : forall l, Forall P l -> P (PList l).
Hypothesis HDict : forall d, Forall (fun kv => P (snd kv)) d -> P (PDict d).
Hypothesis HStatus : forall st, P (PStatus st).

Lemma pyval_nested_ind : forall v : pyval, P v.
Proof.
  exact
    (fix ind (v : pyval) : P v :=
       match v with
       | PNone => HNone
       | PBool b => HBool b
       | PInt z => HInt z
       | PFloat l => HFloat l
       | PStr s => HStr s
       | PList l =>
           HList l
             ((fix items (l : list pyval) : Forall P l :=
                 match l with
                 | [] => Forall_nil P
                 | x :: rest => Forall_cons x (ind x) (items rest)
                 end) l)
       | PDict d =>
           HDict d
             ((fix entries (d : list (string * pyval))
                 : Forall (fun kv => P (snd kv)) d :=
                 match d with
                 | [] => Forall_nil _
                 | kv :: rest => Forall_cons kv (ind (snd kv)) (entries rest)
                 end) d)
       | PStatus st => HStatus st
       end).
Qed.
End PyvalInduction.

Lemma pyval_eqb_eq (a b : pyval) : pyval_eqb a b = true <-> a = b.
Proof.
  revert b. induction a using pyval_nested_ind; intro c.
  - destruct c; simpl; split; intro E; try reflexivity; discriminate E.
  - destruct c; simpl; split; intro E; try discriminate E.
    + apply Bool.eqb_prop in E. now subst.
    + inversion E. apply Bool.eqb_reflx.
  - destruct c; simpl; split; intro E; try discriminate E.
    + apply Z.eqb_eq in E. now subst.
    + inversion E. apply Z.eqb_refl.
  - destruct c; simpl; split; intro E; try discriminate E.
    + apply String.eqb_eq in E. now subst.
    + inversion E. apply String.eqb_refl.
  - destruct c; simpl; split; intro E; try discriminate E.
    + apply String.eqb_eq in E. now subst.
    + inversion E. apply String.eqb_refl.
  - destruct c as [ | | | | | m | | ]; simpl;
      try (split; intro E; discriminate E).
    revert m. induction H as [ | x l Hx Hl IH ]; intros [ | y m ];
      try (split; intro E; [ discriminate E | inversion E ]).
    + split; reflexivity.
    + split; intro E.
      * apply andb_true_iff in E as [E1 E2].
        apply Hx in E1. apply IH in E2. inversion E2. now subst.
      * inversion E; subst. apply andb_true_iff. split.
        -- now apply Hx.
        -- now apply IH.
  - destruct c as [ | | | | | | m | ]; simpl;
      try (split; intro E; discriminate E).
    revert m. induction H as [ | [k x] l Hx Hl IH ]; intros [ | [k' y] m ];
      try (split; intro E; [ discriminate E | inversion E ]).
    + split; reflexivity.
    + simpl in Hx. split; intro E.
      * apply andb_true_iff in E as [E12 E3].
        apply andb_true_iff in E12 as [E1 E2].
        apply String.eqb_eq in E1. apply Hx in E2. apply IH in E3.
        inversion E3. now subst.
      * inversion E; subst. rewrite String.eqb_refl. simpl.
        apply andb_true_iff. split.
        -- now apply Hx.
        -- now apply IH.
  - destruct c; simpl; split; intro E; try discriminate E.
    + apply JobStatus_eqb_eq in E. now subst.
    + inversion E. now apply JobStatus_eqb_eq.
Qed.

Lemma pyval_eqb_refl (a : pyval) : pyval_eqb a a = true.
Proof. now apply pyval_eqb_eq. Qed.

Lemma pyval_eqb_neq (a b : pyval) : pyval_eqb a b = false <-> a <> b.
Proof.
  split.
  - intros E H. apply pyval_eqb_eq in H. congruence.
  - intro H. destruct (pyval_eqb a b) eqn:E; [ | reflexivity ].
    apply pyval_eqb_eq in E. contradiction.
Qed.

(** ** Static serialization and identity *)

Section Identity.
Context {G W : Type} {std : PyStd G} {wld : World W}.

(** The static serialization of a job reads its task list and its
    resources, nothing else. *)
Lemma Job_serialize_static (j : Job.t) :
  Job.serialize true j =
  PDict [ (sha1_hexdigest (py_str (PDict (Job.content j))),
           PDict (Job.content j)) ].
Proof. reflexivity. Qed.

Lemma same_static_job_serialize (j1 j2 : Job.t) :
  same_static_job j1 j2 -> Job.serialize true j1 = Job.serialize true j2.
Proof.
  intros [Ht Hr]. rewrite !Job_serialize_static. unfold Job.content.
  now rewrite Ht, Hr.
Qed.

Lemma same_static_jobs_serialize (js1 js2 : list Job.t) :
  Forall2 same_static_job js1 js2 ->
  map (Job.serialize true) js1 = map (Job.serialize true) js2.
Proof.
  induction 1 as [ | j1 j2 l1 l2 Hj _ IH ]; simpl.
  - reflexivity.
  - now rewrite (same_static_job_serialize j1 j2 Hj), IH.
Qed.

Lemma Job_set_batch_static (b : option BatchRef) (j : Job.t) :
  Job.serialize true (Job.set_batch b j) = Job.serialize true j.
Proof. reflexivity. Qed.

Lemma Job_set_batch_serialize (st : bool) (b : option BatchRef) (j : Job.t) :
  Job.serialize st (Job.set_batch b j) = Job.serialize st j.
Proof. reflexivity. Qed.

Lemma Job_get_hash_content (j : Job.t) :
  Job.get_hash j = sha1_hexdigest (py_str (PDict (Job.content j))).
Proof. reflexivity. Qed.

(** The serialization of a submission does not read [belonging_tasks],
    [submission_hash] or [batch]. *)
Lemma Submission_serialize_fields (st : bool) (s1 s2 : Submission.t) :
  Submission.work_base s1 = Submission.work_base s2 ->
  Submission.resources s1 = Submission.resources s2 ->
  Submission.forward_common_files s1 = Submission.forward_common_files s2 ->
  Submission.backward_common_files s1 = Submission.backward_common_files s2 ->
  map (Job.serialize st) (Submission.belonging_jobs s1) =
  map (Job.serialize st) (Submission.belonging_jobs s2) ->
  Submission.serialize st s1 = Submission.serialize st s2.
Proof.
  intros Hw Hr Hf Hb Hj. unfold Submission.serialize.
  now rewrite Hw, Hr, Hf, Hb, Hj.
Qed.

Lemma Submission_eq_serialize (s1 s2 : Submission.t) :
  Submission.eq s1 s2 = true <->
  Submission.serialize true s1 = Submission.serialize true s2.
Proof. unfold Submission.eq. apply pyval_eqb_eq. Qed.

Lemma Submission_eq_jobs (s1 s2 : Submission.t) :
  Submission.eq s1 s2 = true ->
  map (Job.serialize true) (Submission.belonging_jobs s1) =
  map (Job.serialize true) (Submission.belonging_jobs s2).
Proof.
  intro E. apply Submission_eq_serialize in E.
  unfold Submission.serialize in E. now inversion E.
Qed.

(** C8.  Runtime isolation of equality: two submissions with the same
    work base, resources, common files and, job by job, the same task list
    and resources are equal under [__eq__], and so are their jobs,
    whatever [job_state], [job_id] and [fail_count] (and the batch
    back-references) the jobs carry on either side. *)
Theorem runtime_isolation (s1 s2 : Submission.t) :
  Submission.work_base s1 = Submission.work_base s2 ->
  Submission.resources s1 = Submission.resources s2 ->
  Submission.forward_common_files s1 = Submission.forward_common_files s2 ->
  Submission.backward_common_files s1 = Submission.backward_common_files s2 ->
  Forall2 same_static_job
          (Submission.belonging_jobs s1) (Submission.belonging_jobs s2) ->
  Submission.eq s1 s2 = true /\
  Forall2 (fun j1 j2 => Job.eq j1 j2 = true)
          (Submission.belonging_jobs s1) (Submission.belonging_jobs s2).
Proof.
  intros Hw Hr Hf Hb Hj. split.
  - apply Submission_eq_serialize.
    apply Submission_serialize_fields; try assumption.
    now apply same_static_jobs_serialize.
  - induction Hj as [ | j1 j2 l1 l2 Hj12 _ IH ]; constructor.
    + unfold Job.eq. apply pyval_eqb_eq.
      now apply same_static_job_serialize.
    + exact IH.
Qed.

(** C10.  [belonging_tasks] is no part of the identity of a submission:
    two submissions that agree on work base, resources, common files and
    jobs are equal and have the same hash, whatever tasks are registered on
    either; and [register_task] and [register_task_list] change neither the
    hash of the object nor its attribute [submission_hash]. *)
Theorem tasks_outside_identity (s1 s2 : Submission.t) :
  Submission.work_base s1 = Submission.work_base s2 ->
  Submission.resources s1 = Submission.resources s2 ->
  Submission.forward_common_files s1 = Submission.forward_common_files s2 ->
  Submission.backward_common_files s1 = Submission.backward_common_files s2 ->
  Submission.belonging_jobs s1 = Submission.belonging_jobs s2 ->
  Submission.eq s1 s2 = true /\
  Submission.get_hash s1 = Submission.get_hash s2 /\
  (hash_current s1 -> hash_current s2 ->
   Submission.submission_hash s1 = Submission.submission_hash s2) /\
  (forall (task : Task.t) (env : Env W G),
     let s1' := fst (snd (register_task task (s1, env))) in
     Submission.submission_hash s1' = Submission.submission_hash s1 /\
     Submission.get_hash s1' = Submission.get_hash s1) /\
  (forall (task_list : list Task.t) (env : Env W G),
     let s1' := fst (snd (register_task_list task_list (s1, env))) in
     Submission.submission_hash s1' = Submission.submission_hash s1 /\
     Submission.get_hash s1' = Submission.get_hash s1).
Proof.
  intros Hw Hr Hf Hb Hj.
  assert (Hs : Submission.serialize true s1 = Submission.serialize true s2).
  { apply Submission_serialize_fields; try assumption. now rewrite Hj. }
  split; [ now apply Submission_eq_serialize | ].
  split; [ unfold Submission.get_hash; now rewrite Hs | ].
  split.
  { unfold hash_current. intros H1 H2. rewrite H1, H2.
    unfold Submission.get_hash. now rewrite Hs. }
  split.
  - intros task env. unfold register_task, bind, self, when, raise, set_self.
    simpl. destruct (Submission.belonging_jobs s1); simpl; split; reflexivity.
  - intros task_list env.
    unfold register_task_list, bind, self, when, raise, set_self.
    simpl. destruct (Submission.belonging_jobs s1); simpl; split; reflexivity.
Qed.

(** C9.  Registration lock: once a job exists, [register_task] and
    [register_task_list] raise and leave the submission (its
    [belonging_tasks] in particular) and the environment as they were;
    while no job exists they append the task, or the tasks in their order,
    at the end of [belonging_tasks].  What is raised is not the
    [RuntimeError] that the [raise] statement names: its message is built
    first, by [format] called with [self] as a positional argument on a
    template whose field is named [self], and that call fails with
    [KeyError('self')], which is the exception the caller receives. *)
Theorem registration_lock (s : Submission.t) (env : Env W G)
    (task : Task.t) (task_list : list Task.t) :
  (Submission.belonging_jobs s <> [] ->
   register_task task (s, env) = (Raise (KeyError "self"), (s, env)) /\
   register_task_list task_list (s, env) =
     (Raise (KeyError "self"), (s, env)) /\
   forall msg, KeyError "self" <> RuntimeError msg) /\
  (Submission.belonging_jobs s = [] ->
   register_task task (s, env) =
     (Ok tt, (Submission.set_belonging_tasks
                (Submission.belonging_tasks s ++ [ task ]) s, env)) /\
   register_task_list task_list (s, env) =
     (Ok tt, (Submission.set_belonging_tasks
                (Submission.belonging_tasks s ++ task_list) s, env))).
Proof.
  unfold register_task, register_task_list, bind, self, when, raise, set_self.
  simpl. split.
  - intro Hne. destruct (Submission.belonging_jobs s) as [ | j js ];
      [ contradiction | ].
    simpl. repeat split. intros msg H. discriminate H.
  - intros ->. simpl. split; reflexivity.
Qed.

End Identity.

(** ** Traces *)

Lemma writes_app (a b : list Event) : writes (a ++ b) = writes a ++ writes b.
Proof. apply filter_app. Qed.

Lemma submits_app (a b : list Event) : submits (a ++ b) = submits a ++ submits b.
Proof. apply filter_app. Qed.

Lemma checks_app (a b : list Event) : checks (a ++ b) = checks a ++ checks b.
Proof. apply filter_app. Qed.

(** ** Refreshing the jobs *)

Section Refresh.
Context {G W : Type} {std : PyStd G} {wld : World W}.

Lemma refreshed_bound (j j' : Job.t) : refreshed j j' -> bound j -> bound j'.
Proof. intros [st ->] Hb. exact Hb. Qed.

Lemma refreshed_all_bound (js js' : list Job.t) :
  Forall2 refreshed js js' -> Forall bound js -> Forall bound js'.
Proof.
  induction 1 as [ | j j' l l' Hj _ IH ]; intro Hb.
  - constructor.
  - inversion Hb; subst. constructor.
    + now apply (refreshed_bound j).
    + now apply IH.
Qed.

Lemma refreshed_state (j j' : Job.t) :
  refreshed j j' -> exists st, Job.job_state j' = PStatus st.
Proof. intros [st ->]. now exists st. Qed.

Lemma refreshed_static (j j' : Job.t) : refreshed j j' -> same_static_job j j'.
Proof. intros [st ->]. split; reflexivity. Qed.

(** [get_job_state] on a bound job: one inspection, and the state is what
    the batch answered. *)
Lemma get_job_state_run (j : Job.t) (env : Env W G) (b : BatchRef) :
  Job.batch j = Some b ->
  get_job_state (j, env) =
  (Ok tt,
   (Job.set_job_state (PStatus (fst (check_status b j (world env)))) j,
    mkEnv (snd (check_status b j (world env))) (rng env)
          (trace env ++ [ EvCheckStatus b (Job.job_hash j) ]))).
Proof.
  intro Hb. unfold get_job_state, bind, self, the_batch, call, set_self.
  simpl. rewrite Hb. simpl.
  destruct (check_status b j (world env)) as [st w]. reflexivity.
Qed.

Lemma refresh_job_run (j : Job.t) (env : Env W G) (b : BatchRef) :
  Job.batch j = Some b ->
  exists j' text,
    refreshed j j' /\
    refresh_job (j, env) =
    (Ok tt,
     (j', mkEnv (snd (check_status b j (world env))) (rng env)
                (trace env ++ [ EvCheckStatus b (Job.job_hash j);
                                EvPrint text ]))).
Proof.
  intro Hb. unfold refresh_job, bind.
  rewrite (get_job_state_run j env b Hb).
  unfold self, print, call_, call. simpl.
  eexists. eexists. split.
  - eexists. reflexivity.
  - rewrite <- app_assoc. reflexivity.
Qed.

(** Refreshing all the jobs: every job is inspected once, in order;
    nothing is written or submitted. *)
Lemma run_jobs_refresh (js : list Job.t) :
  forall env : Env W G,
    Forall bound js ->
    exists js' env' evs,
      run_jobs refresh_job js env = (Ok tt, (js', env')) /\
      Forall2 refreshed js js' /\
      trace env' = trace env ++ evs /\
      rng env' = rng env /\
      checks evs = status_checks js /\
      writes evs = [] /\
      submits evs = [].
Proof.
  induction js as [ | j js IH ]; intros env Hb.
  - exists [], env, []. simpl. rewrite app_nil_r. repeat split; constructor.
  - inversion Hb as [ | ? ? Hj Hjs ]; subst.
    unfold bound in Hj. destruct (Job.batch j) as [ b | ] eqn:Eb;
      [ | contradiction ].
    destruct (refresh_job_run j env b Eb) as (j' & text & Hr & Hrun).
    simpl. rewrite Hrun.
    destruct (IH (mkEnv (snd (check_status b j (world env))) (rng env)
                        (trace env ++ [ EvCheckStatus b (Job.job_hash j);
                                        EvPrint text ])) Hjs)
      as (js' & env' & evs & Hrest & Hf & Ht & Hg & Hc & Hw & Hs).
    rewrite Hrest.
    exists (j' :: js'), env',
      ([ EvCheckStatus b (Job.job_hash j); EvPrint text ] ++ evs).
    repeat split.
    + now constructor.
    + rewrite Ht. simpl. now rewrite <- app_assoc.
    + exact Hg.
    + rewrite checks_app, Hc. simpl. now rewrite Eb.
    + now rewrite writes_app, Hw.
    + now rewrite submits_app, Hs.
Qed.

Lemma get_submission_state_run (s : Submission.t) (env : Env W G) :
  Forall bound (Submission.belonging_jobs s) ->
  exists js' env' evs,
    get_submission_state (s, env) =
      (Ok tt, (Submission.set_belonging_jobs js' s, env')) /\
    Forall2 refreshed (Submission.belonging_jobs s) js' /\
    trace env' = trace env ++ evs /\
    rng env' = rng env /\
    checks evs = status_checks (Submission.belonging_jobs s) /\
    writes evs = [] /\
    submits evs = [].
Proof.
  intro Hb.
  destruct (run_jobs_refresh (Submission.belonging_jobs s) env Hb)
    as (js' & env' & evs & Hrun & Hrest).
  exists js', env', evs. split; [ | exact Hrest ].
  unfold get_submission_state, for_each_job. simpl. now rewrite Hrun.
Qed.

(** [submission_to_json]: the jobs are refreshed, then one file is
    written, named after [submission_hash], holding the runtime
    serialization of the submission as it is then. *)
Lemma submission_to_json_run (s : Submission.t) (env : Env W G)
    (b : BatchRef) :
  Submission.batch s = Some b ->
  Forall bound (Submission.belonging_jobs s) ->
  exists js' env' evs,
    let s' := Submission.set_belonging_jobs js' s in
    submission_to_json (s, env) = (Ok tt, (s', env')) /\
    Forall2 refreshed (Submission.belonging_jobs s) js' /\
    trace env' =
      trace env ++ evs ++
      [ EvWriteFile b (Submission.submission_hash s ++ ".json")%string
                    (json_dumps (Submission.serialize false s')) ] /\
    rng env' = rng env /\
    checks evs = status_checks (Submission.belonging_jobs s) /\
    writes evs = [] /\
    submits evs = [].
Proof.
  intros Hbatch Hb.
  destruct (get_submission_state_run s env Hb)
    as (js' & env1 & evs & Hrun & Hf & Ht & Hg & Hc & Hw & Hs).
  exists js'.
  eexists. exists evs. cbv zeta.
  unfold submission_to_json, bind. rewrite Hrun.
  unfold self, the_batch, call_, call, ret. simpl. rewrite Hbatch. simpl.
  split; [ reflexivity | ]. simpl.
  repeat split; try assumption.
  now rewrite Ht, <- app_assoc.
Qed.

End Refresh.

(** ** The states stored are the answers of the batch *)

Section Answers.
Context {G W : Type} {std : PyStd G} {wld : World W}.

(** A job that was refreshed has a batch. *)
Lemma refresh_job_bound (j : Job.t) (env : Env W G) :
  fst (refresh_job (j, env)) = Ok tt -> bound j.
Proof.
  unfold refresh_job, get_job_state, bind, self, the_batch, raise, bound.
  cbn [fst snd]. destruct (Job.batch j); [ discriminate | ].
  cbn [fst]. discriminate.
Qed.

Lemma run_jobs_refresh_bound (js : list Job.t) :
  forall env : Env W G,
    fst (run_jobs refresh_job js env) = Ok tt -> Forall bound js.
Proof.
  induction js as [ | j js IH ]; intros env H; [ constructor | ].
  cbn [run_jobs] in H. pose proof (refresh_job_bound j env) as Hj.
  destruct (refresh_job (j, env)) as [[ [] | e ] [j' env1]];
    cbn [fst snd] in *; [ | discriminate H ].
  constructor; [ now apply Hj | ]. apply (IH env1).
  destruct (run_jobs refresh_job js env1) as [r [js' env2]]. exact H.
Qed.

(** The refreshed jobs carry the answers of [check_status], each asked
    in the world that the answer before it left. *)
Lemma run_jobs_refresh_asked (js : list Job.t) :
  forall env : Env W G,
    Forall bound js ->
    fst (snd (run_jobs refresh_job js env)) = fst (asked js (world env)) /\
    world (snd (snd (run_jobs refresh_job js env))) =
      snd (asked js (world env)).
Proof.
  induction js as [ | j js IH ]; intros env Hb; [ split; reflexivity | ].
  inversion Hb as [ | ? ? Hj Hjs ]; subst.
  unfold bound in Hj. destruct (Job.batch j) as [ b | ] eqn:Eb;
    [ | contradiction ].
  assert (Hrun : exists text,
             refresh_job (j, env) =
             (Ok tt,
              (Job.set_job_state
                 (PStatus (fst (check_status b j (world env)))) j,
               mkEnv (snd (check_status b j (world env))) (rng env)
                     (trace env ++ [ EvCheckStatus b (Job.job_hash j);
                                     EvPrint text ])))).
  { unfold refresh_job, bind. rewrite (get_job_state_run j env b Eb).
    unfold self, print, call_, call. simpl.
    eexists. rewrite <- app_assoc. reflexivity. }
  destruct Hrun as [text Hrun].
  cbn [run_jobs asked]. rewrite Hrun, Eb.
  specialize (IH (mkEnv (snd (check_status b j (world env))) (rng env)
                        (trace env ++ [ EvCheckStatus b (Job.job_hash j);
                                        EvPrint text ])) Hjs).
  cbn [world] in IH.
  destruct (check_status b j (world env)) as [x w1]. cbn [fst snd] in *.
  destruct (run_jobs refresh_job js _) as [r [js' env2]].
  destruct (asked js w1) as [rest' w2]. cbn [fst snd] in *.
  destruct IH as [IH1 IH2]. subst. split; reflexivity.
Qed.

(** [get_submission_state] that returned: the jobs were bound, are left
    with the answers of the batch, and were asked once each, in order;
    nothing else moved. *)
Lemma get_submission_state_asked (s s1 : Submission.t) (env env1 : Env W G) :
  get_submission_state (s, env) = (Ok tt, (s1, env1)) ->
  Forall bound (Submission.belonging_jobs s) /\
  s1 = Submission.set_belonging_jobs
         (fst (asked (Submission.belonging_jobs s) (world env))) s /\
  world env1 = snd (asked (Submission.belonging_jobs s) (world env)) /\
  exists evs,
    trace env1 = trace env ++ evs /\
    checks evs = status_checks (Submission.belonging_jobs s) /\
    writes evs = [] /\
    submits evs = [].
Proof.
  intro H.
  assert (Hb : Forall bound (Submission.belonging_jobs s)).
  { apply (run_jobs_refresh_bound _ env).
    unfold get_submission_state, for_each_job in H. cbn [fst snd] in H.
    destruct (run_jobs refresh_job (Submission.belonging_jobs s) env)
      as [r [js' env']]. now inversion H. }
  split; [ exact Hb | ].
  destruct (run_jobs_refresh_asked (Submission.belonging_jobs s) env Hb)
    as [Ha Hw].
  destruct (run_jobs_refresh (Submission.belonging_jobs s) env Hb)
    as (js' & env' & evs & Hrun & _ & Ht & _ & Hc & Hwr & Hs).
  unfold get_submission_state, for_each_job in H. cbn [fst snd] in H.
  rewrite Hrun in *. cbn [fst snd] in *.
  inversion H; subst; clear H.
  split; [ reflexivity | ]. split; [ exact Hw | ].
  exists evs. repeat split; assumption.
Qed.

End Answers.

(** ** check_all_finished *)

Section AllFinished.
Context {G W : Type} {std : PyStd G} {wld : World W}.

Lemma state_in_In (states : list JobStatus) (j : Job.t) (st : JobStatus) :
  Job.job_state j = PStatus st ->
  (state_in states j = true <-> In st states).
Proof.
  intro Hst. unfold state_in. rewrite Hst, existsb_exists. split.
  - intros (x & Hin & E). simpl in E. apply JobStatus_eqb_eq in E. now subst.
  - intro Hin. exists st. split; [ exact Hin | ]. simpl.
    now apply JobStatus_eqb_eq.
Qed.

(** Of the seven states, the six that keep a submission alive leave out
    [finished] alone. *)
Lemma alive_or_finished (st : JobStatus) :
  In st [ running; waiting; unsubmitted; completing; terminated; unknown ] <->
  st <> finished.
Proof.
  split.
  - intros Hin ->. simpl in Hin.
    repeat (destruct Hin as [Hin | Hin]; [ discriminate Hin | ]).
    exact Hin.
  - intro Hne. destruct st; simpl; auto 10; now contradiction Hne.
Qed.

Lemma none_alive_all_finished (js : list Job.t) :
  Forall (fun j => exists st, Job.job_state j = PStatus st) js ->
  (existsb (state_in [ running; waiting; unsubmitted; completing;
                       terminated; unknown ]) js = false <->
   Forall (fun j => Job.job_state j = PStatus finished) js).
Proof.
  induction 1 as [ | j js [st Hst] _ IH ]; cbn [existsb].
  - split; [ constructor | reflexivity ].
  - rewrite orb_false_iff, IH. split.
    + intros [Hj Hjs]. constructor; [ | exact Hjs ].
      destruct (JobStatus_eqb st finished) eqn:E.
      * apply JobStatus_eqb_eq in E. now rewrite Hst, E.
      * exfalso.
        assert (Hin : state_in [ running; waiting; unsubmitted; completing;
                                 terminated; unknown ] j = true).
        { apply (state_in_In _ j st Hst). apply alive_or_finished.
          intros ->. simpl in E. discriminate E. }
        rewrite Hin in Hj. discriminate Hj.
    + intro Hall. inversion Hall as [ | ? ? Hj Hjs ]; subst.
      split; [ | exact Hjs ].
      destruct (state_in _ j) eqn:E; [ | reflexivity ].
      exfalso. rewrite Hst in Hj. inversion Hj; subst.
      apply (state_in_In _ j finished Hst) in E.
      now apply alive_or_finished in E.
Qed.

Lemma some_alive (js : list Job.t) :
  existsb (state_in [ running; waiting; unsubmitted; completing;
                      terminated; unknown ]) js = true <->
  Exists (fun j => exists st,
            In st [ running; waiting; unsubmitted; completing;
                    terminated; unknown ] /\
            Job.job_state j = PStatus st) js.
Proof.
  rewrite existsb_exists, Exists_exists. split.
  - intros (j & Hin & E). exists j. split; [ exact Hin | ].
    unfold state_in in E. apply existsb_exists in E as (st & Hst & E).
    apply pyval_eqb_eq in E. now exists st.
  - intros (j & Hin & st & Hst & E). exists j. split; [ exact Hin | ].
    now apply (state_in_In _ j st E).
Qed.

(** What [check_all_finished] answers on the jobs [js]: true when every
    job is [finished], false when some job is in one of the six other
    states. *)
Lemma all_finished_answer (js : list Job.t) :
  Forall (fun j => exists st, Job.job_state j = PStatus st) js ->
  let fin := negb (existsb (state_in [ running; waiting; unsubmitted;
                                      completing; terminated; unknown ])
                           js) in
  (fin = true <->
   Forall (fun j => Job.job_state j = PStatus finished) js) /\
  (fin = false <->
   Exists (fun j => exists st,
             In st [ running; waiting; unsubmitted; completing;
                     terminated; unknown ] /\
             Job.job_state j = PStatus st) js).
Proof.
  intros Hst. cbv zeta.
  rewrite <- (none_alive_all_finished _ Hst), <- some_alive.
  destruct (existsb _ js); simpl; split; split; congruence.
Qed.

Lemma asked_status (js : list Job.t) (w : W) :
  Forall bound js ->
  Forall (fun j => exists st, Job.job_state j = PStatus st)
         (fst (asked js w)) /\
  Forall bound (fst (asked js w)) /\
  status_checks (fst (asked js w)) = status_checks js.
Proof.
  revert w. induction js as [ | j js IH ]; intros w Hb;
    [ repeat split; constructor | ].
  inversion Hb as [ | ? ? Hj Hjs ]; subst. cbn [asked].
  pose proof Hj as Hj'. unfold bound in Hj'.
  destruct (Job.batch j) as [ b | ] eqn:Eb; [ | contradiction ].
  destruct (check_status b j w) as [x w1].
  destruct (IH w1 Hjs) as (H1 & H2 & H3).
  destruct (asked js w1) as [rest' w2]. cbn [fst snd] in *.
  split; [ constructor; [ now exists x | exact H1 ] | ].
  split; [ constructor; [ exact Hj | exact H2 ] | ].
  unfold status_checks in *. cbn [flat_map Job.batch Job.set_job_state].
  cbn [Job.job_hash]. rewrite Eb, H3. destruct j; reflexivity.
Qed.

(** C5.  A call of [check_all_finished] that returns.  It starts by
    refreshing every job: each job is asked for its state once, in the
    order of [belonging_jobs], and the state stored is the answer of the
    batch.  It then writes the snapshot exactly when a job is
    [terminated] or [unknown] in that refreshed view ([submission_to_json]
    asks every job once more before it writes, and the states are then the
    answers of that second round), and writes nothing otherwise.  The
    result is [true] if and only if every job is then [finished], [false]
    if and only if some job is in one of the six other states.  Nothing
    but the states of the jobs is changed. *)
Theorem check_all_finished_spec (s s' : Submission.t) (env env' : Env W G)
    (fin : bool) :
  check_all_finished (s, env) = (Ok fin, (s', env')) ->
  let js := Submission.belonging_jobs s in
  let js1 := fst (asked js (world env)) in
  let w1 := snd (asked js (world env)) in
  let stale := existsb (state_in [ terminated; unknown ]) js1 in
  Forall bound js /\
  s' = Submission.set_belonging_jobs (Submission.belonging_jobs s') s /\
  (exists evs1 evs,
     trace env' = trace env ++ evs1 ++ evs /\
     checks evs1 = status_checks js /\
     writes evs1 = [] /\
     if stale then
       exists b,
         Submission.batch s = Some b /\
         Submission.belonging_jobs s' = fst (asked js1 w1) /\
         checks evs = status_checks js /\
         writes evs =
           [ EvWriteFile b (Submission.submission_hash s ++ ".json")%string
                         (json_dumps (Submission.serialize false s')) ]
     else
       Submission.belonging_jobs s' = js1 /\ evs = []) /\
  (fin = true <->
   Forall (fun j => Job.job_state j = PStatus finished)
          (Submission.belonging_jobs s')) /\
  (fin = false <->
   Exists (fun j => exists st,
             In st [ running; waiting; unsubmitted; completing;
                     terminated; unknown ] /\
             Job.job_state j = PStatus st)
          (Submission.belonging_jobs s')).
Proof.
  intro H. cbv zeta. unfold check_all_finished in H.
  unfold bind at 1 in H.
  destruct (get_submission_state (s, env)) as [[ [] | e ] [s1 env1]] eqn:E1;
    [ | discriminate H ].
  destruct (get_submission_state_asked s s1 env env1 E1)
    as (Hb & Hs1 & Hw1 & evs1 & Ht1 & Hc1 & Hwr1 & _).
  destruct (asked_status (Submission.belonging_jobs s) (world env) Hb)
    as (Hst1 & Hb1 & Hsc1).
  unfold bind at 1 in H. unfold self at 1 in H. cbn [fst snd] in H.
  unfold bind at 1 in H. unfold when in H.
  assert (Ejs1 : Submission.belonging_jobs s1 =
                 fst (asked (Submission.belonging_jobs s) (world env)))
    by (now rewrite Hs1).
  rewrite Ejs1 in H.
  split; [ exact Hb | ].
  destruct (existsb (state_in [ terminated; unknown ])
                    (fst (asked (Submission.belonging_jobs s) (world env))))
    eqn:Estale.
  - unfold submission_to_json in H. unfold bind at 1 in H.
    destruct (get_submission_state (s1, env1))
      as [[ [] | e ] [s2 env2]] eqn:E2; [ | discriminate H ].
    destruct (get_submission_state_asked s1 s2 env1 env2 E2)
      as (_ & Hs2 & _ & evs2 & Ht2 & Hc2 & Hwr2 & _).
    rewrite Ejs1, Hw1 in Hs2. rewrite Ejs1, Hsc1 in Hc2.
    unfold bind at 1 in H. unfold self at 1 in H. cbn [fst snd] in H.
    assert (Ebatch : Submission.batch s2 = Submission.batch s)
      by (now rewrite Hs2, Hs1).
    assert (Ehash : Submission.submission_hash s2 =
                    Submission.submission_hash s)
      by (now rewrite Hs2, Hs1).
    rewrite Ebatch, Ehash in H.
    destruct (Submission.batch s) as [ b | ] eqn:Eb.
    + unfold the_batch, bind, ret, call_, call, self in H.
      cbn [fst snd] in H.
      assert (Hst2 : Forall (fun j => exists st, Job.job_state j = PStatus st)
                            (Submission.belonging_jobs s2)).
      { rewrite Hs2. cbn [Submission.belonging_jobs
                          Submission.set_belonging_jobs].
        now apply asked_status. }
      destruct (all_finished_answer _ Hst2) as [Htrue Hfalse].
      assert (Hres : fin = negb (existsb
                        (state_in [ running; waiting; unsubmitted;
                                    completing; terminated; unknown ])
                        (Submission.belonging_jobs s2)) /\
                     s' = s2 /\
                     trace env' =
                       trace env2 ++
                       [ EvWriteFile b
                           (Submission.submission_hash s ++ ".json")%string
                           (json_dumps (Submission.serialize false s2)) ]).
      { destruct (existsb (state_in [ running; waiting; unsubmitted;
                                      completing; terminated; unknown ])
                          (Submission.belonging_jobs s2));
          inversion H; subst; repeat split; reflexivity. }
      destruct Hres as (Hfin & Hs' & Ht'). subst s' fin.
      split.
      { rewrite Hs2, Hs1. destruct s; reflexivity. }
      split.
      { exists evs1, (evs2 ++
                      [ EvWriteFile b
                          (Submission.submission_hash s ++ ".json")%string
                          (json_dumps (Submission.serialize false s2)) ]).
        split; [ now rewrite Ht', Ht2, Ht1, <- !app_assoc | ].
        split; [ exact Hc1 | ]. split; [ exact Hwr1 | ].
        exists b. split; [ reflexivity | ].
        split; [ now rewrite Hs2 | ].
        split.
        - rewrite checks_app, Hc2. cbn. now rewrite app_nil_r.
        - rewrite writes_app, Hwr2. reflexivity. }
      split; assumption.
    + unfold the_batch, bind, raise in H. cbn [fst snd] in H.
      discriminate H.
  - unfold ret at 1 in H. unfold bind, self, ret in H. cbn [fst snd] in H.
    assert (Hst1' : Forall (fun j => exists st, Job.job_state j = PStatus st)
                           (Submission.belonging_jobs s1))
      by (now rewrite Ejs1).
    destruct (all_finished_answer _ Hst1') as [Htrue Hfalse].
    assert (Hres : fin = negb (existsb
                      (state_in [ running; waiting; unsubmitted;
                                  completing; terminated; unknown ])
                      (Submission.belonging_jobs s1)) /\
                   s' = s1 /\ env' = env1).
    { destruct (existsb (state_in [ running; waiting; unsubmitted;
                                    completing; terminated; unknown ])
                        (Submission.belonging_jobs s1));
        inversion H; subst; repeat split; reflexivity. }
    destruct Hres as (Hfin & Hs' & Henv). subst s' fin env'.
    split.
    { rewrite Hs1. destruct s; reflexivity. }
    split.
    { exists evs1, []. split; [ now rewrite app_nil_r | ].
      split; [ exact Hc1 | ]. split; [ exact Hwr1 | ].
      split; [ exact Ejs1 | reflexivity ]. }
    split; assumption.
Qed.

End AllFinished.

(** ** handle_unexpected_job_state *)

(** Runs the plumbing of the monad. *)
Ltac msimpl :=
  repeat progress
    (unfold bind, ret, when, self, set_self, print, call_, call, raise,
       lift_res, the_batch;
     cbn [fst snd world rng trace]).

Section JobHandling.
Context {G W : Type} {std : PyStd G} {wld : World W}.

Lemma submit_job_run (j : Job.t) (env : Env W G) (b : BatchRef) :
  Job.batch j = Some b ->
  submit_job (j, env) =
  (Ok tt,
   (Job.set_job_id (fst (do_submit b j (world env))) j,
    mkEnv (snd (do_submit b j (world env))) (rng env)
          (trace env ++ [ EvSubmit b (Job.job_hash j) ]))).
Proof.
  intro Hb. unfold submit_job, register_job_id. msimpl. rewrite Hb. simpl.
  destruct (do_submit b j (world env)) as [id w]. reflexivity.
Qed.

Lemma resubmitted_fields (b : BatchRef) (j : Job.t) (w : W) :
  let j' := fst (resubmitted b j w) in
  Job.fail_count j' = (Job.fail_count j + 1)%Z /\
  Job.batch j' = Job.batch j /\
  Job.job_hash j' = Job.job_hash j /\
  Job.job_task_list j' = Job.job_task_list j /\
  Job.resources j' = Job.resources j /\
  exists st, Job.job_state j' = PStatus st.
Proof.
  unfold resubmitted.
  destruct (do_submit b _ w) as [id w1].
  destruct (check_status b _ w1) as [st w2]. simpl.
  repeat split. now exists st.
Qed.

Lemma resubmitted_state (b : BatchRef) (j : Job.t) (w : W) (st : JobStatus) :
  (forall b' j' w', fst (check_status b' j' w') = st) ->
  Job.job_state (fst (resubmitted b j w)) = PStatus st.
Proof.
  intro Hall. unfold resubmitted.
  destruct (do_submit b _ w) as [id w1].
  specialize (Hall b (Job.set_job_id id
                        (Job.set_fail_count (Job.fail_count j + 1) j)) w1).
  destruct (check_status b _ w1) as [st' w2]. simpl in *. now subst.
Qed.

(** A [terminated] job within its budget: the message, then the
    increment, one submission and one inspection. *)
Lemma handle_terminated_retry (j : Job.t) (env : Env W G) (b : BatchRef) :
  Job.batch j = Some b ->
  Job.job_state j = PStatus terminated ->
  (Job.fail_count j <= 5)%Z ->
  handle_unexpected_job_state (j, env) =
  (Ok tt,
   (fst (resubmitted b j (world env)),
    mkEnv (snd (resubmitted b j (world env))) (rng env)
          (trace env ++
           [ EvPrint ("job: " ++ Job.job_hash j
                      ++ " terminated; restarting job")%string;
             EvSubmit b (Job.job_hash j);
             EvCheckStatus b (Job.job_hash j) ]))).
Proof.
  intros Hb Hst Hfc.
  unfold handle_unexpected_job_state, check_fail_count, incr_fail_count.
  msimpl. rewrite Hst. cbn [pyval_eqb JobStatus_eqb]. msimpl.
  assert (Hgt : (Job.fail_count j >? 5)%Z = false) by lia.
  rewrite Hgt. msimpl.
  rewrite (submit_job_run _ _ b) by exact Hb. msimpl.
  rewrite (get_job_state_run _ _ b) by exact Hb. msimpl.
  unfold resubmitted.
  destruct (do_submit b _ (world env)) as [id w1]. cbn [fst snd].
  destruct (check_status b _ w1) as [st w2]. cbn [fst snd].
  rewrite <- !app_assoc. reflexivity.
Qed.

(** A [terminated] job whose budget is spent: the message is printed, the
    error is raised, and the job is left as it was; nothing is
    submitted. *)
Lemma handle_terminated_exhausted (j : Job.t) (env : Env W G) :
  Job.job_state j = PStatus terminated ->
  (5 < Job.fail_count j)%Z ->
  handle_unexpected_job_state (j, env) =
  (Raise (RuntimeError ("job:job " ++ Job.repr j ++ " failed 5 times")),
   (j, mkEnv (world env) (rng env)
             (trace env ++
              [ EvPrint ("job: " ++ Job.job_hash j
                         ++ " terminated; restarting job")%string ]))).
Proof.
  intros Hst Hfc.
  unfold handle_unexpected_job_state, check_fail_count, incr_fail_count.
  msimpl. rewrite Hst. cbn [pyval_eqb JobStatus_eqb]. msimpl.
  assert (Hgt : (Job.fail_count j >? 5)%Z = true) by lia.
  rewrite Hgt. msimpl. reflexivity.
Qed.

(** An [unsubmitted] job within its budget is submitted. *)
Lemma handle_unsubmitted_submit (j : Job.t) (env : Env W G) (b : BatchRef) :
  Job.batch j = Some b ->
  Job.job_state j = PStatus unsubmitted ->
  (Job.fail_count j <= 5)%Z ->
  exists text,
    handle_unexpected_job_state (j, env) =
    (Ok tt,
     (fst (resubmitted b j (world env)),
      mkEnv (snd (resubmitted b j (world env))) (rng env)
            (trace env ++
             [ EvSubmit b (Job.job_hash j);
               EvPrint text;
               EvCheckStatus b (Job.job_hash j) ]))).
Proof.
  intros Hb Hst Hfc.
  unfold handle_unexpected_job_state, check_fail_count, incr_fail_count.
  msimpl. rewrite Hst. cbn [pyval_eqb JobStatus_eqb]. msimpl.
  assert (Hgt : (Job.fail_count j >? 5)%Z = false) by lia.
  rewrite Hgt. msimpl.
  rewrite (submit_job_run _ _ b) by exact Hb. msimpl.
  rewrite (get_job_state_run _ _ b) by exact Hb. msimpl.
  unfold resubmitted.
  destruct (do_submit b _ (world env)) as [id w1]. cbn [fst snd].
  destruct (check_status b _ w1) as [st w2]. cbn [fst snd].
  eexists. rewrite <- !app_assoc. reflexivity.
Qed.

(** A job in state [unknown]: the error, and nothing else. *)
Lemma handle_unknown_raises (j : Job.t) (env : Env W G) :
  Job.job_state j = PStatus unknown ->
  handle_unexpected_job_state (j, env) =
  (Raise (RuntimeError ("job_state for job " ++ Job.repr j ++ " is unknown")),
   (j, env)).
Proof.
  intro Hst. unfold handle_unexpected_job_state. msimpl. rewrite Hst.
  cbn [pyval_eqb JobStatus_eqb]. reflexivity.
Qed.

(** A job whose state is [None], as [Job.__init__] leaves it, is not
    touched. *)
Lemma handle_none_noop (j : Job.t) (env : Env W G) :
  Job.job_state j = PNone ->
  handle_unexpected_job_state (j, env) = (Ok tt, (j, env)).
Proof.
  intro Hst. unfold handle_unexpected_job_state. msimpl. rewrite Hst.
  cbn [pyval_eqb]. reflexivity.
Qed.

Lemma repeat_handle_app (a c : nat) (st : Job.t * Env W G) :
  repeat_handle (a + c) st =
  match repeat_handle a st with
  | (Ok _, st') => repeat_handle c st'
  | (Raise e, st') => (Raise e, st')
  end.
Proof.
  revert st. induction a as [ | a IH ]; intro st.
  - reflexivity.
  - simpl. unfold bind.
    destruct (handle_unexpected_job_state st) as [[ [] | e ] st1].
    + apply IH.
    + reflexivity.
Qed.

(** While the budget lasts, every handling of a job that the batch keeps
    reporting [terminated] resubmits it. *)
Lemma retry_within_budget (b : BatchRef) :
  (forall b' j w, fst (check_status b' j w) = terminated) ->
  forall (n : nat) (j : Job.t) (env : Env W G),
    Job.batch j = Some b ->
    Job.job_state j = PStatus terminated ->
    (Job.fail_count j + Z.of_nat n <= 6)%Z ->
    exists j' env',
      repeat_handle n (j, env) = (Ok tt, (j', env')) /\
      Job.fail_count j' = (Job.fail_count j + Z.of_nat n)%Z /\
      Job.job_state j' = PStatus terminated /\
      Job.batch j' = Some b /\
      Job.job_hash j' = Job.job_hash j /\
      submits (trace env') =
        submits (trace env) ++ repeat (EvSubmit b (Job.job_hash j)) n.
Proof.
  intros Hall n. induction n as [ | n IH ]; intros j env Hb Hst Hfc.
  - exists j, env. simpl. rewrite app_nil_r. repeat split; try assumption. lia.
  - simpl repeat_handle. unfold bind.
    rewrite (handle_terminated_retry j env b Hb Hst) by lia.
    destruct (resubmitted_fields b j (world env))
      as (Hfc1 & Hb1 & Hh1 & _ & _ & _).
    cbv zeta in Hfc1, Hb1, Hh1.
    pose proof (resubmitted_state b j (world env) terminated Hall) as Hst1.
    set (j1 := fst (resubmitted b j (world env))) in *.
    set (env1 := mkEnv _ _ _).
    destruct (IH j1 env1) as (j' & env' & Hrun & Hfc' & Hst' & Hb' & Hh' & Hs').
    + now rewrite Hb1.
    + exact Hst1.
    + lia.
    + exists j', env'. split; [ exact Hrun | ].
      split; [ lia | ]. split; [ exact Hst' | ]. split; [ exact Hb' | ].
      split; [ congruence | ].
      rewrite Hs'. subst env1. cbn [trace]. rewrite submits_app. simpl.
      rewrite Hh1, <- app_assoc. reflexivity.
Qed.

(** C2 (amended).  A job that the batch keeps reporting [terminated],
    handled again and again from [fail_count = 0]: the first six handlings
    each submit it once, and every later handling raises the
    [RuntimeError] whose message holds the representation of the job, with
    six submissions made in all.  A single handling of a [terminated] job
    first tests the budget: with [fail_count > 5] it raises and leaves
    [fail_count] as it is, submitting and inspecting nothing; otherwise it
    increments [fail_count], submits, and then refreshes the state. *)
Theorem retry_cap (job : Job.t) (env : Env W G) (b : BatchRef) :
  (forall b' j w, fst (check_status b' j w) = terminated) ->
  Job.batch job = Some b ->
  Job.job_state job = PStatus terminated ->
  Job.fail_count job = 0%Z ->
  (forall n, n <= 6 ->
     exists job' env',
       repeat_handle n (job, env) = (Ok tt, (job', env')) /\
       Job.fail_count job' = Z.of_nat n /\
       submits (trace env') =
         submits (trace env) ++ repeat (EvSubmit b (Job.job_hash job)) n) /\
  (forall n, 6 < n ->
     exists job' env',
       repeat_handle n (job, env) =
         (Raise (RuntimeError
                   ("job:job " ++ Job.repr job' ++ " failed 5 times")),
          (job', env')) /\
       Job.fail_count job' = 6%Z /\
       submits (trace env') =
         submits (trace env) ++ repeat (EvSubmit b (Job.job_hash job)) 6) /\
  (forall (j : Job.t) (e : Env W G),
     Job.batch j = Some b ->
     Job.job_state j = PStatus terminated ->
     exists r j' e',
       handle_unexpected_job_state (j, e) = (r, (j', e')) /\
       if (Job.fail_count j >? 5)%Z then
         r = Raise (RuntimeError
                      ("job:job " ++ Job.repr j ++ " failed 5 times")) /\
         j' = j /\
         submits (trace e') = submits (trace e) /\
         checks (trace e') = checks (trace e)
       else
         r = Ok tt /\
         Job.fail_count j' = (Job.fail_count j + 1)%Z /\
         exists text,
           trace e' = trace e ++ [ EvPrint text;
                                   EvSubmit b (Job.job_hash j);
                                   EvCheckStatus b (Job.job_hash j) ]).
Proof.
  intros Hall Hb Hst Hfc. split; [ | split ].
  - intros n Hn.
    destruct (retry_within_budget b Hall n job env Hb Hst)
      as (j' & env' & Hrun & Hfc' & _ & _ & _ & Hs); [ lia | ].
    exists j', env'. split; [ exact Hrun | ]. split; [ lia | exact Hs ].
  - intros n Hn.
    destruct (retry_within_budget b Hall 6 job env Hb Hst)
      as (j6 & env6 & Hrun & Hfc6 & Hst6 & Hb6 & Hh6 & Hs6); [ lia | ].
    replace n with (6 + S (n - 7)) by lia.
    rewrite repeat_handle_app, Hrun.
    cbn [repeat_handle]. unfold bind.
    rewrite (handle_terminated_exhausted j6 env6 Hst6) by lia.
    eexists. eexists. split; [ reflexivity | ].
    split; [ lia | ].
    cbn [trace]. rewrite submits_app. simpl. rewrite app_nil_r. exact Hs6.
  - intros j e Hbj Hstj.
    destruct (Job.fail_count j >? 5)%Z eqn:E.
    + rewrite (handle_terminated_exhausted j e Hstj) by lia.
      eexists. eexists. eexists. split; [ reflexivity | ].
      split; [ reflexivity | ]. split; [ reflexivity | ].
      cbn [trace]. rewrite submits_app, checks_app. simpl.
      now rewrite !app_nil_r.
    + rewrite (handle_terminated_retry j e b Hbj Hstj) by lia.
      eexists. eexists. eexists. split; [ reflexivity | ].
      split; [ reflexivity | ].
      split; [ apply resubmitted_fields | ].
      eexists. reflexivity.
Qed.

End JobHandling.

(** ** generate_jobs *)

Section Chunks.
Context {A : Type}.

Lemma py_range_nil (fuel start stop step : nat) :
  stop <= start -> py_range fuel start stop step = [].
Proof.
  intro H. destruct fuel as [ | fuel ]; simpl; [ reflexivity | ].
  destruct (Nat.ltb_spec start stop); [ lia | reflexivity ].
Qed.

Lemma py_slice_firstn (l : list A) (i step : nat) :
  py_slice l i (i + step) = firstn step (skipn i l).
Proof. unfold py_slice. now replace (i + step - i) with step by lia. Qed.

(** Slicing a list at the multiples of a positive step cuts it into
    contiguous chunks: their concatenation is the list, none is empty or
    longer than the step, and all but the last have the length of the
    step. *)
Lemma chunks_from (l : list A) (step : nat) :
  1 <= step ->
  forall fuel start,
    List.length l - start <= fuel ->
    let cs := map (fun ii => py_slice l ii (ii + step))
                  (py_range fuel start (List.length l) step) in
    List.concat cs = skipn start l /\
    Forall (fun c => 1 <= List.length c <= step) cs /\
    Forall (fun c => List.length c = step) (removelast cs).
Proof.
  intros Hstep fuel. induction fuel as [ | fuel IH ]; intros start Hfuel.
  - simpl. rewrite skipn_all2 by lia. repeat split; constructor.
  - cbn [py_range]. destruct (Nat.ltb_spec start (List.length l)) as [Hlt | Hge].
    + cbn [map List.concat]. rewrite py_slice_firstn.
      destruct (IH (start + step)) as (Hc & Hlen & Hfull); [ lia | ].
      cbv zeta in Hc, Hlen, Hfull.
      assert (Hchunk : List.length (firstn step (skipn start l))
                       = Nat.min step (List.length l - start))
        by (now rewrite length_firstn, length_skipn).
      split; [ | split ].
      * rewrite Hc.
        replace (start + step) with (step + start) by lia.
        rewrite <- skipn_skipn. apply firstn_skipn.
      * constructor; [ lia | exact Hlen ].
      * destruct (Nat.le_gt_cases (List.length l) (start + step)) as [Hlast | Hmore].
        -- rewrite py_range_nil by exact Hlast. simpl. constructor.
        -- destruct (map _ (py_range fuel (start + step) _ step))
             as [ | c cs ] eqn:E.
           ++ exfalso. destruct fuel as [ | fuel' ]; [ lia | ].
              cbn [py_range] in E.
              destruct (Nat.ltb_spec (start + step) (List.length l));
                [ discriminate E | lia ].
           ++ cbn [removelast]. constructor; [ lia | exact Hfull ].
    + simpl. rewrite skipn_all2 by lia. repeat split; constructor.
Qed.

Lemma chunks_of_list (l : list A) (step : nat) :
  1 <= step ->
  let cs := map (fun ii => py_slice l ii (ii + step))
                (py_range (List.length l) 0 (List.length l) step) in
  List.concat cs = l /\
  Forall (fun c => 1 <= List.length c <= step) cs /\
  Forall (fun c => List.length c = step) (removelast cs).
Proof.
  intro Hstep. apply (chunks_from l step Hstep (List.length l) 0). lia.
Qed.

End Chunks.

Lemma tasks_at_unique (tasks : list Task.t) (ii : list nat)
    (tl1 tl2 : list Task.t) :
  tasks_at tasks ii tl1 -> tasks_at tasks ii tl2 -> tl1 = tl2.
Proof.
  intro H1. revert tl2. induction H1 as [ | jj t ii tl Hjj _ IH ];
    intros tl2 H2; inversion H2; subst.
  - reflexivity.
  - f_equal; [ congruence | now apply IH ].
Qed.

Lemma tasks_at_all_unique (tasks : list Task.t) (chunks : list (list nat))
    (tls1 tls2 : list (list Task.t)) :
  Forall2 (tasks_at tasks) chunks tls1 ->
  Forall2 (tasks_at tasks) chunks tls2 -> tls1 = tls2.
Proof.
  intro H1. revert tls2. induction H1 as [ | c tl cs tls Hc _ IH ];
    intros tls2 H2; inversion H2; subst.
  - reflexivity.
  - f_equal; [ now apply (tasks_at_unique tasks c) | now apply IH ].
Qed.

Section GenerateJobs.
Context {G W : Type} {std : PyStd G} {wld : World W}.

Lemma collect_index {O : Type} (tasks : list Task.t) (ii : list nat)
    (st : O * Env W G) :
  Forall (fun jj => jj < List.length tasks) ii ->
  exists tl,
    tasks_at tasks ii tl /\
    collect ii (fun jj => py_index tasks jj) st = (Ok tl, st).
Proof.
  induction 1 as [ | jj ii Hjj _ (tl & Htl & Hrun) ].
  - exists []. split; [ constructor | reflexivity ].
  - destruct (nth_error tasks jj) as [ t | ] eqn:E.
    + exists (t :: tl). split; [ now constructor | ].
      cbn [collect]. unfold bind at 1. unfold py_index at 1. rewrite E.
      unfold ret at 1. unfold bind at 1. rewrite Hrun. reflexivity.
    + apply nth_error_None in E. lia.
Qed.

Lemma append_job_run (s : Submission.t) (env : Env W G) (ii : list nat) :
  Forall (fun jj => jj < List.length (Submission.belonging_tasks s)) ii ->
  exists tl,
    tasks_at (Submission.belonging_tasks s) ii tl /\
    append_job ii (s, env) =
    (Ok tt,
     (Submission.set_belonging_jobs
        (Submission.belonging_jobs s ++
         [ Job.init tl (Submission.resources s) (Submission.batch s) ]) s,
      env)).
Proof.
  intro Hii.
  destruct (collect_index (Submission.belonging_tasks s) ii (s, env) Hii)
    as (tl & Htl & Hrun).
  exists tl. split; [ exact Htl | ].
  unfold append_job. unfold bind at 1. unfold self at 1. cbn [fst snd].
  unfold bind at 1. rewrite Hrun. msimpl. reflexivity.
Qed.

Lemma for_in_append_job (chunks : list (list nat)) :
  forall (s : Submission.t) (env : Env W G),
    Forall (Forall (fun jj => jj < List.length (Submission.belonging_tasks s)))
           chunks ->
    exists tls,
      Forall2 (tasks_at (Submission.belonging_tasks s)) chunks tls /\
      for_in chunks append_job (s, env) =
      (Ok tt,
       (Submission.set_belonging_jobs
          (Submission.belonging_jobs s ++
           map (fun tl => Job.init tl (Submission.resources s)
                                   (Submission.batch s)) tls) s,
        env)).
Proof.
  induction chunks as [ | c cs IH ]; intros s env Hall.
  - exists []. split; [ constructor | ]. simpl. rewrite app_nil_r.
    unfold ret. destruct s; reflexivity.
  - inversion Hall as [ | ? ? Hc Hcs ]; subst.
    destruct (append_job_run s env c Hc) as (tl & Htl & Hrun).
    set (s1 := Submission.set_belonging_jobs
                 (Submission.belonging_jobs s ++
                  [ Job.init tl (Submission.resources s)
                             (Submission.batch s) ]) s) in *.
    destruct (IH s1 env Hcs) as (tls & Htls & Hrest).
    exists (tl :: tls). split; [ now constructor | ].
    cbn [for_in]. unfold bind. rewrite Hrun, Hrest. simpl.
    rewrite <- app_assoc. reflexivity.
Qed.

Lemma Job_init_fields (tl : list Task.t) (r : Resources.t)
    (b : option BatchRef) :
  Job.job_task_list (Job.init tl r b) = tl /\
  Job.resources (Job.init tl r b) = r /\
  Job.batch (Job.init tl r b) = b /\
  runtime (Job.init tl r b) = (PNone, "", 0%Z) /\
  Job.job_hash (Job.init tl r b) = Job.get_hash (Job.init tl r b).
Proof. repeat split. Qed.

(** What [generate_jobs] computes, given at least one task and a positive
    group size. *)
Lemma generate_jobs_run (s : Submission.t) (env : Env W G) :
  Submission.belonging_tasks s <> [] ->
  (1 <= Resources.group_size (Submission.resources s))%Z ->
  let tasks := Submission.belonging_tasks s in
  let n := List.length tasks in
  let step := Z.to_nat (Resources.group_size (Submission.resources s)) in
  let shuffled := random_shuffle (seq 0 n) (random_seed 42) in
  let chunks := map (fun ii => py_slice (fst shuffled) ii (ii + step))
                    (py_range n 0 n step) in
  exists tls,
    Forall2 (tasks_at tasks) chunks tls /\
    let s1 := Submission.set_belonging_jobs
                (Submission.belonging_jobs s ++
                 map (fun tl => Job.init tl (Submission.resources s)
                                         (Submission.batch s)) tls) s in
    generate_jobs (s, env) =
    (Ok tt,
     (Submission.set_submission_hash (Submission.get_hash s1) s1,
      mkEnv (world env) (snd shuffled) (trace env))).
Proof.
  intros Hne Hgs. cbv zeta.
  set (tasks := Submission.belonging_tasks s).
  set (n := List.length tasks).
  set (step := Z.to_nat (Resources.group_size (Submission.resources s))).
  set (shuffled := random_shuffle (seq 0 n) (random_seed 42)).
  set (chunks := map (fun ii => py_slice (fst shuffled) ii (ii + step))
                     (py_range n 0 n step)).
  assert (Hstep : 1 <= step) by (subst step; lia).
  assert (Hperm : Permutation (fst shuffled) (seq 0 n))
    by apply random_shuffle_perm.
  assert (Hlen : List.length (fst shuffled) = n).
  { rewrite (Permutation_length Hperm). apply length_seq. }
  assert (Hin : Forall (Forall (fun jj => jj < n)) chunks).
  { destruct (chunks_of_list (fst shuffled) step Hstep) as (Hc & _ & _).
    cbv zeta in Hc. rewrite Hlen in Hc. fold chunks in Hc.
    apply Forall_forall. intros c Hcin. apply Forall_forall. intros jj Hjj.
    assert (Hj : In jj (seq 0 n)).
    { apply (Permutation_in jj Hperm). rewrite <- Hc.
      apply in_concat. now exists c. }
    apply in_seq in Hj. lia. }
  destruct (for_in_append_job chunks s
              (mkEnv (world env) (snd shuffled) (trace env)) Hin)
    as (tls & Htls & Hrun).
  exists tls. split; [ exact Htls | ].
  unfold generate_jobs. unfold bind at 1. unfold self at 1. cbn [fst snd].
  assert (Hlt : (Resources.group_size (Submission.resources s) <? 1)%Z = false)
    by lia.
  rewrite Hlt. unfold when at 1. unfold bind at 1. unfold ret at 1.
  assert (Hn : Nat.eqb (List.length (Submission.belonging_tasks s)) 0 = false).
  { apply Nat.eqb_neq. destruct (Submission.belonging_tasks s);
      [ contradiction | discriminate ]. }
  rewrite Hn. unfold when at 1. unfold bind at 1. unfold ret at 1.
  unfold bind at 1. unfold seed_random at 1. cbn [fst snd world rng trace].
  unfold bind at 1. unfold shuffle at 1. cbn [fst snd world rng trace].
  fold tasks. fold n. fold shuffled.
  destruct shuffled as [perm g] eqn:Eshuf. cbn [fst snd] in *.
  fold step. unfold bind at 1. fold chunks. rewrite Hrun.
  msimpl. reflexivity.
Qed.

Lemma map_init_fields (tls : list (list Task.t)) (r : Resources.t)
    (b : option BatchRef) :
  Forall2 (fun tl j =>
             Job.job_task_list j = tl /\ Job.resources j = r /\
             Job.batch j = b)
          tls (map (fun tl => Job.init tl r b) tls).
Proof.
  induction tls as [ | tl tls IH ]; simpl; constructor.
  - repeat split.
  - exact IH.
Qed.

Lemma map_init_task_lists (tls : list (list Task.t)) (r : Resources.t)
    (b : option BatchRef) :
  map Job.job_task_list (map (fun tl => Job.init tl r b) tls) = tls.
Proof.
  induction tls as [ | tl tls IH ]; simpl; [ reflexivity | now rewrite IH ].
Qed.

Lemma map_init_static (tls : list (list Task.t)) (r : Resources.t)
    (b1 b2 : option BatchRef) :
  map (Job.serialize true) (map (fun tl => Job.init tl r b1) tls) =
  map (Job.serialize true) (map (fun tl => Job.init tl r b2) tls).
Proof.
  induction tls as [ | tl tls IH ]; simpl; [ reflexivity | now rewrite IH ].
Qed.

(** C1.  [generate_jobs] on a submission with at least one task and a
    positive group size: the generator is seeded with 42 and shuffles the
    indices [0, n) into a permutation; the permutation is cut into
    contiguous chunks, none empty or longer than the group size and all
    but the last of exactly that size; one job is appended per chunk, in
    order, holding the tasks at the indices of the chunk and the resources
    (and batch) of the submission; the hash is recomputed.  Any other
    submission with the same tasks and resources, in whatever environment,
    gets jobs with the same task lists and the same static
    serialization. *)
Theorem generate_jobs_spec (s : Submission.t) (env : Env W G) :
  Submission.belonging_tasks s <> [] ->
  (1 <= Resources.group_size (Submission.resources s))%Z ->
  let tasks := Submission.belonging_tasks s in
  let n := List.length tasks in
  let step := Z.to_nat (Resources.group_size (Submission.resources s)) in
  let perm := fst (random_shuffle (seq 0 n) (random_seed 42)) in
  let chunks := map (fun ii => py_slice perm ii (ii + step))
                    (py_range n 0 n step) in
  Permutation perm (seq 0 n) /\
  List.concat chunks = perm /\
  Forall (fun c => 1 <= List.length c <= step) chunks /\
  Forall (fun c => List.length c = step) (removelast chunks) /\
  exists (tls : list (list Task.t)) (new : list Job.t)
         (s' : Submission.t) (env' : Env W G),
    Forall2 (tasks_at tasks) chunks tls /\
    generate_jobs (s, env) = (Ok tt, (s', env')) /\
    Submission.belonging_jobs s' = Submission.belonging_jobs s ++ new /\
    Forall2 (fun tl j =>
               Job.job_task_list j = tl /\
               Job.resources j = Submission.resources s /\
               Job.batch j = Submission.batch s)
            tls new /\
    hash_current s' /\
    forall (s2 : Submission.t) (env2 : Env W G),
      Submission.belonging_tasks s2 = tasks ->
      Submission.resources s2 = Submission.resources s ->
      exists (new2 : list Job.t) (s2' : Submission.t) (env2' : Env W G),
        generate_jobs (s2, env2) = (Ok tt, (s2', env2')) /\
        Submission.belonging_jobs s2' = Submission.belonging_jobs s2 ++ new2 /\
        map Job.job_task_list new2 = map Job.job_task_list new /\
        map (Job.serialize true) new2 = map (Job.serialize true) new.
Proof.
  intros Hne Hgs. cbv zeta.
  assert (Hperm : Permutation
            (fst (random_shuffle
                    (seq 0 (List.length (Submission.belonging_tasks s)))
                    (random_seed 42)))
            (seq 0 (List.length (Submission.belonging_tasks s))))
    by apply random_shuffle_perm.
  assert (Hlen : List.length
            (fst (random_shuffle
                    (seq 0 (List.length (Submission.belonging_tasks s)))
                    (random_seed 42)))
            = List.length (Submission.belonging_tasks s)).
  { rewrite (Permutation_length Hperm). apply length_seq. }
  assert (Hstep : 1 <= Z.to_nat (Resources.group_size (Submission.resources s)))
    by lia.
  pose proof (chunks_of_list
                (fst (random_shuffle
                        (seq 0 (List.length (Submission.belonging_tasks s)))
                        (random_seed 42))) _ Hstep) as Hchunks.
  cbv zeta in Hchunks.
  rewrite Hlen in Hchunks. destruct Hchunks as (Hc & Hl & Hf).
  split; [ exact Hperm | ]. split; [ exact Hc | ].
  split; [ exact Hl | ]. split; [ exact Hf | ].
  destruct (generate_jobs_run s env Hne Hgs) as (tls & Htls & Hrun).
  cbv zeta in Htls, Hrun.
  exists tls.
  exists (map (fun tl => Job.init tl (Submission.resources s)
                                  (Submission.batch s)) tls).
  eexists. eexists.
  split; [ exact Htls | ]. split; [ exact Hrun | ].
  split; [ reflexivity | ]. split; [ apply map_init_fields | ].
  split; [ reflexivity | ].
  intros s2 env2 Ht2 Hr2.
  assert (Hne2 : Submission.belonging_tasks s2 <> []) by now rewrite Ht2.
  assert (Hgs2 : (1 <= Resources.group_size (Submission.resources s2))%Z)
    by now rewrite Hr2.
  destruct (generate_jobs_run s2 env2 Hne2 Hgs2) as (tls2 & Htls2 & Hrun2).
  cbv zeta in Htls2, Hrun2. rewrite Ht2, Hr2 in Htls2.
  assert (Heq : tls2 = tls)
    by (eapply tasks_at_all_unique; [ exact Htls2 | exact Htls ]).
  subst tls2.
  exists (map (fun tl => Job.init tl (Submission.resources s2)
                                  (Submission.batch s2)) tls).
  eexists. eexists.
  split; [ exact Hrun2 | ]. split; [ reflexivity | ].
  split; [ now rewrite !map_init_task_lists | ].
  rewrite Hr2. apply map_init_static.
Qed.

End GenerateJobs.

(** ** bind_batch and try_recover_from_json *)

Section Recovery.
Context {G W : Type} {std : PyStd G} {wld : World W}.

Lemma run_jobs_set_batch (b : option BatchRef) (js : list Job.t)
    (env : Env W G) :
  run_jobs (job <- self ;; set_self (Job.set_batch b job)) js env =
  (Ok tt, (map (Job.set_batch b) js, env)).
Proof.
  set (body := job <- self ;; set_self (Job.set_batch b job)).
  induction js as [ | j js IH ]; cbn [run_jobs map].
  - reflexivity.
  - assert (Hj : body (j, env) = (Ok tt, (Job.set_batch b j, env)))
      by reflexivity.
    rewrite Hj, IH. reflexivity.
Qed.

(** The submission after [bind_batch]. *)
Lemma bind_batch_run (s : Submission.t) (env : Env W G) (b : BatchRef) :
  let s' := Submission.set_belonging_jobs
              (map (Job.set_batch (Some b)) (Submission.belonging_jobs s))
              (Submission.set_batch (Some b)
                 (Submission.set_submission_hash (Submission.get_hash s) s)) in
  bind_batch (Some b) (s, env) =
  (Ok tt,
   (s', mkEnv (bind_submission b s' (world env)) (rng env)
              (trace env ++ [ EvBindSubmission b (Submission.get_hash s) ]))).
Proof.
  cbv zeta. unfold bind_batch. unfold bind at 1. unfold self at 1.
  cbn [fst snd]. unfold bind at 1. unfold set_self at 1. cbn [fst snd].
  unfold bind at 1. unfold self at 1. cbn [fst snd].
  unfold bind at 1. unfold set_self at 1. cbn [fst snd].
  unfold bind at 1. unfold for_each_job. cbn [fst snd].
  rewrite run_jobs_set_batch. msimpl. reflexivity.
Qed.

Lemma bind_batch_hash_current (s : Submission.t) (env : Env W G)
    (b : BatchRef) :
  hash_current (fst (snd (bind_batch (Some b) (s, env)))).
Proof.
  rewrite bind_batch_run. cbn [fst snd]. unfold hash_current.
  cbn [Submission.submission_hash Submission.set_belonging_jobs
       Submission.set_batch Submission.set_submission_hash].
  unfold Submission.get_hash. f_equal. f_equal.
  apply Submission_serialize_fields; try reflexivity.
  cbn [Submission.belonging_jobs Submission.set_belonging_jobs].
  rewrite map_map. reflexivity.
Qed.

Lemma bind_no_batch_hash_current (s : Submission.t) :
  hash_current (Submission.bind_no_batch s).
Proof.
  unfold hash_current, Submission.bind_no_batch.
  cbn [Submission.submission_hash Submission.set_belonging_jobs
       Submission.set_batch Submission.set_submission_hash].
  unfold Submission.get_hash. f_equal. f_equal.
  apply Submission_serialize_fields; try reflexivity.
  cbn [Submission.belonging_jobs Submission.set_belonging_jobs].
  rewrite map_map. reflexivity.
Qed.

(** The constructor leaves the attribute [submission_hash] current, with
    or without a batch. *)
Lemma Submission_init_hash_current (work_base : string)
    (resources : Resources.t)
    (forward_common_files backward_common_files : list string)
    (batch : option BatchRef) (env : Env W G) :
  hash_current
    (fst (snd (Submission_init work_base resources forward_common_files
                               backward_common_files batch env))).
Proof.
  unfold Submission_init. destruct batch as [ b | ].
  - apply bind_batch_hash_current.
  - reflexivity.
Qed.

(** So does [deserialize]. *)
Lemma deserialize_hash_current (d : pyval) (sub : Submission.t) :
  Submission.deserialize d = Ok sub -> hash_current sub.
Proof.
  unfold Submission.deserialize, rbind. intro H.
  repeat match type of H with
         | match ?x with Ok _ => _ | Raise _ => _ end = _ =>
             destruct x; [ | discriminate H ]
         end.
  inversion H. apply bind_no_batch_hash_current.
Qed.



End Recovery.

(** ** The polling loop of run_submission *)

Section Polling.
Context {G W : Type} {std : PyStd G} {wld : World W}.

(** The body of an [except] clause: the snapshot is written first, the
    four lines of the diagnostic follow, and [exit] ends it. *)
Lemma interrupted_run (s : Submission.t) (env : Env W G) (b : BatchRef)
    (label : string) (code : Z) :
  Submission.batch s = Some b ->
  Forall bound (Submission.belonging_jobs s) ->
  exists js' env' evs,
    let s' := Submission.set_belonging_jobs js' s in
    interrupted label code (s, env) = (Raise (SystemExit code), (s', env')) /\
    Forall2 refreshed (Submission.belonging_jobs s) js' /\
    trace env' =
      trace env ++ evs ++
      [ EvWriteFile b (Submission.submission_hash s ++ ".json")%string
                    (json_dumps (Submission.serialize false s'));
        EvPrint ("<<<<<<dpdispatcher<<<<<<" ++ label
                 ++ "<<<<<<exit<<<<<<")%string;
        EvPrint ("submission: " ++ " " ++ Submission.submission_hash s)%string;
        EvPrint (Submission.repr s');
        EvPrint (">>>>>>dpdispatcher>>>>>>" ++ label
                 ++ ">>>>>>exit>>>>>>")%string ] /\
    checks evs = status_checks (Submission.belonging_jobs s) /\
    writes evs = [] /\
    submits evs = [].
Proof.
  intros Hbatch Hb.
  destruct (submission_to_json_run s env b Hbatch Hb)
    as (js' & env1 & evs & Hjson & Hf & Ht & _ & Hc & Hw & Hs).
  cbv zeta in Hjson, Ht.
  exists js'. eexists. exists evs. cbv zeta.
  split.
  - unfold interrupted. unfold bind at 1. rewrite Hjson.
    unfold py_exit. msimpl. reflexivity.
  - split; [ exact Hf | ]. split; [ | repeat split; assumption ].
    cbn [trace]. rewrite Ht. rewrite <- !app_assoc. reflexivity.
Qed.

(** C3 (amended).  An iteration of the polling loop on a bound submission.
    When [time.sleep] is interrupted by [KeyboardInterrupt], by
    [SystemExit] or by an exception of another class under [Exception],
    the iteration refreshes the jobs and writes the snapshot
    ([submission_to_json]), then prints the four lines of the diagnostic,
    the second of which holds [submission_hash], then exits with the code
    1, 2 or 3 of that class; nothing is written or submitted between the
    sleep and the snapshot.  When [time.sleep] returns, the iteration is
    the call of [handle_unexpected_submission_state] and nothing more:
    what that call raises leaves the iteration as it is. *)
Theorem interruption_at_sleep (s : Submission.t) (env : Env W G)
    (b : BatchRef) :
  Submission.batch s = Some b ->
  Forall bound (Submission.belonging_jobs s) ->
  (forall (e : exn) (w1 : W) (code : Z),
     sleep 10 (world env) = (Some e, w1) ->
     exit_code_of (class_of e) = Some code ->
     exists s' env' evs,
       poll_iteration (s, env) = (Raise (SystemExit code), (s', env')) /\
       Forall2 refreshed (Submission.belonging_jobs s)
                         (Submission.belonging_jobs s') /\
       Submission.submission_hash s' = Submission.submission_hash s /\
       trace env' =
         trace env ++ [ EvSleep 10 ] ++ evs ++
         [ EvWriteFile b (Submission.submission_hash s ++ ".json")%string
                       (json_dumps (Submission.serialize false s'));
           EvPrint ("<<<<<<dpdispatcher<<<<<<" ++ label_of e
                    ++ "<<<<<<exit<<<<<<")%string;
           EvPrint ("submission: " ++ " "
                    ++ Submission.submission_hash s)%string;
           EvPrint (Submission.repr s');
           EvPrint (">>>>>>dpdispatcher>>>>>>" ++ label_of e
                    ++ ">>>>>>exit>>>>>>")%string ] /\
       writes evs = [] /\
       submits evs = []) /\
  (forall (w1 : W),
     sleep 10 (world env) = (None, w1) ->
     poll_iteration (s, env) =
     handle_unexpected_submission_state
       (s, mkEnv w1 (rng env) (trace env ++ [ EvSleep 10 ]))).
Proof.
  intros Hbatch Hb. split.
  - intros e w1 code Hsleep Hcode.
    set (env1 := mkEnv w1 (rng env) (trace env ++ [ EvSleep 10 ])).
    assert (Hstep : poll_iteration (s, env) =
                    interrupted (label_of e) code (s, env1)).
    { unfold poll_iteration, time_sleep. unfold bind at 1. unfold call at 1.
      cbn [fst snd]. rewrite Hsleep. unfold label_of.
      destruct (class_of e); simpl in Hcode; inversion Hcode; subst;
        reflexivity. }
    destruct (interrupted_run s env1 b (label_of e) code Hbatch Hb)
      as (js' & env' & evs & Hrun & Hf & Ht & _ & Hw & Hs).
    cbv zeta in Hrun, Ht.
    exists (Submission.set_belonging_jobs js' s), env', evs.
    split; [ now rewrite Hstep | ]. split; [ exact Hf | ].
    split; [ reflexivity | ]. split; [ | split; assumption ].
    rewrite Ht. subst env1. cbn [trace]. rewrite <- !app_assoc. reflexivity.
  - intros w1 Hsleep.
    unfold poll_iteration, time_sleep. unfold bind at 1. unfold call at 1.
    cbn [fst snd]. rewrite Hsleep. reflexivity.
Qed.

(** What an iteration raises ends the loop and the run. *)
Lemma polling_loop_propagates (n : nat) (e : exn)
    (st st1 st2 : Submission.t * Env W G) :
  check_all_finished st = (Ok false, st1) ->
  poll_iteration st1 = (Raise e, st2) ->
  polling_loop (S n) st = (Raise e, st2).
Proof.
  intros Hc Hp. cbn [polling_loop]. unfold bind. now rewrite Hc, Hp.
Qed.

Lemma run_submission_propagates (n : nat) (e : exn)
    (st st1 st2 : Submission.t * Env W G) :
  run_submission_prologue st = (Ok tt, st1) ->
  polling_loop n st1 = (Raise e, st2) ->
  run_submission n st = (Raise e, st2).
Proof.
  intros Hp Hl. unfold run_submission, bind. now rewrite Hp, Hl.
Qed.

End Polling.

(** ** The first submission of the jobs *)

Section Prologue.
Context {G W : Type} {std : PyStd G} {wld : World W}.

Lemma refresh_job_exact (j : Job.t) (env : Env W G) (b : BatchRef) :
  Job.batch j = Some b ->
  exists text,
    refresh_job (j, env) =
    (Ok tt,
     (Job.set_job_state (PStatus (fst (check_status b j (world env)))) j,
      mkEnv (snd (check_status b j (world env))) (rng env)
            (trace env ++ [ EvCheckStatus b (Job.job_hash j);
                            EvPrint text ]))).
Proof.
  intro Hb. unfold refresh_job, bind.
  rewrite (get_job_state_run j env b Hb).
  unfold self, print, call_, call. simpl.
  eexists. rewrite <- app_assoc. reflexivity.
Qed.

(** Jobs that were never submitted, refreshed by a batch that reports
    such jobs as [unsubmitted]. *)
Lemma run_jobs_refresh_fresh (b : BatchRef) :
  (forall j w, Job.job_id j = "" -> fst (check_status b j w) = unsubmitted) ->
  forall (js : list Job.t) (env : Env W G),
    Forall (fun j => Job.batch j = Some b /\ Job.job_id j = "") js ->
    exists env',
      run_jobs refresh_job js env =
        (Ok tt, (map (Job.set_job_state (PStatus unsubmitted)) js, env')) /\
      rng env' = rng env /\
      submits (trace env') = submits (trace env) /\
      writes (trace env') = writes (trace env).
Proof.
  intros Hfresh js. induction js as [ | j js IH ]; intros env Hall.
  - exists env. repeat split.
  - inversion Hall as [ | ? ? [Hb Hid] Hjs ]; subst.
    destruct (refresh_job_exact j env b Hb) as (text & Hrun).
    cbn [run_jobs map]. rewrite Hrun, (Hfresh j (world env) Hid).
    set (env1 := mkEnv _ _ _).
    destruct (IH env1 Hjs) as (env' & Hrest & Hg & Hs & Hw).
    rewrite Hrest. exists env'. split; [ reflexivity | ].
    subst env1. cbn [trace rng] in Hg, Hs, Hw.
    rewrite submits_app in Hs. rewrite writes_app in Hw.
    simpl in Hs, Hw. rewrite app_nil_r in Hs, Hw.
    repeat split; assumption.
Qed.

(** [handle_unexpected_submission_state] on jobs that are all
    [unsubmitted]: each is submitted once, in order. *)
Lemma run_jobs_handle_unsubmitted (b : BatchRef) (js : list Job.t) :
  forall env : Env W G,
    Forall (fun j => Job.batch j = Some b /\
                     Job.job_state j = PStatus unsubmitted /\
                     (Job.fail_count j <= 5)%Z) js ->
    exists js' env',
      run_jobs handle_unexpected_job_state js env = (Ok tt, (js', env')) /\
      Forall2 (fun j j' =>
                 Job.fail_count j' = (Job.fail_count j + 1)%Z /\
                 Job.job_hash j' = Job.job_hash j /\
                 same_static_job j j') js js' /\
      submits (trace env') =
        submits (trace env) ++ map (fun j => EvSubmit b (Job.job_hash j)) js /\
      writes (trace env') = writes (trace env).
Proof.
  induction js as [ | j js IH ]; intros env Hall.
  - exists [], env. simpl. rewrite app_nil_r. repeat split. constructor.
  - inversion Hall as [ | ? ? (Hb & Hst & Hfc) Hjs ]; subst.
    destruct (handle_unsubmitted_submit j env b Hb Hst Hfc) as (text & Hrun).
    cbn [run_jobs]. rewrite Hrun.
    set (env1 := mkEnv _ _ _).
    destruct (IH env1 Hjs) as (js' & env' & Hrest & Hf & Hs & Hw).
    rewrite Hrest.
    exists (fst (resubmitted b j (world env)) :: js'), env'.
    split; [ reflexivity | ].
    destruct (resubmitted_fields b j (world env))
      as (Hfc1 & _ & Hh1 & Htl1 & Hr1 & _).
    cbv zeta in Hfc1, Hh1, Htl1, Hr1.
    split.
    { constructor; [ | exact Hf ].
      split; [ exact Hfc1 | ]. split; [ exact Hh1 | ].
      split; congruence. }
    subst env1. cbn [trace] in Hs, Hw.
    rewrite submits_app in Hs. rewrite writes_app in Hw. simpl in Hs, Hw.
    rewrite app_nil_r in Hw. split; [ | exact Hw ].
    rewrite Hs. cbn [map]. rewrite <- app_assoc. reflexivity.
Qed.

Lemma unsubmitted_not_snapshot (js : list Job.t) :
  existsb (state_in [ terminated; unknown ])
          (map (Job.set_job_state (PStatus unsubmitted)) js) = false.
Proof. induction js as [ | j js IH ]; simpl; [ reflexivity | exact IH ]. Qed.

Lemma unsubmitted_alive (js : list Job.t) :
  existsb (state_in [ running; waiting; unsubmitted; completing;
                      terminated; unknown ])
          (map (Job.set_job_state (PStatus unsubmitted)) js) =
  truthy js.
Proof. destruct js; reflexivity. Qed.

Lemma try_recover_no_file (s : Submission.t) (env : Env W G) (b : BatchRef)
    (w1 : W) :
  Submission.batch s = Some b ->
  check_file_exists b (Submission.submission_hash s ++ ".json")%string
                    (world env) = (false, w1) ->
  try_recover_from_json (s, env) =
  (Ok tt,
   (s, mkEnv w1 (rng env)
             (trace env ++
              [ EvCheckFileExists b
                  (Submission.submission_hash s ++ ".json")%string ]))).
Proof.
  intros Hbatch Hexists.
  unfold try_recover_from_json. unfold bind at 1. unfold self at 1.
  cbn [fst snd]. rewrite Hbatch. unfold the_batch. unfold bind at 1.
  unfold ret at 1. unfold bind at 1. unfold call at 1. cbn [fst snd].
  rewrite Hexists. unfold ret. reflexivity.
Qed.

(** [run_submission] up to its loop, on a submission whose jobs were never
    submitted, without snapshot on the remote, with a batch that reports
    such jobs as [unsubmitted]: every job is submitted once, in order, and
    no file is written. *)
Lemma prologue_fresh_run (s : Submission.t) (env : Env W G) (b : BatchRef)
    (w1 : W) :
  Submission.batch s = Some b ->
  (forall j w, Job.job_id j = "" -> fst (check_status b j w) = unsubmitted) ->
  Forall (fun j => Job.batch j = Some b /\ Job.job_id j = "" /\
                   (Job.fail_count j <= 5)%Z)
         (Submission.belonging_jobs s) ->
  check_file_exists b (Submission.submission_hash s ++ ".json")%string
                    (world env) = (false, w1) ->
  exists s' env',
    run_submission_prologue (s, env) = (Ok tt, (s', env')) /\
    Forall2 (fun j j' =>
               Job.fail_count j' = (Job.fail_count j + 1)%Z /\
               Job.job_hash j' = Job.job_hash j /\
               same_static_job j j')
            (Submission.belonging_jobs s) (Submission.belonging_jobs s') /\
    submits (trace env') =
      submits (trace env) ++
      map (fun j => EvSubmit b (Job.job_hash j)) (Submission.belonging_jobs s) /\
    writes (trace env') = writes (trace env).
Proof.
  intros Hbatch Hfresh Hjobs Hnofile.
  unfold run_submission_prologue. unfold bind at 1.
  rewrite (try_recover_no_file s env b w1 Hbatch Hnofile).
  set (env1 := mkEnv _ _ _).
  assert (Hjobs1 : Forall (fun j => Job.batch j = Some b /\ Job.job_id j = "")
                          (Submission.belonging_jobs s)).
  { eapply Forall_impl; [ | exact Hjobs ]. intros j (H1 & H2 & _). now split. }
  destruct (run_jobs_refresh_fresh b Hfresh (Submission.belonging_jobs s)
              env1 Hjobs1) as (env2 & Hrefresh & _ & Hs2 & Hw2).
  set (js1 := map (Job.set_job_state (PStatus unsubmitted))
                  (Submission.belonging_jobs s)) in *.
  set (s1 := Submission.set_belonging_jobs js1 s).
  assert (Hcheck : check_all_finished (s, env1) =
                   (Ok (negb (truthy (Submission.belonging_jobs s))),
                    (s1, env2))).
  { unfold check_all_finished. unfold bind at 1.
    unfold get_submission_state, for_each_job. cbn [fst snd].
    rewrite Hrefresh. fold s1. unfold bind at 1. unfold self at 1.
    cbn [fst snd]. subst s1. cbn [Submission.belonging_jobs
      Submission.set_belonging_jobs]. subst js1.
    rewrite unsubmitted_not_snapshot. unfold when at 1. unfold bind at 1.
    unfold ret at 1. unfold bind at 1. unfold self at 1. cbn [fst snd].
    cbn [Submission.belonging_jobs Submission.set_belonging_jobs].
    rewrite unsubmitted_alive.
    destruct (truthy (Submission.belonging_jobs s)); reflexivity. }
  unfold bind at 1. rewrite Hcheck.
  subst env1. cbn [trace] in Hs2, Hw2.
  rewrite submits_app in Hs2. rewrite writes_app in Hw2. simpl in Hs2, Hw2.
  rewrite app_nil_r in Hs2, Hw2.
  destruct (Submission.belonging_jobs s) as [ | j0 js0 ] eqn:Ejobs.
  - cbn [truthy negb]. unfold ret. exists s1, env2.
    split; [ reflexivity | ]. subst s1 js1. cbn [Submission.belonging_jobs
      Submission.set_belonging_jobs map].
    split; [ constructor | ]. cbn [map]. rewrite app_nil_r.
    split; assumption.
  - cbn [truthy negb].
    unfold bind at 1. unfold upload_jobs at 1. unfold bind at 1.
    unfold self at 1. cbn [fst snd].
    assert (Hbatch1 : Submission.batch s1 = Some b) by exact Hbatch.
    rewrite Hbatch1. unfold the_batch. unfold bind at 1. unfold ret at 1.
    unfold call_, call. cbn [fst snd world rng trace].
    unfold bind at 1. unfold handle_unexpected_submission_state, for_each_job.
    cbn [fst snd].
    assert (Hjs1 : Forall (fun j => Job.batch j = Some b /\
                                    Job.job_state j = PStatus unsubmitted /\
                                    (Job.fail_count j <= 5)%Z)
                          (Submission.belonging_jobs s1)).
    { subst s1 js1. cbn [Submission.belonging_jobs
        Submission.set_belonging_jobs].
      clear - Hjobs. induction Hjobs as [ | j js (H1 & _ & H3) _ IH ];
        cbn [map]; constructor.
      - repeat split; assumption.
      - exact IH. }
    set (env3 := mkEnv _ _ _).
    destruct (run_jobs_handle_unsubmitted b (Submission.belonging_jobs s1)
                env3 Hjs1) as (js' & env' & Hrun & Hf & Hs & Hw).
    rewrite Hrun. unfold ret.
    exists (Submission.set_belonging_jobs js' s1), env'.
    split; [ reflexivity | ].
    subst env3. cbn [trace] in Hs, Hw.
    rewrite submits_app in Hs. rewrite writes_app in Hw. simpl in Hs, Hw.
    rewrite app_nil_r in Hs, Hw.
    split; [ | split ].
    + cbn [Submission.belonging_jobs Submission.set_belonging_jobs].
      subst s1 js1.
      cbn [Submission.belonging_jobs Submission.set_belonging_jobs] in Hf.
      clear - Hf. remember (j0 :: js0) as js eqn:E. clear E.
      revert js' Hf. induction js as [ | j js IH ]; intros js' Hf;
        inversion Hf; subst; constructor.
      * assumption.
      * now apply IH.
    + rewrite Hs, Hs2. subst s1 js1.
      cbn [Submission.belonging_jobs Submission.set_belonging_jobs].
      rewrite map_map. reflexivity.
    + now rewrite Hw, Hw2.
Qed.

End Prologue.

(** ** The state of a new job *)

Section NewJobs.
Context {G W : Type} {std : PyStd G} {wld : World W}.

Lemma init_jobs_runtime (tls : list (list Task.t)) (r : Resources.t)
    (b : option BatchRef) :
  Forall (fun j => runtime j = (PNone, "", 0%Z))
         (map (fun tl => Job.init tl r b) tls).
Proof. induction tls as [ | tl tls IH ]; simpl; constructor; auto. Qed.

Lemma init_jobs_fresh (tls : list (list Task.t)) (r : Resources.t)
    (b : BatchRef) :
  Forall (fun j => Job.batch j = Some b /\ Job.job_id j = "" /\
                   (Job.fail_count j <= 5)%Z)
         (map (fun tl => Job.init tl r (Some b)) tls).
Proof.
  induction tls as [ | tl tls IH ]; simpl; constructor; auto.
  simpl. repeat split. lia.
Qed.

(** C7 (amended).  The jobs that [generate_jobs] appends have the state
    [None], the id [""] and [fail_count = 0];
    [handle_unexpected_job_state] called on such a job, before any
    refresh, does nothing.  In [run_submission] the first call of
    [handle_unexpected_submission_state] comes after
    [check_all_finished] has refreshed the states: on a submission that
    holds these jobs alone, without snapshot on the remote and with a
    batch that reports a job without id as [unsubmitted], it submits every
    job once, in order. *)
Theorem new_jobs_have_no_state (s : Submission.t) (env : Env W G) :
  Submission.belonging_tasks s <> [] ->
  (1 <= Resources.group_size (Submission.resources s))%Z ->
  exists (new : list Job.t) (s' : Submission.t) (env' : Env W G),
    generate_jobs (s, env) = (Ok tt, (s', env')) /\
    Submission.belonging_jobs s' = Submission.belonging_jobs s ++ new /\
    Forall (fun j => runtime j = (PNone, "", 0%Z)) new /\
    Forall (fun j => forall e : Env W G,
              handle_unexpected_job_state (j, e) = (Ok tt, (j, e))) new /\
    forall (b : BatchRef) (e : Env W G) (w1 : W),
      Submission.batch s = Some b ->
      Submission.belonging_jobs s = [] ->
      (forall j w, Job.job_id j = "" ->
                   fst (check_status b j w) = unsubmitted) ->
      check_file_exists b (Submission.submission_hash s' ++ ".json")%string
                        (world e) = (false, w1) ->
      exists s'' e',
        run_submission_prologue (s', e) = (Ok tt, (s'', e')) /\
        submits (trace e') =
          submits (trace e) ++ map (fun j => EvSubmit b (Job.job_hash j)) new.
Proof.
  intros Hne Hgs.
  destruct (generate_jobs_run s env Hne Hgs) as (tls & _ & Hrun).
  cbv zeta in Hrun.
  exists (map (fun tl => Job.init tl (Submission.resources s)
                                  (Submission.batch s)) tls).
  eexists. eexists. split; [ exact Hrun | ].
  split; [ reflexivity | ]. split; [ apply init_jobs_runtime | ].
  split.
  { apply Forall_forall. intros j Hin e. apply handle_none_noop.
    pose proof (init_jobs_runtime tls (Submission.resources s)
                  (Submission.batch s)) as Hr.
    rewrite Forall_forall in Hr. specialize (Hr j Hin).
    unfold runtime in Hr. now inversion Hr. }
  intros b e w1 Hbatch Hjobs Hfresh Hnofile.
  set (s' := Submission.set_submission_hash _ _) in *.
  assert (Hjs : Submission.belonging_jobs s' =
                map (fun tl => Job.init tl (Submission.resources s) (Some b))
                    tls).
  { subst s'. cbn [Submission.belonging_jobs Submission.set_submission_hash
      Submission.set_belonging_jobs]. now rewrite Hjobs, Hbatch. }
  destruct (prologue_fresh_run s' e b w1) as (s'' & e' & Hp & _ & Hs & _).
  - exact Hbatch.
  - exact Hfresh.
  - rewrite Hjs. apply init_jobs_fresh.
  - exact Hnofile.
  - exists s'', e'. split; [ exact Hp | ].
    rewrite Hs, Hjs, Hbatch. reflexivity.
Qed.

End NewJobs.

(** ** The methods on the concrete world *)

(** A complete run: two jobs are submitted, found [finished] at the first
    poll, and the only snapshot is the one written after the loop. *)
Example run_submission_completes :
  let r := run_submission (std := Mock.std [])
                          (wld := Mock.wld (Mock.Tracking finished)) 5
                          (Mock.generated, Mock.env [] []) in
  fst r = Ok (Some true) /\
  submits (trace (snd (snd r))) = [ EvSubmit 7 "587421"; EvSubmit 7 "45281" ] /\
  List.length (writes (trace (snd (snd r)))) = 1 /\
  map runtime (Submission.belonging_jobs (fst (snd r))) =
    [ (PStatus finished, "id-587421", 1%Z);
      (PStatus finished, "id-45281", 1%Z) ].
Proof. vm_compute. repeat split. Qed.

(** C2, the claim as it was stated: the handling of a [terminated] job
    whose budget is spent raises and does not increment [fail_count]. *)
Lemma spent_job_fail_count_not_incremented :
  let r := handle_unexpected_job_state
             (std := Mock.std []) (wld := Mock.wld (Mock.Always terminated))
             (Mock.job_spent, Mock.env [] []) in
  Job.job_state Mock.job_spent = PStatus terminated /\
  Job.fail_count Mock.job_spent = 6%Z /\
  (exists msg, fst r = Raise (RuntimeError msg)) /\
  Job.fail_count (fst (snd r)) = 6%Z /\
  Job.fail_count (fst (snd r)) <> (Job.fail_count Mock.job_spent + 1)%Z.
Proof.
  vm_compute. split; [ reflexivity | ]. split; [ reflexivity | ].
  split; [ eexists; reflexivity | ]. split; [ reflexivity | discriminate ].
Qed.

(** C3, the claim as it was stated: an error raised in an iteration of
    the polling loop, after the sleep, by
    [handle_unexpected_submission_state], is not caught: the iteration
    ends with that error, not with an exit code, and it has written no
    snapshot and printed no diagnostic. *)
Lemma error_after_sleep_not_caught :
  let r := poll_iteration
             (std := Mock.std []) (wld := Mock.wld (Mock.Always terminated))
             (Mock.spent, Mock.env [] []) in
  (exists msg, fst r = Raise (RuntimeError msg)) /\
  fst r <> Raise (SystemExit 3) /\
  trace (snd (snd r)) =
    [ EvSleep 10; EvPrint "job: 587421 terminated; restarting job" ] /\
  writes (trace (snd (snd r))) = [].
Proof.
  vm_compute. split; [ eexists; reflexivity | ].
  split; [ discriminate | ]. split; reflexivity.
Qed.

(** The state [Mock.spent] is where the driver stands when that error is
    raised in a run. *)
Example spent_is_reached :
  let r := run_submission (std := Mock.std [])
                          (wld := Mock.wld (Mock.Always terminated)) 10
                          (Mock.generated, Mock.env [] []) in
  (exists msg, fst r = Raise (RuntimeError msg)) /\
  fst (snd r) = Mock.spent.
Proof. vm_compute. split; [ eexists; reflexivity | reflexivity ]. Qed.

(** C6.  [run_submission] up to its loop, on a new submission of two
    jobs: the jobs are uploaded and submitted, and no snapshot is
    written. *)
Theorem prologue_writes_no_snapshot :
  let r := run_submission_prologue
             (std := Mock.std []) (wld := Mock.wld (Mock.Tracking running))
             (Mock.generated, Mock.env [] []) in
  fst r = Ok tt /\
  submits (trace (snd (snd r))) = [ EvSubmit 7 "587421"; EvSubmit 7 "45281" ] /\
  In (EvUpload 7 "501527") (trace (snd (snd r))) /\
  writes (trace (snd (snd r))) = [].
Proof.
  vm_compute. split; [ reflexivity | ]. split; [ reflexivity | ].
  split; [ | reflexivity ]. do 5 right. left. reflexivity.
Qed.

(** C7, the claim as it was stated: the jobs of [generate_jobs] do not
    start in the state [unsubmitted], and
    [handle_unexpected_submission_state] called on them before a refresh
    submits none. *)
Lemma new_jobs_not_unsubmitted :
  let r := handle_unexpected_submission_state
             (std := Mock.std []) (wld := Mock.wld (Mock.Tracking running))
             (Mock.generated, Mock.env [] []) in
  map Job.job_state (Submission.belonging_jobs Mock.generated)
    = [ PNone; PNone ] /\
  Forall (fun j => Job.job_state j <> PStatus unsubmitted)
         (Submission.belonging_jobs Mock.generated) /\
  fst r = Ok tt /\
  submits (trace (snd (snd r))) = [].
Proof.
  vm_compute. split; [ reflexivity | ].
  split; [ repeat constructor; discriminate | ]. split; reflexivity.
Qed.

(** ** The theorems at concrete inputs *)

Lemma generate_jobs_spec_witness :
  Submission.belonging_tasks Mock.registered <> [] /\
  (1 <= Resources.group_size (Submission.resources Mock.registered))%Z /\
  exists new s' env',
    generate_jobs (std := Mock.std []) (Mock.registered, Mock.env [] [])
      = (Ok tt, (s', env')) /\
    Submission.belonging_jobs s' =
      Submission.belonging_jobs Mock.registered ++ new /\
    hash_current (std := Mock.std []) s'.
Proof.
  assert (H1 : Submission.belonging_tasks Mock.registered <> [])
    by (vm_compute; discriminate).
  assert (H2 : (1 <= Resources.group_size
                       (Submission.resources Mock.registered))%Z)
    by (vm_compute; discriminate).
  split; [ exact H1 | ]. split; [ exact H2 | ].
  destruct (generate_jobs_spec (std := Mock.std [])
              Mock.registered (Mock.env [] []) H1 H2)
    as (_ & _ & _ & _ & tls & new & s' & env' & _ & Hrun & Hjobs & _ & Hcur & _).
  exists new, s', env'. repeat split; assumption.
Defined.

Lemma retry_cap_witness :
  exists job' env',
    repeat_handle (std := Mock.std [])
                  (wld := Mock.wld (Mock.Always terminated)) 7
                  (Mock.job_killed, Mock.env [] []) =
      (Raise (RuntimeError
                ("job:job " ++ Job.repr (std := Mock.std []) job'
                 ++ " failed 5 times")),
       (job', env')) /\
    Job.fail_count job' = 6%Z /\
    submits (trace env') =
      repeat (EvSubmit 7 (Job.job_hash Mock.job_killed)) 6.
Proof.
  destruct (retry_cap (std := Mock.std [])
              (wld := Mock.wld (Mock.Always terminated))
              Mock.job_killed (Mock.env [] []) 7) as (_ & H7 & _).
  - intros b' j w. reflexivity.
  - reflexivity.
  - reflexivity.
  - reflexivity.
  - destruct (H7 7) as (job' & env' & H); [ lia | ].
    exists job', env'. exact H.
Defined.

Lemma interruption_at_sleep_witness :
  exists s' env',
    poll_iteration (std := Mock.std [])
                   (wld := Mock.wld (Mock.Tracking running))
                   (Mock.submitted, Mock.env [] [ Some KeyboardInterrupt ]) =
      (Raise (SystemExit 1), (s', env')) /\
    Submission.submission_hash s' = Submission.submission_hash Mock.submitted.
Proof.
  destruct (interruption_at_sleep (std := Mock.std [])
              (wld := Mock.wld (Mock.Tracking running))
              Mock.submitted (Mock.env [] [ Some KeyboardInterrupt ]) 7)
    as [H _].
  - vm_compute. reflexivity.
  - vm_compute. repeat (constructor; [ discriminate | ]). constructor.
  - destruct (H KeyboardInterrupt (Mock.mk [] []) 1%Z)
      as (s' & env' & evs & Hrun & _ & Hh & _).
    + reflexivity.
    + reflexivity.
    + exists s', env'. split; assumption.
Defined.


Lemma check_all_finished_spec_witness :
  let r := check_all_finished (std := Mock.std [])
                              (wld := Mock.wld (Mock.Always terminated))
                              (Mock.submitted, Mock.env [] []) in
  fst r = Ok false /\
  map Job.job_state (Submission.belonging_jobs (fst (snd r))) =
    [ PStatus terminated; PStatus terminated ] /\
  exists b evs1 evs,
    trace (snd (snd r)) = trace (Mock.env [] []) ++ evs1 ++ evs /\
    writes evs1 = [] /\
    writes evs =
      [ EvWriteFile b
          (Submission.submission_hash Mock.submitted ++ ".json")%string
          (json_dumps (PyStd := Mock.std [])
             (Submission.serialize (std := Mock.std []) false
                                   (fst (snd r)))) ].
Proof.
  cbv zeta.
  split; [ vm_compute; reflexivity | ].
  split; [ vm_compute; reflexivity | ].
  pose proof (check_all_finished_spec (std := Mock.std [])
                (wld := Mock.wld (Mock.Always terminated))
                Mock.submitted
                (fst (snd (check_all_finished
                             (std := Mock.std [])
                             (wld := Mock.wld (Mock.Always terminated))
                             (Mock.submitted, Mock.env [] []))))
                (Mock.env [] [])
                (snd (snd (check_all_finished
                             (std := Mock.std [])
                             (wld := Mock.wld (Mock.Always terminated))
                             (Mock.submitted, Mock.env [] []))))
                false) as H.
  cbv zeta in H.
  destruct H as (_ & _ & (evs1 & evs & Ht & _ & Hw & Hstale) & _).
  - vm_compute. reflexivity.
  - assert (E : existsb (state_in [ terminated; unknown ])
                  (fst (asked (wld := Mock.wld (Mock.Always terminated))
                          (Submission.belonging_jobs Mock.submitted)
                          (world (Mock.env [] [])))) = true)
      by (vm_compute; reflexivity).
    rewrite E in Hstale.
    destruct Hstale as (b & _ & _ & _ & Hwrite).
    exists b, evs1, evs. repeat split; assumption.
Defined.

Lemma new_jobs_have_no_state_witness :
  exists new s' env',
    generate_jobs (std := Mock.std []) (Mock.registered, Mock.env [] [])
      = (Ok tt, (s', env')) /\
    Submission.belonging_jobs s' =
      Submission.belonging_jobs Mock.registered ++ new /\
    Forall (fun j => runtime j = (PNone, "", 0%Z)) new.
Proof.
  destruct (new_jobs_have_no_state (std := Mock.std [])
              (wld := Mock.wld (Mock.Tracking running))
              Mock.registered (Mock.env [] []))
    as (new & s' & env' & Hrun & Hjobs & Hrt & _).
  - vm_compute. discriminate.
  - vm_compute. discriminate.
  - exists new, s', env'. repeat split; assumption.
Defined.

Lemma runtime_isolation_witness :
  map runtime (Submission.belonging_jobs Mock.generated) <>
  map runtime (Submission.belonging_jobs Mock.submitted) /\
  Submission.eq (std := Mock.std []) Mock.generated Mock.submitted = true.
Proof.
  split; [ vm_compute; discriminate | ].
  apply (runtime_isolation (std := Mock.std []) Mock.generated Mock.submitted).
  - vm_compute. reflexivity.
  - vm_compute. reflexivity.
  - vm_compute. reflexivity.
  - vm_compute. reflexivity.
  - vm_compute. repeat constructor.
Defined.

Lemma registration_lock_witness :
  register_task (G := unit) (W := Mock.world) (Mock.task "d")
                (Mock.generated, Mock.env [] []) =
    (Raise (KeyError "self"), (Mock.generated, Mock.env [] [])) /\
  register_task_list (G := unit) (W := Mock.world) Mock.tasks3
                     (Mock.fresh, Mock.env [] []) =
    (Ok tt, (Mock.registered, Mock.env [] [])).
Proof.
  split.
  - destruct (registration_lock (G := unit) (W := Mock.world) Mock.generated
                (Mock.env [] []) (Mock.task "d") [ Mock.task "d" ])
      as [Hlock _].
    destruct Hlock as [Ht _]; [ vm_compute; discriminate | exact Ht ].
  - destruct (registration_lock (G := unit) (W := Mock.world) Mock.fresh
                (Mock.env [] []) (Mock.task "d") Mock.tasks3)
      as [_ Hfree].
    destruct Hfree as [_ Hl]; [ vm_compute; reflexivity | ].
    rewrite Hl. vm_compute. reflexivity.
Defined.

Lemma tasks_outside_identity_witness :
  Submission.belonging_tasks Mock.fresh <>
  Submission.belonging_tasks Mock.registered /\
  Submission.eq (std := Mock.std []) Mock.fresh Mock.registered = true /\
  Submission.get_hash (std := Mock.std []) Mock.fresh =
  Submission.get_hash (std := Mock.std []) Mock.registered.
Proof.
  split; [ vm_compute; discriminate | ].
  destruct (tasks_outside_identity (std := Mock.std []) (W := Mock.world)
              Mock.fresh Mock.registered) as (Heq & Hhash & _).
  - vm_compute. reflexivity.
  - vm_compute. reflexivity.
  - vm_compute. reflexivity.
  - vm_compute. reflexivity.
  - vm_compute. reflexivity.
  - split; assumption.
Defined.

(** * Further properties *)

(** ** Serialization round trips *)

Lemma rmap_as_str (l : list string) : rmap as_str (map PStr l) = Ok l.
Proof.
  induction l as [ | x l IH ]; simpl; [ reflexivity | ].
  rewrite IH. reflexivity.
Qed.

Lemma as_str_list_PStrs (l : list string) : as_str_list (PStrs l) = Ok l.
Proof. unfold as_str_list, PStrs. apply rmap_as_str. Qed.

Lemma Resources_init_Ok (nn cpn gpn : Z) (qn : string) (gs : Z) (cuda : bool)
    (r : Resources.t) :
  Resources.init nn cpn gpn qn gs cuda = Ok r ->
  r = Resources.mk nn cpn gpn qn gs cuda 0 /\ constructed r.
Proof.
  unfold Resources.init. intro H.
  destruct cuda.
  - destruct (gpn <? 1)%Z eqn:Eg; [ discriminate H | ].
    destruct (nn =? 1)%Z eqn:En; simpl in H; [ | discriminate H ].
    inversion H; subst. split; [ reflexivity | ].
    split; [ reflexivity | ]. simpl. intros _. lia.
  - inversion H; subst. split; [ reflexivity | ].
    split; [ reflexivity | ]. simpl. discriminate.
Qed.

Lemma Resources_init_constructed (r : Resources.t) :
  constructed r ->
  Resources.init (Resources.number_node r) (Resources.cpu_per_node r)
                 (Resources.gpu_per_node r) (Resources.queue_name r)
                 (Resources.group_size r) (Resources.if_cuda_multi_devices r)
  = Ok r.
Proof.
  intros [Hu Hc]. unfold Resources.init. destruct r as [nn cpn gpn qn gs cuda u].
  simpl in *. subst u. destruct cuda; [ | reflexivity ].
  destruct (Hc eq_refl) as [Hg Hn].
  assert (E1 : (gpn <? 1)%Z = false) by lia.
  assert (E2 : (nn =? 1)%Z = true) by lia.
  now rewrite E1, E2.
Qed.

Lemma Resources_serialize_inverse (r : Resources.t) :
  constructed r ->
  Resources.deserialize (Resources.serialize r) = Ok r.
Proof.
  intro Hc. unfold Resources.deserialize, Resources.serialize.
  cbn [dict_keys map fst existsb String.eqb Ascii.eqb Bool.eqb orb].
  simpl. apply (Resources_init_constructed r Hc).
Qed.

(** X1.  [Resources.deserialize] undoes [Resources.serialize] on the
    objects that the constructor accepts, and on those only: [in_use] is
    not serialized, and the check on [if_cuda_multi_devices] is made
    again. *)
Theorem Resources_round_trip (r : Resources.t) :
  Resources.deserialize (Resources.serialize r) = Ok r <-> constructed r.
Proof.
  split; [ | apply Resources_serialize_inverse ].
  unfold Resources.deserialize, Resources.serialize.
  cbn [dict_keys map fst existsb String.eqb Ascii.eqb Bool.eqb orb].
  simpl. intro H. now apply Resources_init_Ok in H.
Qed.

Section RoundTrips.
Context {G : Type} {std : PyStd G}.

(** [Task.deserialize] rebuilds a task from its serialization; the hash
    is computed anew. *)
Lemma Task_deserialize_serialize (t : Task.t) :
  Task.deserialize (Task.serialize t) =
  Ok (Task.init (Task.command t) (Task.task_work_path t)
                (Task.forward_files t) (Task.backward_files t)
                (Task.outlog t) (Task.errlog t) (Task.task_need_resources t)).
Proof.
  unfold Task.deserialize, Task.serialize. simpl.
  rewrite !rmap_as_str. reflexivity.
Qed.

Lemma Task_serialize_inverse (t : Task.t) :
  task_current t -> Task.deserialize (Task.serialize t) = Ok t.
Proof.
  intro Hc. rewrite Task_deserialize_serialize. f_equal.
  unfold Task.init. destruct t as [c p ff bf ol el tnr h].
  unfold task_current in Hc. cbn [Task.task_hash] in Hc.
  change (h = Task.get_hash (Task.mk c p ff bf ol el tnr "")) in Hc.
  cbn [Task.command Task.task_work_path Task.forward_files
       Task.backward_files Task.outlog Task.errlog Task.task_need_resources].
  now rewrite <- Hc.
Qed.

(** X3.  [Task.deserialize] undoes [Task.serialize] exactly on the tasks
    whose [task_hash] is current, as it is on every task that the
    constructor built: the hash is not serialized but computed anew. *)
Theorem Task_round_trip (t : Task.t) :
  Task.deserialize (Task.serialize t) = Ok t <-> task_current t.
Proof.
  split; [ | apply Task_serialize_inverse ].
  rewrite Task_deserialize_serialize. intro H.
  assert (E : Task.init (Task.command t) (Task.task_work_path t)
                (Task.forward_files t) (Task.backward_files t)
                (Task.outlog t) (Task.errlog t) (Task.task_need_resources t)
              = t) by congruence.
  rewrite <- E. reflexivity.
Qed.

Lemma Task_init_current (c p : string) (ff bf : list string) (ol el : string)
    (tnr : pyval) :
  task_current (Task.init c p ff bf ol el tnr).
Proof. reflexivity. Qed.

Lemma rmap_Task_round_trip (tl : list Task.t) :
  Forall task_current tl ->
  rmap Task.deserialize (map Task.serialize tl) = Ok tl.
Proof.
  induction 1 as [ | t tl Ht _ IH ]; [ reflexivity | ].
  cbn [map rmap]. rewrite (Task_serialize_inverse t Ht). unfold rbind at 1.
  rewrite IH. reflexivity.
Qed.

Lemma Job_serialize_runtime (j : Job.t) :
  Job.serialize false j =
  PDict [ (Job.get_hash j,
           PDict [ ("job_task_list",
                    PList (map Task.serialize (Job.job_task_list j)));
                   ("resources", Resources.serialize (Job.resources j));
                   ("job_state", Job.job_state j);
                   ("job_id", PStr (Job.job_id j));
                   ("fail_count", PInt (Job.fail_count j)) ]) ].
Proof. reflexivity. Qed.

Lemma Job_serialize_inverse (b : option BatchRef) (j : Job.t) :
  job_wf j ->
  Job.deserialize b (Job.serialize false j) = Ok (Job.set_batch b j).
Proof.
  intros (Htl & Hr & Hh & Hs).
  rewrite Job_serialize_runtime. unfold Job.deserialize.
  cbn [dict_keys map fst]. unfold py_getitem at 1. cbn [dict_get].
  rewrite String.eqb_refl. unfold rbind at 1.
  unfold py_getitem at 1. cbn [dict_get String.eqb Ascii.eqb Bool.eqb].
  unfold rbind at 1. unfold py_iter at 1. unfold rbind at 1.
  rewrite (rmap_Task_round_trip _ Htl). unfold rbind at 1.
  unfold py_getitem at 1. cbn [dict_get String.eqb Ascii.eqb Bool.eqb].
  unfold rbind at 1. rewrite (Resources_serialize_inverse _ Hr).
  unfold rbind at 1. simpl.
  f_equal. destruct j as [tl r b0 st id fc h sf].
  cbn [Job.job_hash Job.script_file_name] in Hh, Hs.
  unfold Job.set_batch, Job.set_fail_count, Job.set_job_id,
    Job.set_job_state, Job.init. simpl.
  f_equal.
  - rewrite Hh. reflexivity.
  - rewrite Hs, Hh. reflexivity.
Qed.

(** X4.  [Job.deserialize] undoes the runtime serialization of a job: the
    task list, the resources, the hash, the script name and the runtime
    triple come back as they were, the batch is the one given to
    [deserialize], and the job that comes back is equal to the original
    under [__eq__]. *)
Theorem Job_round_trip (b : option BatchRef) (j : Job.t) :
  job_wf j ->
  exists j',
    Job.deserialize b (Job.serialize false j) = Ok j' /\
    j' = Job.set_batch b j /\
    runtime j' = runtime j /\
    Job.eq j j' = true.
Proof.
  intro Hj. exists (Job.set_batch b j).
  split; [ now apply Job_serialize_inverse | ].
  split; [ reflexivity | ]. split; [ reflexivity | ].
  unfold Job.eq. apply pyval_eqb_eq. reflexivity.
Qed.

(** X5.  The static serialization of a job is not a snapshot of it:
    [Job.deserialize] reads the runtime triple without testing for it,
    and fails on the first key it misses. *)
Theorem Job_deserialize_static (b : option BatchRef) (j : Job.t) :
  job_wf j ->
  Job.deserialize b (Job.serialize true j) = Raise (KeyError "job_state").
Proof.
  intros (Htl & Hr & _ & _).
  rewrite Job_serialize_static. unfold Job.deserialize.
  cbn [dict_keys map fst]. unfold py_getitem at 1. cbn [dict_get].
  rewrite String.eqb_refl. unfold rbind at 1. unfold Job.content.
  unfold py_getitem at 1. cbn [dict_get String.eqb Ascii.eqb Bool.eqb].
  unfold rbind at 1. unfold py_iter at 1. unfold rbind at 1.
  rewrite (rmap_Task_round_trip _ Htl). unfold rbind at 1.
  unfold py_getitem at 1. cbn [dict_get String.eqb Ascii.eqb Bool.eqb].
  unfold rbind at 1. rewrite (Resources_serialize_inverse _ Hr).
  unfold rbind at 1. reflexivity.
Qed.

Lemma rmap_Job_round_trip (b : option BatchRef) (js : list Job.t) :
  Forall job_wf js ->
  rmap (Job.deserialize b) (map (Job.serialize false) js) =
  Ok (map (Job.set_batch b) js).
Proof.
  induction 1 as [ | j js Hj _ IH ]; [ reflexivity | ].
  cbn [map rmap]. rewrite (Job_serialize_inverse b j Hj). unfold rbind at 1.
  rewrite IH. reflexivity.
Qed.

(** X6.  [Submission.deserialize] undoes the runtime serialization of a
    submission up to what is not serialized: work base, resources, common
    files and the jobs with their runtime triples come back, the hash is
    the hash of the original and the two are equal under [__eq__]; the
    registered tasks are gone and no batch is bound. *)
Theorem Submission_round_trip (s : Submission.t) :
  constructed (Submission.resources s) ->
  Forall job_wf (Submission.belonging_jobs s) ->
  exists sub,
    Submission.deserialize (Submission.serialize false s) = Ok sub /\
    Submission.work_base sub = Submission.work_base s /\
    Submission.resources sub = Submission.resources s /\
    Submission.forward_common_files sub = Submission.forward_common_files s /\
    Submission.backward_common_files sub = Submission.backward_common_files s /\
    Submission.belonging_jobs sub =
      map (Job.set_batch None) (Submission.belonging_jobs s) /\
    map runtime (Submission.belonging_jobs sub) =
      map runtime (Submission.belonging_jobs s) /\
    Submission.belonging_tasks sub = [] /\
    Submission.batch sub = None /\
    Submission.submission_hash sub = Submission.get_hash s /\
    Submission.eq s sub = true.
Proof.
  intros Hr Hjs.
  unfold Submission.deserialize, Submission.serialize.
  unfold py_getitem at 1. cbn [dict_get String.eqb Ascii.eqb Bool.eqb].
  unfold rbind at 1. unfold as_str at 1. unfold rbind at 1.
  unfold py_getitem at 1. cbn [dict_get String.eqb Ascii.eqb Bool.eqb].
  unfold rbind at 1. rewrite (Resources_serialize_inverse _ Hr). unfold rbind at 1.
  unfold py_getitem at 1. cbn [dict_get String.eqb Ascii.eqb Bool.eqb].
  unfold rbind at 1. rewrite as_str_list_PStrs. unfold rbind at 1.
  unfold py_getitem at 1. cbn [dict_get String.eqb Ascii.eqb Bool.eqb].
  unfold rbind at 1. rewrite as_str_list_PStrs. unfold rbind at 1.
  unfold py_getitem at 1. cbn [dict_get String.eqb Ascii.eqb Bool.eqb].
  unfold rbind at 1. unfold py_iter at 1. unfold rbind at 1.
  rewrite (rmap_Job_round_trip None _ Hjs). unfold rbind at 1.
  eexists. split; [ reflexivity | ].
  set (js' := map (Job.set_batch None) (Submission.belonging_jobs s)).
  assert (Hstatic : map (Job.serialize true) js' =
                    map (Job.serialize true) (Submission.belonging_jobs s)).
  { subst js'. rewrite map_map. reflexivity. }
  repeat (split; [ reflexivity | ]).
  split.
  { cbn [Submission.belonging_jobs Submission.bind_no_batch
         Submission.set_belonging_jobs Submission.set_batch
         Submission.set_submission_hash].
    subst js'. rewrite !map_map. reflexivity. }
  split.
  { cbn [Submission.belonging_jobs Submission.bind_no_batch
         Submission.set_belonging_jobs Submission.set_batch
         Submission.set_submission_hash].
    subst js'. rewrite !map_map. reflexivity. }
  repeat (split; [ reflexivity | ]).
  split.
  { cbn [Submission.submission_hash Submission.bind_no_batch
         Submission.set_belonging_jobs Submission.set_batch
         Submission.set_submission_hash].
    unfold Submission.get_hash. f_equal. f_equal.
    apply Submission_serialize_fields; try reflexivity. exact Hstatic. }
  apply Submission_eq_serialize.
  apply Submission_serialize_fields; try reflexivity.
  cbn [Submission.belonging_jobs Submission.bind_no_batch
       Submission.set_belonging_jobs Submission.set_batch
       Submission.set_submission_hash].
  rewrite map_map. subst js'. rewrite map_map. reflexivity.
Qed.

End RoundTrips.

(** ** Equality, read backwards *)

Lemma map_eq_Forall2 {A C : Type} (f : A -> C) (l1 l2 : list A) :
  map f l1 = map f l2 <-> Forall2 (fun a b => f a = f b) l1 l2.
Proof.
  split.
  - revert l2. induction l1 as [ | a l1 IH ]; intros [ | b l2 ] H;
      try discriminate H; constructor; inversion H; auto.
  - induction 1 as [ | a b l1 l2 Hab _ IH ]; simpl; congruence.
Qed.

Lemma map_PStr_inj (l1 l2 : list string) : map PStr l1 = map PStr l2 -> l1 = l2.
Proof.
  revert l2. induction l1 as [ | a l1 IH ]; intros [ | b l2 ] H;
    try discriminate H; [ reflexivity | ].
  inversion H. f_equal. now apply IH.
Qed.

Lemma Forall2_iff {A C : Type} (P Q : A -> C -> Prop) (l1 : list A)
    (l2 : list C) :
  (forall a b, P a b <-> Q a b) -> (Forall2 P l1 l2 <-> Forall2 Q l1 l2).
Proof.
  intro H. split; induction 1; constructor; auto; now apply H.
Qed.

Section EqualityBackwards.
Context {G : Type} {std : PyStd G}.

(** X7.  Jobs that are equal under [Job.__eq__] have the same hash,
    equal resources, and task lists of the same length with equal tasks
    at every position. *)
Theorem Job_eq_components (j1 j2 : Job.t) :
  Job.eq j1 j2 = true ->
  Job.get_hash j1 = Job.get_hash j2 /\
  Forall2 (fun t1 t2 => Task.eq t1 t2 = true)
          (Job.job_task_list j1) (Job.job_task_list j2) /\
  Resources.eq (Job.resources j1) (Job.resources j2) = true.
Proof.
  intro H. unfold Job.eq in H. apply pyval_eqb_eq in H.
  split; [ unfold Job.get_hash; now rewrite H | ].
  rewrite !Job_serialize_static in H. unfold Job.content in H.
  assert (Ht : map Task.serialize (Job.job_task_list j1) =
               map Task.serialize (Job.job_task_list j2)) by congruence.
  assert (Hr : Resources.serialize (Job.resources j1) =
               Resources.serialize (Job.resources j2)) by congruence.
  split.
  - apply (Forall2_iff _ (fun t1 t2 => Task.serialize t1 = Task.serialize t2));
      [ intros a b; unfold Task.eq; apply pyval_eqb_eq | ].
    now apply map_eq_Forall2.
  - unfold Resources.eq. now apply pyval_eqb_eq.
Qed.

(** X8.  Two submissions are equal under [Submission.__eq__] exactly when
    they have the same work base and common files, equal resources, and
    job lists of the same length with equal jobs at every position. *)
Theorem Submission_eq_iff (s1 s2 : Submission.t) :
  Submission.eq s1 s2 = true <->
  Submission.work_base s1 = Submission.work_base s2 /\
  Resources.eq (Submission.resources s1) (Submission.resources s2) = true /\
  Submission.forward_common_files s1 = Submission.forward_common_files s2 /\
  Submission.backward_common_files s1 = Submission.backward_common_files s2 /\
  Forall2 (fun j1 j2 => Job.eq j1 j2 = true)
          (Submission.belonging_jobs s1) (Submission.belonging_jobs s2).
Proof.
  rewrite Submission_eq_serialize. unfold Submission.serialize, PStrs.
  unfold Resources.eq. rewrite pyval_eqb_eq.
  rewrite (Forall2_iff _ (fun j1 j2 => Job.serialize true j1
                                       = Job.serialize true j2));
    [ | intros a b; unfold Job.eq; apply pyval_eqb_eq ].
  rewrite <- map_eq_Forall2. split.
  - intro H.
    assert (Hf : map PStr (Submission.forward_common_files s1) =
                 map PStr (Submission.forward_common_files s2)) by congruence.
    assert (Hb : map PStr (Submission.backward_common_files s1) =
                 map PStr (Submission.backward_common_files s2)) by congruence.
    apply map_PStr_inj in Hf. apply map_PStr_inj in Hb.
    repeat split; congruence.
  - intros (Hw & Hr & Hf & Hb & Hj). now rewrite Hw, Hr, Hf, Hb, Hj.
Qed.

End EqualityBackwards.

(** ** generate_jobs: a partition of the tasks *)

Lemma tasks_at_concat (tasks : list Task.t) (chunks : list (list nat))
    (tls : list (list Task.t)) :
  Forall2 (tasks_at tasks) chunks tls ->
  tasks_at tasks (List.concat chunks) (List.concat tls).
Proof.
  induction 1 as [ | c tl cs tls Hc _ IH ]; simpl.
  - constructor.
  - now apply Forall2_app.
Qed.

Lemma tasks_at_lengths (tasks : list Task.t) (chunks : list (list nat))
    (tls : list (list Task.t)) :
  Forall2 (tasks_at tasks) chunks tls ->
  map (@List.length Task.t) tls = map (@List.length nat) chunks.
Proof.
  induction 1 as [ | c tl cs tls Hc _ IH ]; simpl; [ reflexivity | ].
  f_equal; [ symmetry; apply (Forall2_length Hc) | exact IH ].
Qed.

Lemma nth_error_seq_all {A : Type} (l : list A) :
  map (nth_error l) (seq 0 (List.length l)) = map Some l.
Proof.
  induction l as [ | a l IH ]; [ reflexivity | ].
  cbn [List.length seq map nth_error]. f_equal.
  rewrite <- seq_shift, map_map. exact IH.
Qed.

Lemma map_Some_inj {A : Type} (l1 l2 : list A) :
  map Some l1 = map Some l2 -> l1 = l2.
Proof.
  revert l2. induction l1 as [ | a l1 IH ]; intros [ | b l2 ] H;
    try discriminate H; [ reflexivity | ].
  inversion H. f_equal. now apply IH.
Qed.

(** The tasks found at a permutation of all the indices are a permutation
    of the tasks. *)
Lemma tasks_at_permutation (tasks : list Task.t) (perm : list nat)
    (tl : list Task.t) :
  tasks_at tasks perm tl ->
  Permutation perm (seq 0 (List.length tasks)) ->
  Permutation tl tasks.
Proof.
  intro Hat.
  assert (Hmap : map Some tl = map (nth_error tasks) perm).
  { induction Hat as [ | jj t ii tl Hjj _ IH ]; simpl; congruence. }
  intro Hperm.
  pose proof (Permutation_map (nth_error tasks) Hperm) as Hp.
  rewrite nth_error_seq_all, <- Hmap in Hp.
  apply Permutation_map_inv in Hp as (l3 & E & Hp3).
  apply map_Some_inj in E. subst l3. now symmetry.
Qed.

(** Chunks that are all full but the last, which is not empty: their
    number is the length of their concatenation divided by the size,
    rounded up. *)
Lemma chunks_count {A : Type} (cs : list (list A)) (step : nat) :
  Forall (fun c => 1 <= List.length c <= step) cs ->
  Forall (fun c => List.length c = step) (removelast cs) ->
  List.length (List.concat cs) <= List.length cs * step /\
  (cs <> [] -> (List.length cs - 1) * step < List.length (List.concat cs)).
Proof.
  induction cs as [ | c cs IH ]; intros Hall Hfull.
  - simpl. split; [ lia | intro H; now contradiction H ].
  - inversion Hall as [ | ? ? Hc Hcs ]; subst.
    cbn [List.concat List.length]. rewrite length_app.
    destruct cs as [ | c' cs' ].
    + simpl. split; [ lia | intros _; lia ].
    + cbn [removelast] in Hfull. inversion Hfull as [ | ? ? Hcf Hcsf ]; subst.
      destruct (IH Hcs Hcsf) as [Hle Hlt].
      assert (Hne : c' :: cs' <> []) by discriminate.
      specialize (Hlt Hne). cbn [List.length] in *.
      split; [ lia | intros _ ]. nia.
Qed.

Section Partition.
Context {G W : Type} {std : PyStd G} {wld : World W}.

Lemma concat_map_init (tls : list (list Task.t)) (r : Resources.t)
    (b : option BatchRef) :
  List.concat (map Job.job_task_list (map (fun tl => Job.init tl r b) tls)) =
  List.concat tls.
Proof. now rewrite map_init_task_lists. Qed.

(** X9.  [generate_jobs] deals the tasks out: every registered task goes
    to exactly one of the new jobs (their task lists, put end to end, are
    a permutation of [belonging_tasks]), no new job is empty or holds more
    than [group_size] tasks, and the number of new jobs is the number of
    tasks divided by [group_size], rounded up. *)
Theorem generate_jobs_partition (s : Submission.t) (env : Env W G) :
  Submission.belonging_tasks s <> [] ->
  (1 <= Resources.group_size (Submission.resources s))%Z ->
  let n := List.length (Submission.belonging_tasks s) in
  let step := Z.to_nat (Resources.group_size (Submission.resources s)) in
  exists (new : list Job.t) (s' : Submission.t) (env' : Env W G),
    generate_jobs (s, env) = (Ok tt, (s', env')) /\
    Submission.belonging_jobs s' = Submission.belonging_jobs s ++ new /\
    Submission.belonging_tasks s' = Submission.belonging_tasks s /\
    Permutation (List.concat (map Job.job_task_list new))
                (Submission.belonging_tasks s) /\
    Forall (fun j => 1 <= List.length (Job.job_task_list j) <= step) new /\
    (List.length new - 1) * step < n <= List.length new * step.
Proof.
  intros Hne Hgs. cbv zeta.
  destruct (generate_jobs_run s env Hne Hgs) as (tls & Htls & Hrun).
  cbv zeta in Htls, Hrun.
  set (n := List.length (Submission.belonging_tasks s)) in *.
  set (step := Z.to_nat (Resources.group_size (Submission.resources s))) in *.
  set (perm := fst (random_shuffle (seq 0 n) (random_seed 42))) in *.
  assert (Hstep : 1 <= step) by (subst step; lia).
  assert (Hperm : Permutation perm (seq 0 n)) by apply random_shuffle_perm.
  assert (Hlen : List.length perm = n).
  { rewrite (Permutation_length Hperm). apply length_seq. }
  destruct (chunks_of_list perm step Hstep) as (Hc & Hl & Hf).
  cbv zeta in Hc, Hl, Hf. rewrite Hlen in Hc, Hl, Hf.
  set (chunks := map (fun ii => py_slice perm ii (ii + step))
                     (py_range n 0 n step)) in *.
  assert (Hlens : map (@List.length Task.t) tls = map (@List.length nat) chunks)
    by (now apply (tasks_at_lengths (Submission.belonging_tasks s))).
  assert (Hcount : List.length tls = List.length chunks).
  { rewrite <- (length_map (@List.length Task.t) tls), Hlens.
    apply length_map. }
  exists (map (fun tl => Job.init tl (Submission.resources s)
                                  (Submission.batch s)) tls).
  eexists. eexists. split; [ exact Hrun | ].
  split; [ reflexivity | ]. split; [ reflexivity | ].
  split.
  { rewrite concat_map_init.
    apply (tasks_at_permutation _ perm); [ | exact Hperm ].
    rewrite <- Hc. now apply tasks_at_concat. }
  split.
  { apply Forall_forall. intros j Hj. apply in_map_iff in Hj as (tl & <- & Htl).
    cbn [Job.job_task_list Job.init].
    assert (Hin : In (List.length tl) (map (@List.length nat) chunks)).
    { rewrite <- Hlens. now apply in_map. }
    apply in_map_iff in Hin as (c & Hcl & Hcin).
    rewrite Forall_forall in Hl. specialize (Hl c Hcin). lia. }
  rewrite length_map, Hcount.
  destruct (chunks_count chunks step Hl Hf) as [Hle Hlt].
  rewrite Hc, Hlen in Hle, Hlt. split; [ | exact Hle ].
  apply Hlt. intro E. rewrite E in Hc. simpl in Hc.
  assert (n = 0) by (rewrite <- Hlen, <- Hc; reflexivity).
  subst n. destruct (Submission.belonging_tasks s);
    [ contradiction | discriminate ].
Qed.

(** X10.  [generate_jobs] fails before it touches anything: with a
    [group_size] below 1 (tested first, whatever the tasks), or with no
    task registered, it raises [RuntimeError] and leaves the submission, the
    generator of [random] and the trace as they were. *)
Theorem generate_jobs_rejects (s : Submission.t) (env : Env W G) :
  ((Resources.group_size (Submission.resources s) < 1)%Z ->
   generate_jobs (s, env) =
     (Raise (RuntimeError "group_size must be a positive number"), (s, env))) /\
  ((1 <= Resources.group_size (Submission.resources s))%Z ->
   Submission.belonging_tasks s = [] ->
   generate_jobs (s, env) =
     (Raise (RuntimeError "submission must have at least 1 task"), (s, env))).
Proof.
  split.
  - intro Hgs. unfold generate_jobs. msimpl.
    assert (E : (Resources.group_size (Submission.resources s) <? 1)%Z = true)
      by lia.
    rewrite E. reflexivity.
  - intros Hgs Ht. unfold generate_jobs. msimpl.
    assert (E : (Resources.group_size (Submission.resources s) <? 1)%Z = false)
      by lia.
    rewrite E, Ht. reflexivity.
Qed.

(** X11.  Once [generate_jobs] has run, the tasks are locked: every later
    [register_task] or [register_task_list] raises and changes nothing. *)
Theorem generate_jobs_then_register (s : Submission.t) (env : Env W G) :
  Submission.belonging_tasks s <> [] ->
  (1 <= Resources.group_size (Submission.resources s))%Z ->
  exists (s' : Submission.t) (env' : Env W G),
    generate_jobs (s, env) = (Ok tt, (s', env')) /\
    forall (task : Task.t) (task_list : list Task.t) (e : Env W G),
      (exists x, register_task task (s', e) = (Raise x, (s', e))) /\
      (exists x, register_task_list task_list (s', e) = (Raise x, (s', e))).
Proof.
  intros Hne Hgs.
  destruct (generate_jobs_run s env Hne Hgs) as (tls & Htls & Hrun).
  cbv zeta in Htls, Hrun.
  eexists. eexists. split; [ exact Hrun | ].
  assert (Htl : tls <> []).
  { intro E. subst tls. inversion Htls as [ Hnil | ]. symmetry in Hnil.
    apply map_eq_nil in Hnil.
    destruct (Submission.belonging_tasks s) as [ | t ts ];
      [ now contradiction Hne | ].
    cbn [List.length py_range Nat.ltb Nat.leb] in Hnil. discriminate Hnil. }
  intros task task_list e.
  unfold register_task, register_task_list. msimpl.
  cbn [Submission.belonging_jobs Submission.set_submission_hash
       Submission.set_belonging_jobs].
  destruct tls as [ | tl tls ]; [ now contradiction Htl | ].
  destruct (Submission.belonging_jobs s); cbn [app map truthy];
    split; eexists; reflexivity.
Qed.

End Partition.

(** ** handle_unexpected_submission_state, job by job *)

Section Handling.
Context {G W : Type} {std : PyStd G} {wld : World W}.

(** The handler acts on three states only. *)
Lemma handle_other_noop (j : Job.t) (env : Env W G) :
  Job.job_state j <> PStatus unknown ->
  Job.job_state j <> PStatus terminated ->
  Job.job_state j <> PStatus unsubmitted ->
  handle_unexpected_job_state (j, env) = (Ok tt, (j, env)).
Proof.
  intros H1 H2 H3. apply pyval_eqb_neq in H1, H2, H3.
  unfold handle_unexpected_job_state. msimpl. rewrite H1, H2, H3.
  reflexivity.
Qed.

Lemma run_jobs_noop (body : Meth Job.t unit) (js : list Job.t)
    (env : Env W G) :
  Forall (fun j => body (j, env) = (Ok tt, (j, env))) js ->
  run_jobs body js env = (Ok tt, (js, env)).
Proof.
  induction 1 as [ | j js Hj _ IH ]; cbn [run_jobs]; [ reflexivity | ].
  now rewrite Hj, IH.
Qed.

(** X12.  [handle_unexpected_submission_state] leaves alone every job
    whose state is not [unknown], [terminated] or [unsubmitted]: on a
    submission whose jobs are all waiting, running, completing or finished
    (or still carry [None], or a value read back from a snapshot) it
    submits nothing, prints nothing and changes nothing. *)
Theorem handle_submission_idle (s : Submission.t) (env : Env W G) :
  Forall (fun j => Job.job_state j <> PStatus unknown /\
                   Job.job_state j <> PStatus terminated /\
                   Job.job_state j <> PStatus unsubmitted)
         (Submission.belonging_jobs s) ->
  handle_unexpected_submission_state (s, env) = (Ok tt, (s, env)).
Proof.
  intro Hall. unfold handle_unexpected_submission_state, for_each_job.
  cbn [fst snd]. rewrite run_jobs_noop.
  - destruct s; reflexivity.
  - eapply Forall_impl; [ | exact Hall ].
    intros j (H1 & H2 & H3). now apply handle_other_noop.
Qed.

Lemma run_jobs_app (body : Meth Job.t unit) (js1 js2 js1' : list Job.t)
    (env env1 : Env W G) :
  run_jobs body js1 env = (Ok tt, (js1', env1)) ->
  run_jobs body (js1 ++ js2) env =
  (fst (run_jobs body js2 env1),
   (js1' ++ fst (snd (run_jobs body js2 env1)),
    snd (snd (run_jobs body js2 env1)))).
Proof.
  revert js1' env. induction js1 as [ | j js1 IH ]; intros js1' env H.
  - cbn [run_jobs] in H. inversion H; subst. cbn [app].
    destruct (run_jobs body js2 env1) as [r [js2' env2]]. reflexivity.
  - cbn [run_jobs app] in *.
    destruct (body (j, env)) as [[ [] | e ] [j' env']]; [ | discriminate H ].
    destruct (run_jobs body js1 env') as [r [rest env'']] eqn:E.
    inversion H; subst. rewrite (IH rest env' E).
    destruct (run_jobs body js2 env1) as [r2 [js2' env2]]. reflexivity.
Qed.

(** X13.  A job in the state [unknown] stops
    [handle_unexpected_submission_state] where it stands: the jobs before
    it keep what the handler did to them, the error names the [unknown]
    job, and the jobs after it are not handled. *)
Theorem handle_submission_stops_at_unknown (s : Submission.t)
    (env env1 : Env W G) (before before' after : list Job.t) (j : Job.t) :
  Submission.belonging_jobs s = before ++ j :: after ->
  run_jobs handle_unexpected_job_state before env = (Ok tt, (before', env1)) ->
  Job.job_state j = PStatus unknown ->
  handle_unexpected_submission_state (s, env) =
  (Raise (RuntimeError ("job_state for job " ++ Job.repr j ++ " is unknown")),
   (Submission.set_belonging_jobs (before' ++ j :: after) s, env1)).
Proof.
  intros Hjobs Hbefore Hst.
  unfold handle_unexpected_submission_state, for_each_job. cbn [fst snd].
  rewrite Hjobs, (run_jobs_app _ before (j :: after) before' env env1 Hbefore).
  cbn [run_jobs]. rewrite (handle_unknown_raises j env1 Hst). reflexivity.
Qed.

(** X14.  The first submission counts against the retry budget.  A job
    that is [unsubmitted] with [fail_count = 0] and that the batch reports
    [terminated] from then on is submitted by the first six handlings,
    once each (the first submission and five resubmissions), and every
    later handling raises with [fail_count = 6] and six submissions
    made. *)
Theorem unsubmitted_then_terminated (job : Job.t) (env : Env W G)
    (b : BatchRef) :
  (forall b' j w, fst (check_status b' j w) = terminated) ->
  Job.batch job = Some b ->
  Job.job_state job = PStatus unsubmitted ->
  Job.fail_count job = 0%Z ->
  (forall n, n <= 6 ->
     exists job' env',
       repeat_handle n (job, env) = (Ok tt, (job', env')) /\
       Job.fail_count job' = Z.of_nat n /\
       submits (trace env') =
         submits (trace env) ++ repeat (EvSubmit b (Job.job_hash job)) n) /\
  (forall n, 6 < n ->
     exists job' env',
       repeat_handle n (job, env) =
         (Raise (RuntimeError
                   ("job:job " ++ Job.repr job' ++ " failed 5 times")),
          (job', env')) /\
       Job.fail_count job' = 6%Z /\
       submits (trace env') =
         submits (trace env) ++ repeat (EvSubmit b (Job.job_hash job)) 6).
Proof.
  intros Hall Hb Hst Hfc.
  destruct (handle_unsubmitted_submit job env b Hb Hst) as (text & Hfirst);
    [ lia | ].
  destruct (resubmitted_fields b job (world env))
    as (Hfc1 & Hb1 & Hh1 & _ & _ & _).
  cbv zeta in Hfc1, Hb1, Hh1.
  pose proof (resubmitted_state b job (world env) terminated Hall) as Hst1.
  set (j1 := fst (resubmitted b job (world env))) in *.
  set (env1 := mkEnv (snd (resubmitted b job (world env))) (rng env)
                     (trace env ++ [ EvSubmit b (Job.job_hash job);
                                     EvPrint text;
                                     EvCheckStatus b (Job.job_hash job) ])) in *.
  assert (Hs1 : submits (trace env1) =
                submits (trace env) ++ [ EvSubmit b (Job.job_hash job) ]).
  { subst env1. cbn [trace]. rewrite submits_app. reflexivity. }
  rewrite Hb in Hb1.
  split.
  - intros [ | n ] Hn.
    + exists job, env. simpl. rewrite app_nil_r. repeat split. lia.
    + cbn [repeat_handle]. unfold bind. rewrite Hfirst.
      destruct (retry_within_budget b Hall n j1 env1 Hb1 Hst1)
        as (j' & env' & Hrun & Hfc' & _ & _ & Hh' & Hs'); [ lia | ].
      exists j', env'. split; [ exact Hrun | ]. split; [ lia | ].
      rewrite Hs', Hs1, Hh1, <- app_assoc. reflexivity.
  - intros n Hn.
    destruct (retry_within_budget b Hall 5 j1 env1 Hb1 Hst1)
      as (j6 & env6 & Hrun & Hfc6 & Hst6 & _ & Hh6 & Hs6); [ lia | ].
    replace n with (S (5 + S (n - 7))) by lia.
    cbn [repeat_handle]. unfold bind at 1. rewrite Hfirst.
    rewrite repeat_handle_app, Hrun. cbn [repeat_handle]. unfold bind.
    rewrite (handle_terminated_exhausted j6 env6 Hst6) by lia.
    eexists. eexists. split; [ reflexivity | ]. split; [ lia | ].
    cbn [trace]. rewrite submits_app. simpl. rewrite app_nil_r.
    rewrite Hs6, Hs1, Hh1, <- app_assoc. reflexivity.
Qed.

End Handling.

(** ** What the methods leave as it is *)

Section MovesGeneric.
Context {G W : Type} {O : Type}.
Variable K : O -> O -> Prop.
Variable C : O -> Prop.
Variable Q : Event -> Prop.
Hypothesis K_refl : forall o, K o o.
Hypothesis K_trans : forall o1 o2 o3, K o1 o2 -> K o2 o3 -> K o1 o3.
Hypothesis K_cond : forall o1 o2, K o1 o2 -> C o1 -> C o2.

Lemma moves_refl (st : O * Env W G) : moves K C Q st st.
Proof.
  split; [ apply K_refl | ]. exists []. split; [ now rewrite app_nil_r | ].
  intros _. constructor.
Qed.

Lemma moves_trans (st1 st2 st3 : O * Env W G) :
  moves K C Q st1 st2 -> moves K C Q st2 st3 -> moves K C Q st1 st3.
Proof.
  intros (Hk1 & evs1 & Ht1 & Hq1) (Hk2 & evs2 & Ht2 & Hq2).
  split; [ now apply (K_trans _ (fst st2)) | ].
  exists (evs1 ++ evs2). split; [ now rewrite Ht2, Ht1, app_assoc | ].
  intro Hc. apply Forall_app. split; [ now apply Hq1 | ].
  apply Hq2. now apply (K_cond (fst st1)).
Qed.

(** A bind moves as its two parts do. *)
Lemma moves_bind {A B : Type} (m : Meth O A) (k : A -> Meth O B)
    (st : O * Env W G) :
  moves K C Q st (snd (m st)) ->
  (forall a, fst (m st) = Ok a ->
             moves K C Q (snd (m st)) (snd (k a (snd (m st))))) ->
  moves K C Q st (snd (bind m k st)).
Proof.
  intros Hm Hk. unfold bind. destruct (m st) as [[ a | e ] st1].
  - cbn [fst snd] in *. apply (moves_trans _ st1); [ exact Hm | ].
    now apply Hk.
  - exact Hm.
Qed.

(** Reading [self] and going on. *)
Lemma moves_self {B : Type} (k : O -> Meth O B) (st : O * Env W G) :
  moves K C Q st (snd (k (fst st) st)) ->
  moves K C Q st (snd (bind self k st)).
Proof. intro H. exact H. Qed.

Lemma moves_ret {A : Type} (a : A) (st : O * Env W G) :
  moves K C Q st (snd (ret a st)).
Proof. apply moves_refl. Qed.

Lemma moves_raise {A : Type} (e : exn) (st : O * Env W G) :
  moves K C Q st (snd (raise (A := A) e st)).
Proof. apply moves_refl. Qed.

Lemma moves_lift_res {A : Type} (r : Res A) (st : O * Env W G) :
  moves K C Q st (snd (lift_res r st)).
Proof. apply moves_refl. Qed.

Lemma moves_the_batch (b : option BatchRef) (st : O * Env W G) :
  moves K C Q st (snd (the_batch b st)).
Proof. destruct b; apply moves_refl. Qed.

(** [the_batch] and [lift_res] leave the state as it is. *)
Lemma moves_bind_the_batch {B : Type} (b : option BatchRef)
    (k : BatchRef -> Meth O B) (st : O * Env W G) :
  (forall r, moves K C Q st (snd (k r st))) ->
  moves K C Q st (snd (bind (the_batch b) k st)).
Proof.
  intro H. destruct b as [ r | ]; [ apply H | apply moves_refl ].
Qed.

Lemma moves_bind_lift_res {A B : Type} (r : Res A) (k : A -> Meth O B)
    (st : O * Env W G) :
  (forall a, moves K C Q st (snd (k a st))) ->
  moves K C Q st (snd (bind (lift_res r) k st)).
Proof.
  intro H. destruct r as [ a | e ]; [ apply H | apply moves_refl ].
Qed.

Lemma moves_when (c : bool) (m : Meth O unit) (st : O * Env W G) :
  moves K C Q st (snd (m st)) -> moves K C Q st (snd (when c m st)).
Proof. intro H. destruct c; [ exact H | apply moves_refl ]. Qed.

Lemma moves_set_self (o : O) (st : O * Env W G) :
  K (fst st) o -> moves K C Q st (snd (set_self o st)).
Proof.
  intro Hk. split; [ exact Hk | ]. exists []. cbn [fst snd set_self].
  split; [ now rewrite app_nil_r | ]. intros _. constructor.
Qed.

Lemma moves_call {A : Type} (ev : Event) (f : W -> A * W)
    (st : O * Env W G) :
  (C (fst st) -> Q ev) -> moves K C Q st (snd (call ev f st)).
Proof.
  intro Hq. unfold call. destruct (f (world (snd st))) as [a w].
  cbn [fst snd]. split; [ apply K_refl | ].
  exists [ ev ]. cbn [trace]. split; [ reflexivity | ].
  intro Hc. constructor; [ now apply Hq | constructor ].
Qed.

Lemma moves_call_ (ev : Event) (f : W -> W) (st : O * Env W G) :
  (C (fst st) -> Q ev) -> moves K C Q st (snd (call_ ev f st)).
Proof. intro Hq. unfold call_. now apply moves_call. Qed.

Lemma moves_print (args : list string) (st : O * Env W G) :
  (forall text, Q (EvPrint text)) -> moves K C Q st (snd (print args st)).
Proof. intro Hq. unfold print. apply moves_call_. intros _. apply Hq. Qed.

End MovesGeneric.

(** A step along a relation and a class of events is a step along wider
    ones. *)
Lemma moves_mono {G W O : Type} (K K' : O -> O -> Prop) (C C' : O -> Prop)
    (Q Q' : Event -> Prop) (st st' : O * Env W G) :
  (forall o o', K o o' -> K' o o') ->
  (forall o, C' o -> C o) ->
  (forall ev, Q ev -> Q' ev) ->
  moves K C Q st st' -> moves K' C' Q' st st'.
Proof.
  intros HK HC HQ (Hk & evs & Ht & Hq). split; [ now apply HK | ].
  exists evs. split; [ exact Ht | ]. intro Hc.
  eapply Forall_impl; [ exact HQ | ]. apply Hq. now apply HC.
Qed.

Lemma always_True {O : Type} (K : O -> O -> Prop) :
  forall o1 o2 : O, K o1 o2 -> (fun _ : O => True) o1 -> (fun _ : O => True) o2.
Proof. intros; exact I. Qed.

Lemma job_frame_refl (j : Job.t) : job_frame j j.
Proof. repeat split. Qed.

Lemma job_frame_trans (j1 j2 j3 : Job.t) :
  job_frame j1 j2 -> job_frame j2 j3 -> job_frame j1 j3.
Proof.
  intros (A1 & A2 & A3 & A4 & A5) (B1 & B2 & B3 & B4 & B5).
  repeat split; congruence.
Qed.

Lemma job_observed_refl (j : Job.t) : job_observed j j.
Proof. repeat split. Qed.

Lemma job_observed_trans (j1 j2 j3 : Job.t) :
  job_observed j1 j2 -> job_observed j2 j3 -> job_observed j1 j3.
Proof.
  intros (A & A1 & A2) (B & B1 & B2).
  split; [ now apply (job_frame_trans j1 j2) | split; congruence ].
Qed.

Lemma job_observed_frame (j j' : Job.t) : job_observed j j' -> job_frame j j'.
Proof. now intros [H _]. Qed.

Lemma quiet_job_event (ev : Event) : quiet ev -> job_event ev.
Proof. destruct ev; simpl; auto. Qed.

Lemma job_event_no_write (ev : Event) : job_event ev -> no_write ev.
Proof. destruct ev; simpl; intro H; try reflexivity; contradiction. Qed.

Lemma job_event_snapshot_only (h : string) (ev : Event) :
  job_event ev -> snapshot_only h ev.
Proof. destruct ev; simpl; intro H; try exact I; contradiction. Qed.

Lemma quiet_no_submit (ev : Event) : quiet ev -> no_submit ev.
Proof. destruct ev; simpl; intro H; try reflexivity; contradiction. Qed.

(** One step of a proof that a method moves along a preorder: the
    plumbing of the monad is taken apart, the calls are left. *)
Ltac frame_step R T Cd :=
  lazymatch goal with
  | |- moves _ _ _ _ (snd (bind self _ _)) =>
      apply moves_self; cbv beta
  | |- moves _ _ _ _ (snd (bind (the_batch _) _ _)) =>
      apply (moves_bind_the_batch _ _ _ R); intro
  | |- moves _ _ _ _ (snd (bind (lift_res _) _ _)) =>
      apply (moves_bind_lift_res _ _ _ R); intro
  | |- moves _ _ _ _ (snd (bind _ _ _)) =>
      apply (moves_bind _ _ _ T Cd);
      [ | let a := fresh "a" in let Ha := fresh "Ha" in
          intros a Ha; try clear Ha;
          match goal with
          | |- moves _ _ _ ?st1 _ =>
              let st' := fresh "st" in
              generalize st1; intro st'
          end ]
  | |- moves _ _ _ _ (snd (ret _ _)) => apply (moves_ret _ _ _ R)
  | |- moves _ _ _ _ (snd (raise _ _)) => apply (moves_raise _ _ _ R)
  | |- moves _ _ _ _ (snd (lift_res _ _)) => apply (moves_lift_res _ _ _ R)
  | |- moves _ _ _ _ (snd (the_batch _ _)) => apply (moves_the_batch _ _ _ R)
  | |- moves _ _ _ _ (snd (when _ _ _)) => apply (moves_when _ _ _ R)
  | |- moves _ _ _ _ (snd (print _ _)) =>
      apply (moves_print _ _ _ R); intro; exact I
  end.

Section JobMoves.
Context {G W : Type} {std : PyStd G} {wld : World W}.

Ltac obs_step :=
  frame_step job_observed_refl job_observed_trans
             (always_True job_observed).

Ltac job_step :=
  frame_step job_frame_refl job_frame_trans (always_True job_frame).

(** [get_job_state] changes the state of the job and nothing else, and
    only looks. *)
Lemma get_job_state_moves (st : Job.t * Env W G) :
  moves job_observed (fun _ => True) quiet st (snd (get_job_state st)).
Proof.
  unfold get_job_state. repeat obs_step.
  - apply (moves_call _ _ _ job_observed_refl). intros _. exact I.
  - apply moves_set_self. repeat split.
Qed.

Lemma refresh_job_moves (st : Job.t * Env W G) :
  moves job_observed (fun _ => True) quiet st (snd (refresh_job st)).
Proof.
  unfold refresh_job. repeat obs_step. apply get_job_state_moves.
Qed.

Lemma get_job_state_moves_frame (st : Job.t * Env W G) :
  moves job_frame (fun _ => True) job_event st (snd (get_job_state st)).
Proof.
  eapply moves_mono; [ | | | apply get_job_state_moves ].
  - apply job_observed_frame.
  - auto.
  - apply quiet_job_event.
Qed.

Lemma submit_job_moves (st : Job.t * Env W G) :
  moves job_frame (fun _ => True) job_event st (snd (submit_job st)).
Proof.
  unfold submit_job, register_job_id. repeat job_step.
  - apply (moves_call _ _ _ job_frame_refl). intros _. exact I.
  - apply moves_set_self. repeat split.
Qed.

Lemma check_fail_count_moves (st : Job.t * Env W G) :
  moves job_frame (fun _ => True) job_event st (snd (check_fail_count st)).
Proof. unfold check_fail_count. repeat job_step. Qed.

Lemma incr_fail_count_moves (st : Job.t * Env W G) :
  moves job_frame (fun _ => True) job_event st (snd (incr_fail_count st)).
Proof.
  unfold incr_fail_count. repeat job_step. apply moves_set_self.
  repeat split.
Qed.

(** Whatever it does and however it ends,
    [handle_unexpected_job_state] changes the runtime triple of the job
    at most, and does nothing outside but look, print and submit. *)
Lemma handle_unexpected_job_state_moves (st : Job.t * Env W G) :
  moves job_frame (fun _ => True) job_event st
        (snd (handle_unexpected_job_state st)).
Proof.
  unfold handle_unexpected_job_state.
  repeat (first [ job_step
                | apply check_fail_count_moves
                | apply incr_fail_count_moves
                | apply submit_job_moves
                | apply get_job_state_moves_frame ]).
Qed.

End JobMoves.

Lemma Forall2_same {A : Type} (R : A -> A -> Prop) (l : list A) :
  (forall a, R a a) -> Forall2 R l l.
Proof. intro H. induction l; constructor; auto. Qed.

Lemma Forall2_chain {A : Type} (R : A -> A -> Prop) (l1 l2 l3 : list A) :
  (forall a b c, R a b -> R b c -> R a c) ->
  Forall2 R l1 l2 -> Forall2 R l2 l3 -> Forall2 R l1 l3.
Proof.
  intros HR H12. revert l3. induction H12 as [ | a b l1 l2 Hab _ IH ];
    intros l3 H23; inversion H23; subst; constructor.
  - now apply (HR a b).
  - now apply IH.
Qed.

Lemma Forall2_weaken {A C : Type} (R R' : A -> C -> Prop) (l1 : list A)
    (l2 : list C) :
  (forall a b, R a b -> R' a b) -> Forall2 R l1 l2 -> Forall2 R' l1 l2.
Proof. intros H. induction 1; constructor; auto. Qed.

Section SubmissionMoves.
Context {G W : Type} {std : PyStd G} {wld : World W}.

(** A loop over the jobs moves every job as its body does. *)
Lemma run_jobs_moves (Kj : Job.t -> Job.t -> Prop) (Q : Event -> Prop)
    (body : Meth Job.t unit) :
  (forall j, Kj j j) ->
  (forall st : Job.t * Env W G,
     moves Kj (fun _ => True) Q st (snd (body st))) ->
  forall (js : list Job.t) (env : Env W G),
    Forall2 Kj js (fst (snd (run_jobs body js env))) /\
    exists evs,
      trace (snd (snd (run_jobs body js env))) = trace env ++ evs /\
      Forall Q evs.
Proof.
  intros Hrefl Hbody js. induction js as [ | j js IH ]; intro env.
  - cbn [run_jobs fst snd]. split; [ constructor | ].
    exists []. split; [ now rewrite app_nil_r | constructor ].
  - cbn [run_jobs]. destruct (Hbody (j, env)) as (Hk & evs & Ht & Hq).
    destruct (body (j, env)) as [[ [] | e ] [j' env']]; cbn [fst snd] in *.
    + destruct (IH env') as (Hf & evs' & Ht' & Hq').
      destruct (run_jobs body js env') as [r [rest env'']].
      cbn [fst snd] in *. split; [ now constructor | ].
      exists (evs ++ evs'). split; [ now rewrite Ht', Ht, app_assoc | ].
      apply Forall_app. split; [ now apply Hq | exact Hq' ].
    + split; [ constructor; [ exact Hk | now apply Forall2_same ] | ].
      exists evs. split; [ exact Ht | now apply Hq ].
Qed.

Lemma for_each_job_moves (Kj : Job.t -> Job.t -> Prop)
    (Ks : Submission.t -> Submission.t -> Prop) (C : Submission.t -> Prop)
    (Q : Event -> Prop) (body : Meth Job.t unit) :
  (forall j, Kj j j) ->
  (forall s js', Forall2 Kj (Submission.belonging_jobs s) js' ->
                 Ks s (Submission.set_belonging_jobs js' s)) ->
  (forall st : Job.t * Env W G,
     moves Kj (fun _ => True) Q st (snd (body st))) ->
  forall st : Submission.t * Env W G,
    moves Ks C Q st (snd (for_each_job body st)).
Proof.
  intros Hrefl Hlift Hbody [s env]. unfold for_each_job. cbn [fst snd].
  destruct (run_jobs_moves Kj Q body Hrefl Hbody
              (Submission.belonging_jobs s) env) as (Hf & evs & Ht & Hq).
  destruct (run_jobs body (Submission.belonging_jobs s) env)
    as [r [js' env']].
  cbn [fst snd] in *. split; [ now apply Hlift | ].
  exists evs. split; [ exact Ht | intros _; exact Hq ].
Qed.

Lemma sub_frame_refl (s : Submission.t) : sub_frame s s.
Proof.
  repeat split. apply Forall2_same. apply job_frame_refl.
Qed.

Lemma sub_frame_trans (s1 s2 s3 : Submission.t) :
  sub_frame s1 s2 -> sub_frame s2 s3 -> sub_frame s1 s3.
Proof.
  intros (A1 & A2 & A3 & A4 & A5 & A6 & A7 & A8)
         (B1 & B2 & B3 & B4 & B5 & B6 & B7 & B8).
  repeat split; try congruence.
  eapply Forall2_chain; [ apply job_frame_trans | exact A8 | exact B8 ].
Qed.

Lemma sub_observed_refl (s : Submission.t) : sub_observed s s.
Proof.
  split; [ apply sub_frame_refl | ]. apply Forall2_same.
  apply job_observed_refl.
Qed.

Lemma sub_observed_trans (s1 s2 s3 : Submission.t) :
  sub_observed s1 s2 -> sub_observed s2 s3 -> sub_observed s1 s3.
Proof.
  intros [A1 A2] [B1 B2]. split; [ now apply (sub_frame_trans s1 s2) | ].
  eapply Forall2_chain; [ apply job_observed_trans | exact A2 | exact B2 ].
Qed.

Lemma sub_frame_lift (s : Submission.t) (js' : list Job.t) :
  Forall2 job_frame (Submission.belonging_jobs s) js' ->
  sub_frame s (Submission.set_belonging_jobs js' s).
Proof. intro H. repeat split. exact H. Qed.

Lemma sub_observed_lift (s : Submission.t) (js' : list Job.t) :
  Forall2 job_observed (Submission.belonging_jobs s) js' ->
  sub_observed s (Submission.set_belonging_jobs js' s).
Proof.
  intro H. split; [ | exact H ]. apply sub_frame_lift.
  eapply Forall2_weaken; [ apply job_observed_frame | exact H ].
Qed.

Lemma static_jobs_serialize (js js' : list Job.t) :
  Forall2 (fun j j' => same_static_job j j') js js' ->
  map (Job.serialize true) js' = map (Job.serialize true) js.
Proof. intro H. symmetry. now apply same_static_jobs_serialize. Qed.

Lemma sub_identity_refl (s : Submission.t) : sub_identity s s.
Proof. repeat split. Qed.

Lemma sub_identity_current (s s' : Submission.t) :
  sub_identity s s' -> hash_current s -> hash_current s'.
Proof.
  intros (Hs & _ & Hh) Hc. unfold hash_current in *.
  rewrite (Hh Hc), Hc. unfold Submission.get_hash. now rewrite Hs.
Qed.

Lemma sub_identity_trans (s1 s2 s3 : Submission.t) :
  sub_identity s1 s2 -> sub_identity s2 s3 -> sub_identity s1 s3.
Proof.
  intros H12 H23. pose proof (sub_identity_current s1 s2 H12) as Hc.
  destruct H12 as (A1 & A2 & A3). destruct H23 as (B1 & B2 & B3).
  repeat split; try congruence.
  intro H1. rewrite (B3 (Hc H1)). now apply A3.
Qed.

Lemma sub_identity_hash_is (h : string) (s s' : Submission.t) :
  sub_identity s s' -> hash_is h s -> hash_is h s'.
Proof.
  intros Hi [Hc Hh]. split; [ now apply (sub_identity_current s) | ].
  destruct Hi as (_ & _ & Hs). now rewrite (Hs Hc).
Qed.

Lemma sub_identity_lift (s : Submission.t) (js' : list Job.t) :
  Forall2 (fun j j' => same_static_job j j')
          (Submission.belonging_jobs s) js' ->
  sub_identity s (Submission.set_belonging_jobs js' s).
Proof.
  intro H. repeat split.
  apply Submission_serialize_fields; try reflexivity.
  cbn [Submission.belonging_jobs Submission.set_belonging_jobs].
  now apply static_jobs_serialize.
Qed.

Lemma job_frame_static (j j' : Job.t) : job_frame j j' -> same_static_job j j'.
Proof. intros (H1 & H2 & _). split; congruence. Qed.

Lemma sub_frame_identity (s s' : Submission.t) :
  sub_frame s s' -> sub_identity s s'.
Proof.
  intros (A1 & A2 & A3 & A4 & A5 & A6 & A7 & A8). repeat split.
  - apply Submission_serialize_fields; try assumption.
    apply static_jobs_serialize.
    eapply Forall2_weaken; [ apply job_frame_static | exact A8 ].
  - exact A6.
  - intros _. exact A5.
Qed.

Lemma sub_observed_frame (s s' : Submission.t) :
  sub_observed s s' -> sub_frame s s'.
Proof. now intros [H _]. Qed.

End SubmissionMoves.

Lemma quiet_observing (h : string) (ev : Event) : quiet ev -> observing h ev.
Proof. destruct ev; simpl; intro H; try exact I; contradiction. Qed.

Lemma observing_snapshot_only (h : string) (ev : Event) :
  observing h ev -> snapshot_only h ev.
Proof. destruct ev; simpl; intro H; try exact I; exact H. Qed.

Lemma observing_no_submit (h : string) (ev : Event) :
  observing h ev -> no_submit ev.
Proof. destruct ev; simpl; intro H; try reflexivity; contradiction. Qed.

Lemma no_write_snapshot_only (h : string) (ev : Event) :
  no_write ev -> snapshot_only h ev.
Proof. destruct ev; simpl; intro H; try exact I; discriminate. Qed.

Section MethodMoves.
Context {G W : Type} {std : PyStd G} {wld : World W}.

Lemma sub_observed_hash (h : string) (s s' : Submission.t) :
  sub_observed s s' ->
  Submission.submission_hash s = h -> Submission.submission_hash s' = h.
Proof. intros [(_ & _ & _ & _ & H & _) _] E. congruence. Qed.

Ltac look_step h :=
  frame_step sub_observed_refl sub_observed_trans (sub_observed_hash h).

Ltac run_step h :=
  frame_step (sub_identity_refl (std := std))
             (sub_identity_trans (std := std))
             (sub_identity_hash_is (std := std) h).

(** [get_submission_state] changes the states of the jobs and nothing
    else, and only looks. *)
Lemma get_submission_state_moves (C : Submission.t -> Prop)
    (st : Submission.t * Env W G) :
  moves sub_observed C quiet st (snd (get_submission_state st)).
Proof.
  unfold get_submission_state.
  apply (for_each_job_moves job_observed).
  - apply job_observed_refl.
  - apply sub_observed_lift.
  - apply refresh_job_moves.
Qed.

Lemma get_submission_state_looks (h : string) (C : Submission.t -> Prop)
    (st : Submission.t * Env W G) :
  moves sub_observed C (observing h) st (snd (get_submission_state st)).
Proof.
  apply (moves_mono sub_observed sub_observed C C quiet (observing h));
    [ auto | auto | apply quiet_observing
    | apply get_submission_state_moves ].
Qed.

Lemma submission_to_json_moves (h : string) (st : Submission.t * Env W G) :
  moves sub_observed (fun s => Submission.submission_hash s = h)
        (observing h) st (snd (submission_to_json st)).
Proof.
  unfold submission_to_json. repeat look_step h.
  - apply get_submission_state_looks.
  - apply (moves_call_ _ _ _ sub_observed_refl). intro E. simpl.
    now rewrite E.
Qed.

Lemma check_all_finished_moves (h : string) (st : Submission.t * Env W G) :
  moves sub_observed (fun s => Submission.submission_hash s = h)
        (observing h) st (snd (check_all_finished st)).
Proof.
  unfold check_all_finished. repeat look_step h.
  - apply get_submission_state_looks.
  - apply submission_to_json_moves.
  - match goal with
    | |- context [ if ?c then _ else _ ] => destruct c
    end; look_step h.
Qed.

Lemma look_to_run (h : string) (st st' : Submission.t * Env W G) :
  moves sub_observed (fun s => Submission.submission_hash s = h)
        (observing h) st st' ->
  moves sub_identity (hash_is h) (snapshot_only h) st st'.
Proof.
  apply moves_mono.
  - intros s s' H. apply sub_frame_identity. now apply sub_observed_frame.
  - now intros s [_ H].
  - apply observing_snapshot_only.
Qed.

(** [bind_batch] keeps the identity and writes nothing. *)
Lemma bind_batch_moves (h : string) (C : Submission.t -> Prop)
    (batch : option BatchRef) (st : Submission.t * Env W G) :
  moves sub_identity C (snapshot_only h) st (snd (bind_batch batch st)).
Proof.
  apply (moves_mono sub_identity sub_identity (fun _ => True) C
                    (snapshot_only h) (snapshot_only h)); auto.
  unfold bind_batch.
  repeat frame_step (sub_identity_refl (std := std))
                    (sub_identity_trans (std := std))
                    (always_True (sub_identity (std := std))).
  - apply moves_set_self. repeat split. intro Hc. symmetry. exact Hc.
  - apply moves_set_self. repeat split.
  - apply (for_each_job_moves (fun j j' => same_static_job j j')).
    + intro j. split; reflexivity.
    + apply sub_identity_lift.
    + intros sj. apply moves_self. apply moves_set_self.
      split; reflexivity.
  - destruct batch as [ b | ].
    + apply moves_self.
      apply (moves_call_ _ _ _ (sub_identity_refl (std := std))).
      intros _. exact I.
    + apply (moves_ret _ _ _ (sub_identity_refl (std := std))).
Qed.

Lemma on_object_moves {O A : Type} (K K' : O -> O -> Prop) (C : O -> Prop)
    (Q : Event -> Prop) (o : O) (m : Meth O A) (st : O * Env W G) :
  (forall x, K x x) ->
  moves K' (fun _ => True) Q (o, snd st) (snd (m (o, snd st))) ->
  moves K C Q st (snd (on_object o m st)).
Proof.
  intros Hrefl (_ & evs & Ht & Hq). unfold on_object.
  destruct (m (o, snd st)) as [r [o' env']]. cbn [fst snd] in *.
  split; [ apply Hrefl | ]. exists evs. split; [ exact Ht | ].
  intros _. now apply Hq.
Qed.

Lemma try_recover_from_json_moves (h : string)
    (st : Submission.t * Env W G) :
  moves sub_identity (hash_is h) (snapshot_only h) st
        (snd (try_recover_from_json st)).
Proof.
  unfold try_recover_from_json. repeat run_step h.
  - apply (moves_call _ _ _ (sub_identity_refl (std := std))).
    intros _. exact I.
  - destruct a; [ | run_step h ]. repeat run_step h.
    + apply (moves_call _ _ _ (sub_identity_refl (std := std))).
      intros _. exact I.
    + destruct (Submission.eq (fst st1) a1) eqn:E.
      * repeat run_step h.
        -- apply moves_set_self.
           apply Submission_eq_jobs in E. repeat split.
           apply Submission_serialize_fields; try reflexivity.
           cbn [Submission.belonging_jobs Submission.set_belonging_jobs].
           now rewrite E.
        -- apply bind_batch_moves.
        -- apply (on_object_moves sub_identity sub_identity).
           ++ apply sub_identity_refl.
           ++ apply bind_batch_moves.
      * repeat run_step h.
Qed.

Lemma upload_jobs_moves (h : string) (st : Submission.t * Env W G) :
  moves sub_identity (hash_is h) (snapshot_only h) st
        (snd (upload_jobs st)).
Proof.
  unfold upload_jobs. repeat run_step h.
  apply (moves_call_ _ _ _ (sub_identity_refl (std := std))).
  intros _. exact I.
Qed.

Lemma download_jobs_moves (h : string) (st : Submission.t * Env W G) :
  moves sub_identity (hash_is h) (snapshot_only h) st
        (snd (download_jobs st)).
Proof.
  unfold download_jobs. repeat run_step h.
  apply (moves_call_ _ _ _ (sub_identity_refl (std := std))).
  intros _. exact I.
Qed.

(** [handle_unexpected_submission_state] changes the runtime triples of
    the jobs at most, and looks, prints and submits. *)
Lemma handle_unexpected_submission_state_moves (C : Submission.t -> Prop)
    (st : Submission.t * Env W G) :
  moves sub_frame C job_event st
        (snd (handle_unexpected_submission_state st)).
Proof.
  unfold handle_unexpected_submission_state.
  apply (for_each_job_moves job_frame).
  - apply job_frame_refl.
  - apply sub_frame_lift.
  - apply handle_unexpected_job_state_moves.
Qed.

Lemma handle_submission_runs (h : string) (st : Submission.t * Env W G) :
  moves sub_identity (hash_is h) (snapshot_only h) st
        (snd (handle_unexpected_submission_state st)).
Proof.
  apply (moves_mono sub_frame sub_identity (hash_is h) (hash_is h)
                    job_event (snapshot_only h));
    [ apply sub_frame_identity | auto | apply job_event_snapshot_only
    | apply handle_unexpected_submission_state_moves ].
Qed.

Lemma interrupted_moves (h label : string) (code : Z)
    (st : Submission.t * Env W G) :
  moves sub_identity (hash_is h) (snapshot_only h) st
        (snd (interrupted label code st)).
Proof.
  unfold interrupted, py_exit. repeat run_step h.
  apply look_to_run. apply submission_to_json_moves.
Qed.

Lemma poll_iteration_moves (h : string) (st : Submission.t * Env W G) :
  moves sub_identity (hash_is h) (snapshot_only h) st
        (snd (poll_iteration st)).
Proof.
  unfold poll_iteration, time_sleep. run_step h.
  - apply (moves_call _ _ _ (sub_identity_refl (std := std))).
    intros _. exact I.
  - destruct a as [ e | ]; [ | apply handle_submission_runs ].
    destruct (class_of e); try apply interrupted_moves. run_step h.
Qed.

Lemma polling_loop_moves (h : string) (fuel : nat) :
  forall st : Submission.t * Env W G,
    moves sub_identity (hash_is h) (snapshot_only h) st
          (snd (polling_loop fuel st)).
Proof.
  induction fuel as [ | fuel IH ]; intro st; cbn [polling_loop].
  - run_step h.
  - run_step h.
    + apply look_to_run. apply check_all_finished_moves.
    + destruct a; [ run_step h | ]. run_step h.
      * apply poll_iteration_moves.
      * apply IH.
Qed.

Lemma run_submission_prologue_moves (h : string)
    (st : Submission.t * Env W G) :
  moves sub_identity (hash_is h) (snapshot_only h) st
        (snd (run_submission_prologue st)).
Proof.
  unfold run_submission_prologue. repeat run_step h.
  - apply try_recover_from_json_moves.
  - apply look_to_run. apply check_all_finished_moves.
  - destruct a0; repeat run_step h.
    + apply upload_jobs_moves.
    + apply handle_submission_runs.
Qed.

Lemma run_submission_moves (h : string) (fuel : nat)
    (st : Submission.t * Env W G) :
  moves sub_identity (hash_is h) (snapshot_only h) st
        (snd (run_submission fuel st)).
Proof.
  unfold run_submission. repeat run_step h.
  - apply run_submission_prologue_moves.
  - apply polling_loop_moves.
  - destruct a0; repeat run_step h.
    + apply handle_submission_runs.
    + apply look_to_run. apply submission_to_json_moves.
    + apply download_jobs_moves.
Qed.

End MethodMoves.

(** ** What a run leaves as it is *)

Section RunProperties.
Context {G W : Type} {std : PyStd G} {wld : World W}.

(** X15.  However [run_submission] ends -- normally, by an exit code,
    by an exception or out of fuel -- the submission it leaves is equal
    to the one it was called on under [__eq__], has the same hash and the
    same registered tasks, and keeps its [submission_hash] when that was
    current. *)
Theorem run_submission_keeps_identity (fuel : nat) (s : Submission.t)
    (env : Env W G) :
  let s' := fst (snd (run_submission fuel (s, env))) in
  Submission.eq s s' = true /\
  Submission.get_hash s' = Submission.get_hash s /\
  Submission.belonging_tasks s' = Submission.belonging_tasks s /\
  (hash_current s ->
   Submission.submission_hash s' = Submission.submission_hash s).
Proof.
  destruct (run_submission_moves (Submission.submission_hash s) fuel (s, env))
    as ((Hs & Ht & Hh) & _).
  cbn [fst snd] in *. cbv zeta. repeat split.
  - apply Submission_eq_serialize. now rewrite Hs.
  - unfold Submission.get_hash. now rewrite Hs.
  - exact Ht.
  - exact Hh.
Qed.

(** X16.  On a submission whose [submission_hash] is current, every
    file that [run_submission] writes, however it ends, is the snapshot
    [{submission_hash}.json]. *)
Theorem run_submission_writes_snapshot_only (fuel : nat) (s : Submission.t)
    (env : Env W G) :
  hash_current s ->
  exists evs,
    trace (snd (snd (run_submission fuel (s, env)))) = trace env ++ evs /\
    forall b name content,
      In (EvWriteFile b name content) evs ->
      name = (Submission.submission_hash s ++ ".json")%string.
Proof.
  intro Hc.
  destruct (run_submission_moves (Submission.submission_hash s) fuel (s, env))
    as (_ & evs & Ht & Hq).
  cbn [fst snd] in *. exists evs. split; [ exact Ht | ].
  intros b name content Hin.
  assert (Hall : Forall (snapshot_only (Submission.submission_hash s)) evs).
  { apply Hq. split; [ exact Hc | reflexivity ]. }
  rewrite Forall_forall in Hall. exact (Hall _ Hin).
Qed.

(** X17.  [check_all_finished] is an observer: however it ends, it
    changes nothing of the submission but the [job_state] of its jobs
    ([job_id], [fail_count], hashes, tasks and batch stay), and outside
    it only asks for states, prints, and writes the snapshot file. *)
Theorem check_all_finished_observes (s : Submission.t) (env : Env W G) :
  let st' := snd (check_all_finished (s, env)) in
  sub_observed s (fst st') /\
  exists evs,
    trace (snd st') = trace env ++ evs /\
    Forall (observing (Submission.submission_hash s)) evs.
Proof.
  destruct (check_all_finished_moves (Submission.submission_hash s) (s, env))
    as (Hk & evs & Ht & Hq).
  cbn [fst snd] in *. cbv zeta. split; [ exact Hk | ].
  exists evs. split; [ exact Ht | now apply Hq ].
Qed.

(** X18.  [handle_unexpected_submission_state], however it ends,
    changes the runtime triples of the jobs at most, and outside it only
    asks for states, prints and submits: it writes no file, uploads and
    downloads nothing. *)
Theorem handle_submission_frame (s : Submission.t) (env : Env W G) :
  let st' := snd (handle_unexpected_submission_state (s, env)) in
  sub_frame s (fst st') /\
  exists evs,
    trace (snd st') = trace env ++ evs /\
    Forall job_event evs /\
    writes evs = [].
Proof.
  destruct (handle_unexpected_submission_state_moves (fun _ => True) (s, env))
    as (Hk & evs & Ht & Hq).
  cbn [fst snd] in *. cbv zeta. split; [ exact Hk | ].
  exists evs. split; [ exact Ht | ]. specialize (Hq I).
  split; [ exact Hq | ].
  clear Ht. induction Hq as [ | ev evs Hev _ IH ]; [ reflexivity | ].
  unfold writes in *. cbn [filter].
  rewrite (job_event_no_write ev Hev). exact IH.
Qed.

End RunProperties.

(** ** How the loop is left *)

Section LoopExit.
Context {G W : Type} {std : PyStd G} {wld : World W}.

Lemma bind_run {S A C : Type} (m : M S A) (k : A -> M S C) (s : S) :
  bind m k s =
  match m s with
  | (Ok a, s') => k a s'
  | (Raise e, s') => (Raise e, s')
  end.
Proof. reflexivity. Qed.

Lemma refresh_job_status (j : Job.t) (env : Env W G) :
  fst (refresh_job (j, env)) = Ok tt ->
  has_status (fst (snd (refresh_job (j, env)))).
Proof.
  unfold refresh_job, get_job_state. msimpl.
  destruct (Job.batch j) as [ b | ]; msimpl; [ | discriminate ].
  destruct (check_status b j (world env)) as [x w]. msimpl.
  intros _. now exists x.
Qed.

Lemma run_jobs_refresh_status (js : list Job.t) :
  forall env : Env W G,
    fst (run_jobs refresh_job js env) = Ok tt ->
    Forall has_status (fst (snd (run_jobs refresh_job js env))).
Proof.
  induction js as [ | j js IH ]; intros env H; cbn [run_jobs] in *.
  - constructor.
  - pose proof (refresh_job_status j env) as Hj.
    destruct (refresh_job (j, env)) as [[ [] | e ] [j' env']];
      cbn [fst snd] in *; [ | discriminate H ].
    specialize (IH env').
    destruct (run_jobs refresh_job js env') as [r [js' env'']].
    cbn [fst snd] in *. constructor; [ now apply Hj | now apply IH ].
Qed.

Lemma get_submission_state_status (st : Submission.t * Env W G) :
  fst (get_submission_state st) = Ok tt ->
  Forall has_status
         (Submission.belonging_jobs (fst (snd (get_submission_state st)))).
Proof.
  unfold get_submission_state, for_each_job.
  pose proof (run_jobs_refresh_status
                (Submission.belonging_jobs (fst st)) (snd st)) as H.
  destruct (run_jobs refresh_job (Submission.belonging_jobs (fst st))
                     (snd st)) as [r [js' env']].
  cbn [fst snd] in *. exact H.
Qed.

Lemma submission_to_json_status (st : Submission.t * Env W G) :
  fst (submission_to_json st) = Ok tt ->
  Forall has_status
         (Submission.belonging_jobs (fst (snd (submission_to_json st)))).
Proof.
  unfold submission_to_json. rewrite bind_run.
  pose proof (get_submission_state_status st) as H.
  destruct (get_submission_state st) as [[ [] | e ] [s1 env1]];
    cbn [fst snd] in *; [ | discriminate ].
  msimpl. destruct (Submission.batch s1); msimpl; [ | discriminate ].
  intros _. now apply H.
Qed.

Lemma bind_self {O A : Type} (k : O -> Meth O A) (st : O * Env W G) :
  bind self k st = k (fst st) st.
Proof. reflexivity. Qed.

Lemma check_all_finished_run (st : Submission.t * Env W G) :
  check_all_finished st =
  match get_submission_state st with
  | (Ok _, st1) =>
      match when (existsb (state_in [ terminated; unknown ])
                          (Submission.belonging_jobs (fst st1)))
                 submission_to_json st1 with
      | (Ok _, st2) =>
          (Ok (negb (existsb (state_in [ running; waiting; unsubmitted;
                                         completing; terminated; unknown ])
                             (Submission.belonging_jobs (fst st2)))), st2)
      | (Raise e, st2) => (Raise e, st2)
      end
  | (Raise e, st1) => (Raise e, st1)
  end.
Proof.
  unfold check_all_finished. rewrite bind_run.
  destruct (get_submission_state st) as [[ [] | e ] st1]; [ | reflexivity ].
  rewrite bind_self, bind_run.
  destruct (when _ submission_to_json st1) as [[ [] | e ] st2];
    [ | reflexivity ].
  rewrite bind_self. now destruct (existsb _ _).
Qed.

(** When [check_all_finished] answers true, every job is finished. *)
Lemma check_all_finished_true (st : Submission.t * Env W G) :
  fst (check_all_finished st) = Ok true ->
  Forall (fun j => Job.job_state j = PStatus finished)
         (Submission.belonging_jobs (fst (snd (check_all_finished st)))).
Proof.
  rewrite check_all_finished_run.
  pose proof (get_submission_state_status st) as H1.
  destruct (get_submission_state st) as [[ [] | e ] [s1 env1]];
    cbn [fst snd] in *; [ | discriminate ].
  specialize (H1 eq_refl). unfold when.
  assert (H2 : Forall has_status
                 (Submission.belonging_jobs
                    (fst (snd ((if existsb (state_in [ terminated; unknown ])
                                           (Submission.belonging_jobs s1)
                                then submission_to_json
                                else ret tt) (s1, env1))))) \/
               exists e,
                 fst ((if existsb (state_in [ terminated; unknown ])
                                  (Submission.belonging_jobs s1)
                       then submission_to_json
                       else ret tt) (s1, env1)) = Raise e).
  { destruct (existsb (state_in [ terminated; unknown ])
                      (Submission.belonging_jobs s1)).
    - pose proof (submission_to_json_status (s1, env1)) as H2.
      destruct (submission_to_json (s1, env1)) as [[ [] | e ] st2];
        cbn [fst snd] in *; [ left; now apply H2 | right; now exists e ].
    - left. exact H1. }
  destruct ((if existsb (state_in [ terminated; unknown ])
                        (Submission.belonging_jobs s1)
             then submission_to_json
             else ret tt) (s1, env1)) as [[ [] | e ] [s2 env2]];
    cbn [fst snd] in *; [ | discriminate ].
  destruct H2 as [ H2 | [e He] ]; [ | discriminate He ].
  intro H. apply none_alive_all_finished; [ exact H2 | ].
  destruct (existsb _ (Submission.belonging_jobs s2));
    [ discriminate H | reflexivity ].
Qed.

(** X19.  When the polling loop of [run_submission] is left normally,
    every job of the submission is in the state [finished]; with no
    fuel left the answer is another one. *)
Theorem polling_loop_left_finished (fuel : nat) (s : Submission.t)
    (env : Env W G) :
  fst (polling_loop fuel (s, env)) = Ok true ->
  Forall (fun j => Job.job_state j = PStatus finished)
         (Submission.belonging_jobs
            (fst (snd (polling_loop fuel (s, env))))).
Proof.
  generalize (s, env). clear s env.
  induction fuel as [ | fuel IH ]; intros st; cbn [polling_loop].
  - msimpl. discriminate.
  - rewrite bind_run.
    pose proof (check_all_finished_true st) as Hc.
    destruct (check_all_finished st) as [[ fin | e ] st1];
      cbn [fst snd] in *; [ | discriminate ].
    destruct fin.
    + intros _. now apply Hc.
    + rewrite bind_run.
      destruct (poll_iteration st1) as [[ [] | e ] st2];
        cbn [fst snd]; [ apply IH | discriminate ].
Qed.

End LoopExit.

Section RunEnd.
Context {G W : Type} {std : PyStd G} {wld : World W}.

Lemma moves_trace {O : Type} (K : O -> O -> Prop) (C : O -> Prop)
    (Q : Event -> Prop) (st st' : O * Env W G) :
  moves K C Q st st' ->
  exists evs, trace (snd st') = trace (snd st) ++ evs.
Proof. intros (_ & evs & Ht & _). now exists evs. Qed.

(** A snapshot that was written holds the submission as the call left
    it. *)
Lemma submission_to_json_written (st st' : Submission.t * Env W G) :
  submission_to_json st = (Ok tt, st') ->
  exists b evs,
    Submission.batch (fst st') = Some b /\
    trace (snd st') =
      trace (snd st) ++ evs ++
      [ EvWriteFile b (Submission.submission_hash (fst st') ++ ".json")%string
                    (json_dumps (Submission.serialize false (fst st'))) ].
Proof.
  unfold submission_to_json. rewrite bind_run.
  destruct (moves_trace _ _ _ _ _
              (get_submission_state_moves (fun _ => True) st))
    as [evs Ht].
  destruct (get_submission_state st) as [[ [] | e ] [s1 env1]];
    [ | discriminate ].
  cbn [fst snd] in Ht. rewrite bind_self. cbn [fst].
  destruct (Submission.batch s1) as [ b | ] eqn:Eb; msimpl;
    [ | discriminate ].
  intro H. inversion H; subst; clear H. cbn [fst snd trace].
  exists b, evs. split; [ exact Eb | ].
  now rewrite Ht, app_assoc.
Qed.

(** X20.  A run that ends normally ends by writing the snapshot and
    then downloading: the last two calls are the write of
    [{submission_hash}.json], whose content is the serialization of the
    submission as the run leaves it, and the download. *)
Theorem run_submission_ends_with_download (fuel : nat)
    (s s' : Submission.t) (env env' : Env W G) :
  run_submission fuel (s, env) = (Ok (Some true), (s', env')) ->
  exists b evs,
    Submission.batch s' = Some b /\
    trace env' =
      trace env ++ evs ++
      [ EvWriteFile b (Submission.submission_hash s' ++ ".json")%string
                    (json_dumps (Submission.serialize false s'));
        EvDownload b (Submission.submission_hash s') ].
Proof.
  unfold run_submission. rewrite bind_run.
  destruct (moves_trace _ _ _ _ _
              (run_submission_prologue_moves "" (s, env))) as [ev1 Ht1].
  destruct (run_submission_prologue (s, env)) as [[ [] | e ] st1];
    [ | discriminate ].
  rewrite bind_run.
  destruct (moves_trace _ _ _ _ _ (polling_loop_moves "" fuel st1))
    as [ev2 Ht2].
  destruct (polling_loop fuel st1) as [[ [ | ] | e ] st2];
    [ | discriminate | discriminate ].
  rewrite bind_run.
  destruct (moves_trace _ _ _ _ _ (handle_submission_runs "" st2))
    as [ev3 Ht3].
  destruct (handle_unexpected_submission_state st2) as [[ [] | e ] st3];
    [ | discriminate ].
  rewrite bind_run.
  pose proof (submission_to_json_written st3) as Hw.
  destruct (submission_to_json st3) as [[ [] | e ] [s4 env4]];
    [ | discriminate ].
  destruct (Hw _ eq_refl) as (b & ev4 & Hb & Ht4). clear Hw.
  cbn [fst snd] in *. unfold download_jobs. msimpl. rewrite Hb. msimpl.
  intro H. inversion H; subst; clear H. cbn [trace].
  exists b, (ev1 ++ ev2 ++ ev3 ++ ev4). split; [ exact Hb | ].
  rewrite Ht4, Ht3, Ht2, Ht1. now rewrite <- !app_assoc.
Qed.

End RunEnd.

(** ** Submitting every job *)

Section Submitting.
Context {G W : Type} {std : PyStd G} {wld : World W}.

Lemma run_jobs_submit (js : list Job.t) :
  forall env : Env W G,
    Forall bound js ->
    exists js' env',
      run_jobs submit_job js env = (Ok tt, (js', env')) /\
      Forall2 (fun j j' => job_frame j j' /\
                           Job.job_state j' = Job.job_state j /\
                           Job.fail_count j' = Job.fail_count j) js js' /\
      trace env' = trace env ++ job_submissions js.
Proof.
  induction js as [ | j js IH ]; intros env Hb.
  - exists [], env. cbn [run_jobs]. split; [ reflexivity | ].
    split; [ constructor | ]. unfold job_submissions. cbn [flat_map].
    now rewrite app_nil_r.
  - inversion Hb as [ | ? ? Hj Hrest ]; subst.
    unfold bound in Hj. destruct (Job.batch j) as [ b | ] eqn:Eb;
      [ clear Hj | congruence ].
    cbn [run_jobs]. rewrite (submit_job_run j env b Eb).
    destruct (IH (mkEnv (snd (do_submit b j (world env))) (rng env)
                        (trace env ++ [ EvSubmit b (Job.job_hash j) ]))
                 Hrest) as (js' & env' & Hrun & Hf & Ht).
    rewrite Hrun. eexists _, env'. split; [ reflexivity | ].
    split.
    + constructor; [ | exact Hf ]. repeat split.
    + rewrite Ht. cbn [trace]. unfold job_submissions. cbn [flat_map].
      rewrite Eb. now rewrite <- app_assoc.
Qed.

Lemma job_submissions_submits (js : list Job.t) :
  submits (job_submissions js) = job_submissions js /\
  writes (job_submissions js) = [].
Proof.
  unfold job_submissions.
  induction js as [ | j js [IH1 IH2] ]; [ split; reflexivity | ].
  cbn [flat_map]. destruct (Job.batch j); cbn [app]; [ | now split ].
  unfold submits, writes in *. cbn [filter is_submit is_write].
  now rewrite IH1, IH2.
Qed.

Lemma run_jobs_submit_bound (js : list Job.t) :
  forall env : Env W G,
    fst (run_jobs submit_job js env) = Ok tt -> Forall bound js.
Proof.
  induction js as [ | j js IH ]; intros env H; [ constructor | ].
  cbn [run_jobs] in H.
  assert (Hj : fst (submit_job (j, env)) = Ok tt -> bound j).
  { unfold submit_job, bind, self, the_batch, raise, bound. cbn [fst snd].
    destruct (Job.batch j); [ discriminate | ]. cbn [fst]. discriminate. }
  destruct (submit_job (j, env)) as [[ [] | e ] [j' env1]];
    cbn [fst snd] in *; [ | discriminate H ].
  constructor; [ now apply Hj | ]. apply (IH env1).
  destruct (run_jobs submit_job js env1) as [r [js' env2]]. exact H.
Qed.

(** The submitted jobs carry the ids that [do_submit] returned, each
    call made in the world that the call before it left. *)
Lemma run_jobs_submit_handed (js : list Job.t) :
  forall env : Env W G,
    Forall bound js ->
    fst (snd (run_jobs submit_job js env)) = fst (handed_in js (world env)) /\
    world (snd (snd (run_jobs submit_job js env))) =
      snd (handed_in js (world env)).
Proof.
  induction js as [ | j js IH ]; intros env Hb; [ split; reflexivity | ].
  inversion Hb as [ | ? ? Hj Hjs ]; subst.
  unfold bound in Hj. destruct (Job.batch j) as [ b | ] eqn:Eb;
    [ | contradiction ].
  cbn [run_jobs handed_in]. rewrite (submit_job_run j env b Eb), Eb.
  specialize (IH (mkEnv (snd (do_submit b j (world env))) (rng env)
                        (trace env ++ [ EvSubmit b (Job.job_hash j) ])) Hjs).
  cbn [world] in IH.
  destruct (do_submit b j (world env)) as [x w1]. cbn [fst snd] in *.
  destruct (run_jobs submit_job js _) as [r [js' env2]].
  destruct (handed_in js w1) as [rest' w2]. cbn [fst snd] in *.
  destruct IH as [IH1 IH2]. subst. split; reflexivity.
Qed.

Lemma status_checks_frame (js js' : list Job.t) :
  Forall2 job_frame js js' -> status_checks js' = status_checks js.
Proof.
  unfold status_checks.
  induction 1 as [ | j j' l l' (_ & _ & Hb & Hh & _) _ IH ];
    [ reflexivity | ].
  cbn [flat_map]. now rewrite Hb, Hh, IH.
Qed.

(** X22.  A call of [submit_submission] that returns has submitted every
    job exactly once, in the order of [belonging_jobs], each job keeping
    the id that [do_submit] returned for it, and has then asked every job
    for its state once, in the same order, each job keeping the answer of
    [check_status].  [fail_count] is not changed, nothing of the
    submission but [job_id] and [job_state] of the jobs is touched, and no
    file is written. *)
Theorem submit_submission_submits_each (s s' : Submission.t)
    (env env' : Env W G) :
  submit_submission (s, env) = (Ok tt, (s', env')) ->
  let js := Submission.belonging_jobs s in
  let js1 := fst (handed_in js (world env)) in
  let w1 := snd (handed_in js (world env)) in
  Forall bound js /\
  s' = Submission.set_belonging_jobs (fst (asked js1 w1)) s /\
  world env' = snd (asked js1 w1) /\
  Forall2 (fun j j' => job_frame j j' /\
                       Job.fail_count j' = Job.fail_count j)
          js (Submission.belonging_jobs s') /\
  exists evs,
    trace env' = trace env ++ job_submissions js ++ evs /\
    checks evs = status_checks js /\
    submits evs = [] /\
    writes evs = [].
Proof.
  intro H. cbv zeta. unfold submit_submission in H. rewrite bind_run in H.
  unfold for_each_job at 1 in H. cbn [fst snd] in H.
  assert (Hb : Forall bound (Submission.belonging_jobs s)).
  { apply (run_jobs_submit_bound _ env).
    destruct (run_jobs submit_job (Submission.belonging_jobs s) env)
      as [[ [] | e ] [js' env1]]; [ reflexivity | discriminate H ]. }
  destruct (run_jobs_submit_handed (Submission.belonging_jobs s) env Hb)
    as [Hh Hw].
  destruct (run_jobs_submit (Submission.belonging_jobs s) env Hb)
    as (js1 & env1 & Hrun & Hf1 & Ht1).
  rewrite Hrun in H, Hh, Hw. cbn [fst snd] in H, Hh, Hw.
  destruct (get_submission_state_asked _ _ _ _ H)
    as (Hb1 & Hs' & Hw' & evs & Ht & Hc & Hwr & Hs).
  cbn [Submission.belonging_jobs Submission.set_belonging_jobs] in *.
  rewrite Hw, Hh in Hs'. rewrite Hw, Hh in Hw'.
  split; [ exact Hb | ].
  split; [ rewrite Hs'; destruct s; reflexivity | ].
  split; [ exact Hw' | ].
  split.
  { destruct (get_submission_state_run
                (Submission.set_belonging_jobs js1 s) env1 Hb1)
      as (js2 & env2 & evs2 & Hrun2 & Hf2 & _).
    rewrite H in Hrun2. inversion Hrun2; subst s' env2. clear Hrun2.
    cbn [Submission.belonging_jobs Submission.set_belonging_jobs] in *.
    clear - Hf1 Hf2. revert js2 Hf2.
    induction Hf1 as [ | j j1 js js1 (Hfr & _ & Hfc) _ IH ];
      intros js2 Hf2; inversion Hf2 as [ | ? j2 ? js2' [x Hx] Hrest ]; subst;
      constructor; [ | now apply IH ].
    destruct Hfr as (H1 & H2 & H3 & H4 & H5).
    repeat split; cbn; assumption. }
  exists evs. split; [ now rewrite Ht, Ht1, app_assoc | ].
  split; [ | split; assumption ].
  rewrite Hc. apply status_checks_frame.
  eapply Forall2_weaken; [ | exact Hf1 ]. now intros j j' [Hfr _].
Qed.

End Submitting.

(** ** The further properties at concrete inputs *)

Ltac concrete_wf :=
  split;
  [ repeat (constructor; [ vm_compute; reflexivity | ]); constructor
  | split;
    [ split; [ reflexivity | let H := fresh in intro H; discriminate H ]
    | split; vm_compute; reflexivity ] ].

Lemma Job_eq_components_witness :
  runtime Mock.job_killed <> runtime Mock.job_spent /\
  Job.get_hash (std := Mock.std []) Mock.job_killed =
  Job.get_hash (std := Mock.std []) Mock.job_spent.
Proof.
  split; [ vm_compute; discriminate | ].
  destruct (Job_eq_components (std := Mock.std [])
              Mock.job_killed Mock.job_spent) as [H _].
  - vm_compute. reflexivity.
  - exact H.
Defined.

Lemma Job_round_trip_witness :
  exists j',
    Job.deserialize (std := Mock.std []) None
      (Job.serialize (std := Mock.std []) false Mock.job_killed) = Ok j' /\
    runtime j' = runtime Mock.job_killed.
Proof.
  destruct (Job_round_trip (std := Mock.std []) None Mock.job_killed)
    as (j' & H1 & _ & H3 & _).
  - concrete_wf.
  - exists j'. split; assumption.
Defined.

Lemma Job_deserialize_static_witness :
  Job.deserialize (std := Mock.std []) None
    (Job.serialize (std := Mock.std []) true Mock.job_killed) =
  Raise (KeyError "job_state").
Proof.
  apply (Job_deserialize_static (std := Mock.std []) None Mock.job_killed).
  concrete_wf.
Defined.

Lemma Submission_round_trip_witness :
  exists sub,
    Submission.deserialize (std := Mock.std [])
      (Submission.serialize (std := Mock.std []) false Mock.submitted)
      = Ok sub /\
    map runtime (Submission.belonging_jobs sub) =
      map runtime (Submission.belonging_jobs Mock.submitted) /\
    Submission.eq (std := Mock.std []) Mock.submitted sub = true.
Proof.
  destruct (Submission_round_trip (std := Mock.std []) Mock.submitted)
    as (sub & H1 & _ & _ & _ & _ & _ & H2 & _ & _ & _ & H3).
  - split; [ vm_compute; reflexivity | ].
    vm_compute. intro H. discriminate H.
  - let l := eval vm_compute in (Submission.belonging_jobs Mock.submitted) in
    change (Forall (job_wf (std := Mock.std [])) l).
    repeat (constructor; [ concrete_wf | ]). constructor.
  - exists sub. repeat split; assumption.
Defined.

Lemma generate_jobs_partition_witness :
  exists new s' env',
    generate_jobs (std := Mock.std []) (Mock.registered, Mock.env [] [])
      = (Ok tt, (s', env')) /\
    Submission.belonging_jobs s' =
      Submission.belonging_jobs Mock.registered ++ new /\
    Permutation (List.concat (map Job.job_task_list new))
                (Submission.belonging_tasks Mock.registered).
Proof.
  destruct (generate_jobs_partition (std := Mock.std [])
              Mock.registered (Mock.env [] []))
    as (new & s' & env' & Hrun & Hjobs & _ & Hperm & _).
  - vm_compute. discriminate.
  - vm_compute. discriminate.
  - exists new, s', env'. repeat split; assumption.
Defined.

Lemma generate_jobs_rejects_witness :
  generate_jobs (std := Mock.std []) (Mock.fresh, Mock.env [] []) =
  (Raise (RuntimeError "submission must have at least 1 task"),
   (Mock.fresh, Mock.env [] [])).
Proof.
  destruct (generate_jobs_rejects (std := Mock.std [])
              Mock.fresh (Mock.env [] [])) as [_ H].
  apply H.
  - vm_compute. discriminate.
  - vm_compute. reflexivity.
Defined.

Lemma generate_jobs_then_register_witness :
  exists s' env',
    generate_jobs (std := Mock.std []) (Mock.registered, Mock.env [] [])
      = (Ok tt, (s', env')) /\
    exists x,
      register_task (Mock.task "d") (s', Mock.env [] []) =
        (Raise x, (s', Mock.env [] [])).
Proof.
  destruct (generate_jobs_then_register (std := Mock.std [])
              Mock.registered (Mock.env [] []))
    as (s' & env' & Hrun & Hlock).
  - vm_compute. discriminate.
  - vm_compute. discriminate.
  - exists s', env'. split; [ exact Hrun | ].
    exact (proj1 (Hlock (Mock.task "d") [] (Mock.env [] []))).
Defined.

Lemma handle_submission_idle_witness :
  handle_unexpected_submission_state
    (std := Mock.std []) (wld := Mock.wld (Mock.Tracking running))
    (Mock.generated, Mock.env [] []) =
  (Ok tt, (Mock.generated, Mock.env [] [])).
Proof.
  apply (handle_submission_idle (std := Mock.std [])
           (wld := Mock.wld (Mock.Tracking running))).
  vm_compute. repeat (constructor; [ repeat split; discriminate | ]).
  constructor.
Defined.

Lemma handle_submission_stops_at_unknown_witness :
  let r := handle_unexpected_submission_state
             (std := Mock.std []) (wld := Mock.wld (Mock.Tracking running))
             (Sample.mixed, Mock.env [] []) in
  fst r =
    Raise (RuntimeError
             ("job_state for job "
              ++ Job.repr (std := Mock.std []) Sample.job_lost
              ++ " is unknown")) /\
  map Job.job_id (firstn 1 (Submission.belonging_jobs (fst (snd r)))) =
    [ ("id-" ++ Job.job_hash Sample.job_new)%string ] /\
  skipn 1 (Submission.belonging_jobs (fst (snd r))) =
    [ Sample.job_lost; Mock.job_killed ] /\
  submits (trace (snd (snd r))) =
    [ EvSubmit 7 (Job.job_hash Sample.job_new) ].
Proof.
  cbv zeta.
  rewrite (handle_submission_stops_at_unknown (std := Mock.std [])
             (wld := Mock.wld (Mock.Tracking running))
             Sample.mixed (Mock.env [] [])
             (snd (snd (run_jobs
                          (handle_unexpected_job_state
                             (std := Mock.std [])
                             (wld := Mock.wld (Mock.Tracking running)))
                          [ Sample.job_new ] (Mock.env [] []))))
             [ Sample.job_new ]
             (fst (snd (run_jobs
                          (handle_unexpected_job_state
                             (std := Mock.std [])
                             (wld := Mock.wld (Mock.Tracking running)))
                          [ Sample.job_new ] (Mock.env [] []))))
             [ Mock.job_killed ] Sample.job_lost).
  - cbn [fst snd]. split; [ reflexivity | ].
    split; [ vm_compute; reflexivity | ].
    split; vm_compute; reflexivity.
  - reflexivity.
  - vm_compute. reflexivity.
  - reflexivity.
Defined.

Lemma unsubmitted_then_terminated_witness :
  exists job' env',
    repeat_handle (std := Mock.std [])
                  (wld := Mock.wld (Mock.Always terminated)) 7
                  (Sample.job_new, Mock.env [] []) =
      (Raise (RuntimeError
                ("job:job " ++ Job.repr (std := Mock.std []) job'
                 ++ " failed 5 times")),
       (job', env')) /\
    Job.fail_count job' = 6%Z.
Proof.
  destruct (unsubmitted_then_terminated (std := Mock.std [])
              (wld := Mock.wld (Mock.Always terminated))
              Sample.job_new (Mock.env [] []) 7) as [_ H].
  - intros b' j w. reflexivity.
  - reflexivity.
  - reflexivity.
  - reflexivity.
  - destruct (H 7) as (job' & env' & Hrun & Hfc & _); [ lia | ].
    exists job', env'. split; assumption.
Defined.

Lemma run_submission_writes_snapshot_only_witness :
  exists evs,
    trace (snd (snd (run_submission
                       (std := Mock.std [])
                       (wld := Mock.wld (Mock.Always terminated)) 2
                       (Mock.generated, Mock.env [] [])))) =
      trace (Mock.env [] []) ++ evs /\
    writes evs <> [] /\
    forall b name content,
      In (EvWriteFile b name content) evs ->
      name = (Submission.submission_hash Mock.generated ++ ".json")%string.
Proof.
  destruct (run_submission_writes_snapshot_only
              (std := Mock.std []) (wld := Mock.wld (Mock.Always terminated))
              2 Mock.generated (Mock.env [] [])) as (evs & Ht & Hall).
  - vm_compute. reflexivity.
  - exists evs. split; [ exact Ht | ]. split; [ | exact Hall ].
    change (trace (Mock.env [] []) ++ evs) with evs in Ht.
    rewrite <- Ht. vm_compute. discriminate.
Defined.

Lemma polling_loop_left_finished_witness :
  Forall (fun j => Job.job_state j = PStatus finished)
         (Submission.belonging_jobs
            (fst (snd (polling_loop
                         (std := Mock.std [])
                         (wld := Mock.wld (Mock.Always finished)) 1
                         (Mock.submitted, Mock.env [] []))))).
Proof.
  apply (polling_loop_left_finished
           (std := Mock.std []) (wld := Mock.wld (Mock.Always finished))).
  vm_compute. reflexivity.
Defined.

Lemma run_submission_ends_with_download_witness :
  exists b evs,
    Submission.batch
      (fst (snd (run_submission
                   (std := Mock.std [])
                   (wld := Mock.wld (Mock.Always finished)) 1
                   (Mock.generated, Mock.env [] [])))) = Some b /\
    exists w d,
      trace (snd (snd (run_submission
                         (std := Mock.std [])
                         (wld := Mock.wld (Mock.Always finished)) 1
                         (Mock.generated, Mock.env [] [])))) =
        evs ++ [ w; d ].
Proof.
  destruct (run_submission_ends_with_download
              (std := Mock.std []) (wld := Mock.wld (Mock.Always finished))
              1 Mock.generated
              (fst (snd (run_submission
                           (std := Mock.std [])
                           (wld := Mock.wld (Mock.Always finished)) 1
                           (Mock.generated, Mock.env [] []))))
              (Mock.env [] [])
              (snd (snd (run_submission
                           (std := Mock.std [])
                           (wld := Mock.wld (Mock.Always finished)) 1
                           (Mock.generated, Mock.env [] [])))))
    as (b & evs & Hb & Ht).
  - vm_compute. reflexivity.
  - exists b, evs. split; [ exact Hb | ]. eexists _, _.
    rewrite Ht. reflexivity.
Defined.

Lemma submit_submission_submits_each_witness :
  let r := submit_submission
             (std := Mock.std []) (wld := Mock.wld (Mock.Tracking running))
             (Mock.generated, Mock.env [] []) in
  map runtime (Submission.belonging_jobs (fst (snd r))) =
    map (fun j => (PStatus running, ("id-" ++ Job.job_hash j)%string, 0%Z))
        (Submission.belonging_jobs Mock.generated) /\
  exists evs,
    trace (snd (snd r)) =
      trace (Mock.env [] [])
      ++ job_submissions (Submission.belonging_jobs Mock.generated) ++ evs /\
    checks evs = status_checks (Submission.belonging_jobs Mock.generated).
Proof.
  cbv zeta. split; [ vm_compute; reflexivity | ].
  pose proof (submit_submission_submits_each
                (std := Mock.std []) (wld := Mock.wld (Mock.Tracking running))
                Mock.generated
                (fst (snd (submit_submission
                             (std := Mock.std [])
                             (wld := Mock.wld (Mock.Tracking running))
                             (Mock.generated, Mock.env [] []))))
                (Mock.env [] [])
                (snd (snd (submit_submission
                             (std := Mock.std [])
                             (wld := Mock.wld (Mock.Tracking running))
                             (Mock.generated, Mock.env [] []))))) as H.
  cbv zeta in H.
  destruct H as (_ & _ & _ & _ & evs & Ht & Hc & _).
  - vm_compute. reflexivity.
  - exists evs. split; assumption.
Defined.
